(** * Streaming translation core of the Gemini-to-OpenAI gateway

    A shallow embedding of [src/gemini-client.ts] (SSE frame reassembly,
    thinking-channel state machine, retry and fallback controller,
    non-streaming completion), of [src/helpers/auto-model-switching.ts] and of
    the OpenAI stream transformer, with the properties of the specification
    stated and settled against these definitions.

    Around this core: the synthetic narrative and its chunks, the conversion
    of messages and the validation of images, the generation configuration,
    the API key middlewares and the streaming branch of the chat completions
    route, each with the properties its code shows. *)

From Stdlib Require Import List NArith ZArith Bool Lia String Ascii.
From Stdlib Require Import DecimalString.
From Stdlib Require QArith.
Import ListNotations.

(** ** JavaScript strings

    A JavaScript string is a sequence of UTF-16 code units.  The string
    methods the gateway calls are written out on lists of code units. *)
Module JS.

Definition jsstring := list N.

(** A source literal, one code unit per character. *)
Definition lit (s : string) : jsstring :=
  map N_of_ascii (list_ascii_of_string s).

Definition LF : N := 10.

(** Truthiness of a string: [if (s)]. *)
Definition truthy (s : jsstring) : bool :=
  match s with [] => false | _ :: _ => true end.

Fixpoint eqb (a b : jsstring) : bool :=
  match a, b with
  | [], [] => true
  | x :: a', y :: b' => (x =? y)%N && eqb a' b'
  | _, _ => false
  end.

(** [s.startsWith(p)] *)
Fixpoint startsWith (s p : jsstring) {struct p} : bool :=
  match p, s with
  | [], _ => true
  | _ :: _, [] => false
  | c :: p', d :: s' => (d =? c)%N && startsWith s' p'
  end.

(** [s.includes(p)] *)
Fixpoint includes (s p : jsstring) : bool :=
  startsWith s p || match s with [] => false | _ :: s' => includes s' p end.

(** [s.substring(n)] *)
Definition substring_from (n : nat) (s : jsstring) : jsstring := skipn n s.

(** [s.split(sep)] for a separator of one code unit; the result is never
    empty. *)
Fixpoint split (sep : N) (s : jsstring) : list jsstring :=
  match s with
  | [] => [[]]
  | x :: s' =>
      if (x =? sep)%N then [] :: split sep s'
      else match split sep s' with
           | [] => [[x]]
           | l :: ls => (x :: l) :: ls
           end
  end.

(** WhiteSpace and LineTerminator code points of ECMAScript, as stripped by
    [String.prototype.trim]. *)
Definition isWhiteSpace (c : N) : bool :=
  ((9 <=? c) && (c <=? 13) || (c =? 32) || (c =? 160) || (c =? 5760)
   || (8192 <=? c) && (c <=? 8202) || (c =? 8232) || (c =? 8233)
   || (c =? 8239) || (c =? 8287) || (c =? 12288) || (c =? 65279))%N.

Fixpoint trimStart (s : jsstring) : jsstring :=
  match s with
  | [] => []
  | c :: s' => if isWhiteSpace c then trimStart s' else s
  end.

Definition trimEnd (s : jsstring) : jsstring := rev (trimStart (rev s)).

(** [s.trim()] *)
Definition trim (s : jsstring) : jsstring := trimEnd (trimStart s).

(** The regular expression [/<think>(.*?)<\/think>/s], as a backtracking
    matcher runs it.  With the [s] flag [.] matches every code unit, so the
    lazy group grows one code unit at a time until [close] follows. *)
Fixpoint lazy_until (close s : jsstring) : option (jsstring * jsstring) :=
  if startsWith s close then Some ([], skipn (List.length close) s)
  else match s with
       | [] => None
       | c :: s' =>
           match lazy_until close s' with
           | Some (captured, rest) => Some (c :: captured, rest)
           | None => None
           end
       end.

(** A match that starts at the first code unit of [s]: the capture and the
    text after the match. *)
Definition match_here (open close s : jsstring)
  : option (jsstring * jsstring) :=
  if startsWith s open then lazy_until close (skipn (List.length open) s)
  else None.

(** The leftmost match: the text before it, the capture, the text after. *)
Fixpoint regex_exec (open close s : jsstring)
  : option (jsstring * jsstring * jsstring) :=
  match match_here open close s with
  | Some (captured, rest) => Some ([], captured, rest)
  | None =>
      match s with
      | [] => None
      | c :: s' =>
          match regex_exec open close s' with
          | Some (before, captured, rest) => Some (c :: before, captured, rest)
          | None => None
          end
      end
  end.

(** [s.replace(/open.*?close/gs, empty)] with the empty string as replacement:
    a left-to-right scan that drops every match; [skip] counts the code units
    of the current match still to drop. *)
Fixpoint replace_scan (open close : jsstring) (skip : nat) (s : jsstring)
  : jsstring :=
  match s with
  | [] => []
  | c :: s' =>
      match skip with
      | S k => replace_scan open close k s'
      | O =>
          match match_here open close s with
          | Some (captured, _) =>
              replace_scan open close
                (List.length open + List.length captured + List.length close - 1) s'
          | None => c :: replace_scan open close 0 s'
          end
      end
  end.

Definition THINK_OPEN : jsstring := lit "<think>".
Definition THINK_CLOSE : jsstring := lit "</think>".

(** [text.match(/<think>(.*?)<\/think>/s)], the first capture group. *)
Definition match_think (text : jsstring) : option jsstring :=
  match regex_exec THINK_OPEN THINK_CLOSE text with
  | Some (_, captured, _) => Some captured
  | None => None
  end.

(** [text.replace(/<think>.*?<\/think>/gs, empty)], the replacement being
    the empty string. *)
Definition strip_think (text : jsstring) : jsstring :=
  replace_scan THINK_OPEN THINK_CLOSE 0 text.

(** [`${n}`] for a number that is a natural number. *)
Definition decimal (n : N) : jsstring :=
  lit (NilZero.string_of_uint (N.to_uint n)).

End JS.

Import JS.

(** ** Data model *)

(** *** Upstream events ([GeminiResponse] and its parts) *)

Record GeminiPart := mkPart {
  part_text : option jsstring;
  part_thought : option bool
}.

Record GeminiContent := mkContent {
  parts : option (list GeminiPart)
}.

Record GeminiCandidate := mkCandidate {
  content : option GeminiContent
}.

Record GeminiUsageMetadata := mkUsageMetadata {
  promptTokenCount : option Z;
  candidatesTokenCount : option Z
}.

Record GeminiResponseBody := mkResponseBody {
  candidates : option (list GeminiCandidate);
  usageMetadata : option GeminiUsageMetadata
}.

Record GeminiResponse := mkGeminiResponse {
  response : option GeminiResponseBody
}.

(** *** Stream chunks ([StreamChunk] of [types.ts]) *)

Record UsageData := mkUsage {
  inputTokens : Z;
  outputTokens : Z
}.

Record ReasoningData := mkReasoning {
  reasoning_text : jsstring
}.

Inductive ChunkType :=
  text | usage | reasoning | thinking_content | real_thinking.

Inductive ChunkData :=
| DString (s : jsstring)
| DUsage (u : UsageData)
| DReasoning (r : ReasoningData).

Record StreamChunk := mkChunk {
  type : ChunkType;
  data : ChunkData
}.

(** *** Fragments

    One constructor per kind of [yield] of [gemini-client.ts]; [chunk_of]
    is the object the generator yields there. *)
Inductive Fragment :=
| OpenThinking
| CloseThinking
| ThinkingText (s : jsstring)
| RealThinking (s : jsstring)
| Text (s : jsstring)
| SwitchNotification (originalModel fallbackModel : jsstring)
| Reasoning (r : ReasoningData)
| Usage (u : UsageData).

Definition THINKING_OPEN : jsstring := lit "<thinking>" ++ [LF].
Definition THINKING_CLOSE : jsstring := [LF] ++ lit "</thinking>" ++ [LF; LF].

(** [createSwitchNotification] of [AutoModelSwitchingHelper] *)
Definition createSwitchNotification (originalModel fallbackModel : jsstring)
  : jsstring :=
  lit "[Auto-switched from " ++ originalModel ++ lit " to " ++ fallbackModel
  ++ lit " due to rate limiting]" ++ [LF; LF].

Definition chunk_of (f : Fragment) : StreamChunk :=
  match f with
  | OpenThinking => mkChunk thinking_content (DString THINKING_OPEN)
  | CloseThinking => mkChunk thinking_content (DString THINKING_CLOSE)
  | ThinkingText s => mkChunk thinking_content (DString s)
  | RealThinking s => mkChunk real_thinking (DString s)
  | Text s => mkChunk text (DString s)
  | SwitchNotification o f =>
      mkChunk text (DString (createSwitchNotification o f))
  | Reasoning r => mkChunk reasoning (DReasoning r)
  | Usage u => mkChunk usage (DUsage u)
  end.

(** *** Errors, requests, responses *)

Record Error := mkError { message : jsstring }.

Record Env := mkEnv {
  GEMINI_PROJECT_ID : option jsstring;
  ENABLE_FAKE_THINKING : option jsstring;
  ENABLE_REAL_THINKING : option jsstring;
  STREAM_THINKING_AS_CONTENT : option jsstring;
  ENABLE_AUTO_MODEL_SWITCHING : option jsstring
}.

(** [env.X === "true"] *)
Definition is_true (v : option jsstring) : bool :=
  match v with
  | Some s => JS.eqb s (lit "true")
  | None => false
  end.

(** [response.status], [response.body] as the byte chunks its reader
    delivers ([None] for a null body). *)
Record Response := mkResponse {
  status : N;
  body : option (list (list Byte.byte))
}.

(** [response.ok] *)
Definition ok (r : Response) : bool :=
  ((200 <=? status r) && (status r <=? 299))%N.

(** ** Platform and collaborators *)

(** [TextDecoderStream]: a UTF-8 decoder is a transducer that consumes one
    byte at a time and keeps the bytes of an unfinished sequence in its
    state; [dflush] is what it emits for a sequence cut by the end of the
    stream. *)
Class TextDecoder := {
  dstate : Type;
  dinit : dstate;
  dstep : dstate -> Byte.byte -> dstate * jsstring;
  dflush : dstate -> jsstring
}.

(** [JSON.parse] at the type the client reads it, [None] when it throws. *)
Class JsonParser := {
  JSON_parse : jsstring -> option GeminiResponse
}.

(** [AuthManager] of [auth.ts].  Its operations read and write the KV
    storage, the clock and the OAuth endpoint, and are taken as they are
    called, on an abstract state that holds the access token and the cache.
    [initializeAuth] throws when no valid credential can be obtained.
    [getAccessToken] is the token as it is written after [Bearer].
    [loadCodeAssist] is [callEndpoint("loadCodeAssist", ..)] read at
    [cloudaicompanionProject]: [None] when the call throws or the field is
    missing.  The call authenticates, sends its own request to the
    [loadCodeAssist] method of the endpoint and, on a 401, clears the token,
    authenticates again and sends the request once more; so it leaves
    another state behind, and its requests, one or two, are not stream
    requests. *)
Class AuthManager := {
  AuthState : Type;
  initializeAuth : AuthState -> Error + AuthState;
  clearTokenCache : AuthState -> AuthState;
  getAccessToken : AuthState -> jsstring;
  loadCodeAssist : AuthState -> option jsstring * AuthState
}.

(** What [streamContent] builds from the caller's messages and options without
    looking at the upstream: the [request] field of the stream request
    ([messageToGeminiFormat] throws on an invalid image) and the canned
    narrative of [generateReasoningOutput], as the chunks it is split into and
    as whole sentences. *)
Class RequestModel := {
  ChatMessage : Type;
  Options : Type;
  RequestPayload : Type;
  includeReasoning : Options -> option bool;
  buildPayload :
    jsstring -> jsstring -> list ChatMessage -> option Options
    -> Error + RequestPayload;
  thinkingChunks : list ChatMessage -> list jsstring;
  reasoningTexts : list ChatMessage -> list jsstring
}.

(** ** SSE frame reassembler: [parseSSEStream] *)
Section SSE.

Context {decoder : TextDecoder} {json : JsonParser}.

Fixpoint decode_chunk (st : dstate) (chunk : list Byte.byte)
  : dstate * jsstring :=
  match chunk with
  | [] => (st, [])
  | b :: chunk' =>
      let (st1, o1) := dstep st b in
      let (st2, o2) := decode_chunk st1 chunk' in
      (st2, o1 ++ o2)
  end.

Definition enqueue_nonempty (out : jsstring) : list jsstring :=
  if truthy out then [out] else [].

(** The text chunks [reader.read()] delivers for the byte chunks of the
    body: one per byte chunk whose decoding is not empty, and a last one for
    what the decoder flushes. *)
Fixpoint TextDecoderStream (st : dstate) (stream : list (list Byte.byte))
  : list jsstring :=
  match stream with
  | [] => enqueue_nonempty (dflush st)
  | chunk :: stream' =>
      let (st', out) := decode_chunk st chunk in
      enqueue_nonempty out ++ TextDecoderStream st' stream'
  end.

Record ParserState := mkParser {
  buffer : jsstring;
  objectBuffer : jsstring;
  yielded : list GeminiResponse
}.

Definition initial : ParserState := mkParser [] [] [].

Definition set_buffer (b : jsstring) (st : ParserState) : ParserState :=
  mkParser b (objectBuffer st) (yielded st).

(** [try { yield JSON.parse(objectBuffer) } catch (e) { console.error(..) }] *)
Definition try_yield (ob : jsstring) : list GeminiResponse :=
  match JSON_parse ob with
  | Some e => [e]
  | None => []
  end.

(** The body of [for (const line of lines)]. *)
Definition handle_line (st : ParserState) (line : jsstring) : ParserState :=
  if negb (truthy (trim line)) then
    if truthy (objectBuffer st) then
      mkParser (buffer st) [] (yielded st ++ try_yield (objectBuffer st))
    else st
  else if startsWith line (lit "data: ") then
    mkParser (buffer st) (objectBuffer st ++ substring_from 6 line)
             (yielded st)
  else st.

(** One iteration of [while (true)] with [done] false. *)
Definition on_read (st : ParserState) (value : jsstring) : ParserState :=
  let lines := split LF (buffer st ++ value) in
  fold_left handle_line (removelast lines) (set_buffer (last lines []) st).

(** The iteration with [done] true. *)
Definition on_done (st : ParserState) : list GeminiResponse :=
  yielded st
  ++ (if truthy (objectBuffer st) then try_yield (objectBuffer st) else []).

Definition read_all (values : list jsstring) : ParserState :=
  fold_left on_read values initial.

Definition parse_text_chunks (values : list jsstring) : list GeminiResponse :=
  on_done (read_all values).

Definition parseSSEStream (stream : list (list Byte.byte))
  : list GeminiResponse :=
  parse_text_chunks (TextDecoderStream dinit stream).

(** The whole text a body decodes to. *)
Definition decoded_text (stream : list (list Byte.byte)) : jsstring :=
  List.concat (TextDecoderStream dinit stream).

End SSE.

(** ** Configuration tables: [models.ts] and [constants.ts] *)

Record ModelInfo := mkModelInfo {
  maxTokens : N;
  contextWindow : N;
  supportsImages : bool;
  supportsPromptCache : bool;
  thinking : bool
}.

Definition geminiCliModels : list (jsstring * ModelInfo) :=
  [ (lit "gemini-2.5-pro", mkModelInfo 65536 1048576 true false true);
    (lit "gemini-2.5-flash", mkModelInfo 65536 1048576 true false true) ].

Definition AUTO_SWITCH_MODEL_MAP : list (jsstring * jsstring) :=
  [ (lit "gemini-2.5-pro", lit "gemini-2.5-flash") ].

Definition RATE_LIMIT_STATUS_CODES : list N := [429; 503]%N.

(** [table[key]] on the own properties of a table.  For a key that names a
    property every object inherits ([constructor], [toString], [__proto__]
    and the like) the code reads the inherited value, which is no model id;
    such keys are outside this definition. *)
Fixpoint lookup {A : Type} (key : jsstring) (table : list (jsstring * A))
  : option A :=
  match table with
  | [] => None
  | (k, v) :: table' => if JS.eqb key k then Some v else lookup key table'
  end.

Definition truthy_opt (s : option jsstring) : bool :=
  match s with Some s => truthy s | None => false end.

(** ** [AutoModelSwitchingHelper] *)
Section AutoModelSwitchingHelper.

Variable env : Env.

Definition isEnabled : bool := is_true (ENABLE_AUTO_MODEL_SWITCHING env).

Definition getFallbackModel (originalModel : jsstring) : option jsstring :=
  match lookup originalModel AUTO_SWITCH_MODEL_MAP with
  | Some m => if truthy m then Some m else None
  | None => None
  end.

Definition isRateLimitError (error : Error) : bool :=
  includes (message error) (lit "Stream request failed: 429")
  || includes (message error) (lit "Stream request failed: 503").

Definition isRateLimitStatus (status : N) : bool :=
  existsb (N.eqb status) RATE_LIMIT_STATUS_CODES.

Definition shouldAttemptFallback (originalModel : jsstring) : bool :=
  isEnabled
  && match getFallbackModel originalModel with
     | Some _ => true
     | None => false
     end.

End AutoModelSwitchingHelper.

(** ** Thinking-channel state machine: the loop of [performStreamRequest] *)

Record ThinkingFlags := mkFlags {
  hasClosedThinking : bool;
  hasStartedThinking : bool
}.

Definition flags0 : ThinkingFlags := mkFlags false false.

Section ThinkingChannel.

Variables needsThinkingClose realThinkingAsContent : bool.

(** [if (!hasStartedThinking) { yield "<thinking>\n"; hasStartedThinking = true }] *)
Definition open_if_needed (st : ThinkingFlags)
  : ThinkingFlags * list Fragment :=
  if negb (hasStartedThinking st)
  then (mkFlags (hasClosedThinking st) true, [OpenThinking])
  else (st, []).

(** [if (cond && !hasClosedThinking) { yield "\n</thinking>\n\n"; hasClosedThinking = true }] *)
Definition close_if (cond : bool) (st : ThinkingFlags)
  : ThinkingFlags * list Fragment :=
  if cond && negb (hasClosedThinking st)
  then (mkFlags true (hasStartedThinking st), [CloseThinking])
  else (st, []).

(** [part.thought === true && part.text] *)
Definition thought_part (t : jsstring) (st : ThinkingFlags)
  : ThinkingFlags * list Fragment :=
  if realThinkingAsContent then
    let (st1, o1) := open_if_needed st in
    (st1, o1 ++ [ThinkingText t])
  else (st, [RealThinking t]).

(** [part.text && part.text.includes("<think>")] *)
Definition tagged_part (t : jsstring) (st : ThinkingFlags)
  : ThinkingFlags * list Fragment :=
  if realThinkingAsContent then
    let (st1, o1) :=
      match match_think t with
      | Some inner =>
          let (st1, o1) := open_if_needed st in
          (st1, o1 ++ [ThinkingText inner])
      | None => (st, [])
      end in
    let nonThinkingContent := trim (strip_think t) in
    if truthy nonThinkingContent then
      let (st2, o2) := close_if (hasStartedThinking st1) st1 in
      (st2, o1 ++ o2 ++ [Text nonThinkingContent])
    else (st1, o1)
  else
    let o1 :=
      match match_think t with
      | Some inner => [RealThinking inner]
      | None => []
      end in
    let nonThinkingContent := trim (strip_think t) in
    if truthy nonThinkingContent
    then (st, o1 ++ [Text nonThinkingContent])
    else (st, o1).

(** [part.text && !part.thought && !part.text.includes("<think>")] *)
Definition plain_part (t : jsstring) (st : ThinkingFlags)
  : ThinkingFlags * list Fragment :=
  let (st1, o1) :=
    close_if (needsThinkingClose
              || (realThinkingAsContent && hasStartedThinking st)) st in
  (st1, o1 ++ [Text t]).

(** The body of [for (const part of candidate.content.parts)]. *)
Definition handle_part (st : ThinkingFlags) (part : GeminiPart)
  : ThinkingFlags * list Fragment :=
  (* an absent text is falsy, as the empty string is *)
  let t := match part_text part with Some t => t | None => [] end in
  let thought_is_true :=
    match part_thought part with Some true => true | _ => false end in
  let thought_truthy :=
    match part_thought part with Some b => b | None => false end in
  if thought_is_true && truthy t then thought_part t st
  else if truthy t && includes t THINK_OPEN then tagged_part t st
  else if truthy t && negb thought_truthy && negb (includes t THINK_OPEN)
  then plain_part t st
  else (st, []).

Fixpoint handle_parts (st : ThinkingFlags) (ps : list GeminiPart)
  : ThinkingFlags * list Fragment :=
  match ps with
  | [] => (st, [])
  | p :: ps' =>
      let (st1, o1) := handle_part st p in
      let (st2, o2) := handle_parts st1 ps' in
      (st2, o1 ++ o2)
  end.

(** [jsonData.response?.candidates?.[0]?.content?.parts] *)
Definition candidate_parts (jsonData : GeminiResponse)
  : option (list GeminiPart) :=
  match response jsonData with
  | Some r =>
      match candidates r with
      | Some (candidate :: _) =>
          match content candidate with
          | Some c => parts c
          | None => None
          end
      | _ => None
      end
  | None => None
  end.

(** [x || 0] *)
Definition or_zero (x : option Z) : Z :=
  match x with Some n => n | None => 0%Z end.

Definition usage_of (jsonData : GeminiResponse) : list Fragment :=
  match response jsonData with
  | Some r =>
      match usageMetadata r with
      | Some u =>
          [Usage (mkUsage (or_zero (promptTokenCount u))
                          (or_zero (candidatesTokenCount u)))]
      | None => []
      end
  | None => []
  end.

(** The body of [for await (const jsonData of this.parseSSEStream(..))]. *)
Definition handle_event (st : ThinkingFlags) (jsonData : GeminiResponse)
  : ThinkingFlags * list Fragment :=
  let (st1, o1) :=
    match candidate_parts jsonData with
    | Some ps => handle_parts st ps
    | None => (st, [])
    end in
  (st1, o1 ++ usage_of jsonData).

Fixpoint handle_events (st : ThinkingFlags) (evs : list GeminiResponse)
  : ThinkingFlags * list Fragment :=
  match evs with
  | [] => (st, [])
  | ev :: evs' =>
      let (st1, o1) := handle_event st ev in
      let (st2, o2) := handle_events st1 evs' in
      (st2, o1 ++ o2)
  end.

(** What the loop yields for a successful response. *)
Definition stream_events (evs : list GeminiResponse) : list Fragment :=
  snd (handle_events flags0 evs).

End ThinkingChannel.

(** ** [GeminiApiClient]: retry and fallback controller, [streamContent],
    [getCompletion] *)
Section GeminiApiClient.

Context {decoder : TextDecoder} {json : JsonParser}
        {authManager : AuthManager} {requests : RequestModel}.

Variable env : Env.

(** The mutable fields of the client and of its [AuthManager]. *)
Record Client := mkClient {
  auth : AuthState;
  projectId : option jsstring
}.

(** [streamRequest]: the JSON body posted to the upstream. *)
Record StreamRequest := mkStreamRequest {
  model : jsstring;
  project : jsstring;
  request : RequestPayload
}.

(** Calls on the collaborators, in the order the client makes them. *)
Inductive Action :=
| CallInitializeAuth
| CallClearTokenCache
| CallLoadCodeAssist
| CallFetch (token : jsstring) (streamRequest : StreamRequest).

(** A run of an async generator: what it yielded, the error it threw if it
    did not finish, and what it left behind.  The upstream is the list of
    responses it gives to the successive stream requests, the [fetch] calls
    of [performStreamRequest]; a [fetch] on the empty list rejects.  The
    requests the [AuthManager] sends on its own are not among them. *)
Record Run := mkRun {
  fragments : list Fragment;
  thrown : option Error;
  client_after : Client;
  upstream_after : list Response;
  actions : list Action
}.

(** A run after some calls and yields that did not throw. *)
Definition after (acts : list Action) (frs : list Fragment) (r : Run) : Run :=
  mkRun (frs ++ fragments r) (thrown r) (client_after r) (upstream_after r)
        (acts ++ actions r).

(** The error of a [fetch] that rejects (no response from the upstream). *)
Definition fetch_rejected : Error := mkError (lit "fetch failed").

Definition stream_request_failed (status : N) : Error :=
  mkError (lit "Stream request failed: " ++ decimal status).

Definition response_has_no_body : Error :=
  mkError (lit "Response has no body").

Fixpoint performStreamRequest (upstream : list Response) (client : Client)
    (streamRequest : StreamRequest)
    (needsThinkingClose isRetry realThinkingAsContent : bool)
    (originalModel : option jsstring) {struct upstream} : Run :=
  let fetched := CallFetch (getAccessToken (auth client)) streamRequest in
  match upstream with
  | [] => mkRun [] (Some fetch_rejected) client [] [fetched]
  | response :: upstream' =>
      let fail :=
        mkRun [] (Some (stream_request_failed (status response)))
              client upstream' [fetched] in
      if negb (ok response) then
        if (status response =? 401)%N && negb isRetry then
          let cleared := clearTokenCache (auth client) in
          match initializeAuth cleared with
          | inl e =>
              mkRun [] (Some e) (mkClient cleared (projectId client))
                    upstream'
                    [fetched; CallClearTokenCache; CallInitializeAuth]
          | inr renewed =>
              after [fetched; CallClearTokenCache; CallInitializeAuth] []
                (performStreamRequest upstream'
                   (mkClient renewed (projectId client)) streamRequest
                   needsThinkingClose true realThinkingAsContent
                   originalModel)
          end
        else if isRateLimitStatus (status response) && negb isRetry
                && truthy_opt originalModel then
          match originalModel with
          | Some original =>
              match getFallbackModel original with
              | Some fallbackModel =>
                  if isEnabled env then
                    let fallbackRequest :=
                      mkStreamRequest fallbackModel (project streamRequest)
                                      (request streamRequest) in
                    after [fetched]
                      [SwitchNotification original fallbackModel]
                      (performStreamRequest upstream' client fallbackRequest
                         needsThinkingClose true realThinkingAsContent
                         originalModel)
                  else fail
              | None => fail
              end
          | None => fail
          end
        else fail
      else
        match body response with
        | None => mkRun [] (Some response_has_no_body) client upstream'
                        [fetched]
        | Some bytes =>
            mkRun (stream_events needsThinkingClose realThinkingAsContent
                     (parseSSEStream bytes))
                  None client upstream' [fetched]
        end
  end.

(** [generateReasoningOutput]; the narrative is [thinkingChunks] or
    [reasoningTexts] of the request model. *)
Definition generateReasoningOutput (messages : list ChatMessage)
    (streamAsContent : bool) : list Fragment :=
  if streamAsContent then
    OpenThinking :: map ThinkingText (thinkingChunks messages)
  else
    map (fun t => Reasoning (mkReasoning t)) (reasoningTexts messages).

Definition project_discovery_failed : Error :=
  mkError (lit "Could not discover project ID. Make sure you're authenticated and consider setting GEMINI_PROJECT_ID.").

(** [discoverProjectId]: the result, the client with its cache and with the
    state [callEndpoint] left, the calls. *)
Definition discoverProjectId (client : Client)
  : (Error + jsstring) * Client * list Action :=
  if truthy_opt (GEMINI_PROJECT_ID env) then
    (inr (match GEMINI_PROJECT_ID env with Some p => p | None => [] end),
     client, [])
  else if truthy_opt (projectId client) then
    (inr (match projectId client with Some p => p | None => [] end),
     client, [])
  else
    let (loadResponse, called) := loadCodeAssist (auth client) in
    match loadResponse with
    | Some p =>
        if truthy p
        then (inr p, mkClient called (Some p), [CallLoadCodeAssist])
        else (inl project_discovery_failed,
              mkClient called (projectId client), [CallLoadCodeAssist])
    | None =>
        (inl project_discovery_failed,
         mkClient called (projectId client), [CallLoadCodeAssist])
    end.

(** [options?.includeReasoning || false] *)
Definition includeReasoning_of (options : option Options) : bool :=
  match options with
  | Some o => match includeReasoning o with Some b => b | None => false end
  | None => false
  end.

(** [geminiCliModels[modelId]?.thinking || false] *)
Definition isThinkingModel (modelId : jsstring) : bool :=
  match lookup modelId geminiCliModels with
  | Some info => thinking info
  | None => false
  end.

Definition streamContent (upstream : list Response) (client : Client)
    (modelId systemPrompt : jsstring) (messages : list ChatMessage)
    (options : option Options) : Run :=
  match initializeAuth (auth client) with
  | inl e => mkRun [] (Some e) client upstream [CallInitializeAuth]
  | inr a =>
      let client1 := mkClient a (projectId client) in
      match discoverProjectId client1 with
      | (inl e, client2, acts) =>
          mkRun [] (Some e) client2 upstream (CallInitializeAuth :: acts)
      | (inr projectId, client2, acts) =>
          match buildPayload modelId systemPrompt messages options with
          | inl e =>
              mkRun [] (Some e) client2 upstream (CallInitializeAuth :: acts)
          | inr payload =>
              let isFakeThinkingEnabled :=
                is_true (ENABLE_FAKE_THINKING env) in
              let streamThinkingAsContent :=
                is_true (STREAM_THINKING_AS_CONTENT env) in
              let includeReasoning := includeReasoning_of options in
              let fake :=
                isThinkingModel modelId && isFakeThinkingEnabled
                && negb includeReasoning in
              let prelude :=
                if fake
                then generateReasoningOutput messages streamThinkingAsContent
                else [] in
              let needsThinkingClose :=
                if fake then streamThinkingAsContent else false in
              let streamRequest :=
                mkStreamRequest modelId projectId payload in
              after (CallInitializeAuth :: acts) prelude
                (performStreamRequest upstream client2 streamRequest
                   needsThinkingClose false
                   (includeReasoning && streamThinkingAsContent)
                   (Some modelId))
          end
      end
  end.

(** *** Non-streaming completion *)

Record Completion := mkCompletion {
  completion_content : jsstring;
  completion_usage : option UsageData
}.

(** The body of [for await (const chunk of ..)] of [getCompletion] and of
    [handleNonStreamingFallback]; the object of a [usage] chunk is its
    [UsageData]. *)
Definition collect (acc : Completion) (chunk : StreamChunk) : Completion :=
  match type chunk, data chunk with
  | text, DString s =>
      mkCompletion (completion_content acc ++ s) (completion_usage acc)
  | usage, DUsage u => mkCompletion (completion_content acc) (Some u)
  | _, _ => acc
  end.

Definition collect_all (acc : Completion) (chunks : list StreamChunk)
  : Completion :=
  fold_left collect chunks acc.

(** The result of an async function and what it left behind. *)
Record Call (A : Type) := mkCall {
  returned : Error + A;
  call_client : Client;
  call_upstream : list Response;
  call_actions : list Action
}.

Arguments mkCall {A}.
Arguments returned {A}.
Arguments call_client {A}.
Arguments call_upstream {A}.
Arguments call_actions {A}.

(** [handleNonStreamingFallback], with [streamContentFn] bound to
    [streamContent]; [inr None] is the [null] result. *)
Definition handleNonStreamingFallback (upstream : list Response)
    (client : Client) (originalModel systemPrompt : jsstring)
    (messages : list ChatMessage) (options : option Options)
  : Call (option Completion) :=
  match getFallbackModel originalModel with
  | Some fallbackModel =>
      if isEnabled env then
        let run :=
          streamContent upstream client fallbackModel systemPrompt messages
                        options in
        let start :=
          mkCompletion
            (createSwitchNotification originalModel fallbackModel) None in
        mkCall
          match thrown run with
          | Some e => inl e
          | None =>
              inr (Some (collect_all start (map chunk_of (fragments run))))
          end
          (client_after run) (upstream_after run) (actions run)
      else mkCall (inr None) client upstream []
  | None => mkCall (inr None) client upstream []
  end.

Definition getCompletion (upstream : list Response) (client : Client)
    (modelId systemPrompt : jsstring) (messages : list ChatMessage)
    (options : option Options) : Call Completion :=
  let run :=
    streamContent upstream client modelId systemPrompt messages options in
  match thrown run with
  | None =>
      mkCall
        (inr (collect_all (mkCompletion [] None)
                          (map chunk_of (fragments run))))
        (client_after run) (upstream_after run) (actions run)
  | Some error =>
      if isRateLimitError error then
        let fb :=
          handleNonStreamingFallback (upstream_after run) (client_after run)
            modelId systemPrompt messages options in
        mkCall
          match returned fb with
          | inl e => inl e
          | inr (Some fallbackResult) => inr fallbackResult
          | inr None => inl error
          end
          (call_client fb) (call_upstream fb)
          (actions run ++ call_actions fb)
      else
        mkCall (inl error) (client_after run) (upstream_after run)
               (actions run)
  end.

End GeminiApiClient.

Arguments mkCall {authManager requests A}.
Arguments returned {authManager requests A}.
Arguments call_client {authManager requests A}.
Arguments call_upstream {authManager requests A}.
Arguments call_actions {authManager requests A}.

(** ** Downstream serializer: [createOpenAIStreamTransformer] *)
Module StreamTransformer.

(** [OpenAIDelta]; [reasoning_content] and [tool_calls] are always [null]. *)
Record OpenAIDelta := mkDelta {
  delta_role : option jsstring;
  delta_content : option jsstring;
  delta_reasoning : option jsstring
}.

(** [OpenAIChunk] with its single choice; [finish_reason], [logprobs],
    [matched_stop] and [usage] are always [null]. *)
Record OpenAIChunk := mkOpenAIChunk {
  id : jsstring;
  object : jsstring;
  created : Z;
  model : jsstring;
  delta : OpenAIDelta
}.

(** What the transformer enqueues, before [JSON.stringify] and encoding:
    a data chunk, the final chunk (empty delta, [finish_reason: "stop"]) and
    the [[DONE]] line. *)
Inductive Enqueued :=
| Data (chunk : OpenAIChunk)
| Final (id : jsstring) (object : jsstring) (created : Z) (model : jsstring)
| DONE.

Section Transformer.

(** [OPENAI_CHAT_COMPLETION_OBJECT] of [config.ts], the random [chatID]
    and the clock reading [creationTime], fixed when the transformer is
    created. *)
Variable OPENAI_CHAT_COMPLETION_OBJECT : jsstring.
Variable chatID : jsstring.
Variable creationTime : Z.
Variable model_ : jsstring.

Definition openAIChunk (d : OpenAIDelta) : OpenAIChunk :=
  mkOpenAIChunk chatID OPENAI_CHAT_COMPLETION_OBJECT creationTime model_ d.

(** [if (firstChunk) { delta.role = "assistant"; firstChunk = false }] *)
Definition with_role (firstChunk : bool) (c : jsstring) : OpenAIDelta :=
  mkDelta (if firstChunk then Some (lit "assistant") else None)
          (Some c) None.

(** [transform(chunk, controller)]: the flag [firstChunk] after the call
    and what was enqueued. *)
Definition transform (firstChunk : bool) (chunk : StreamChunk)
  : bool * list OpenAIChunk :=
  match type chunk, data chunk with
  | text, DString s =>
      if truthy s
      then (false, [openAIChunk (with_role firstChunk s)])
      else (firstChunk, [])
  | thinking_content, DString s =>
      if truthy s
      then (false, [openAIChunk (with_role firstChunk s)])
      else (firstChunk, [])
  | real_thinking, DString s =>
      if truthy s
      then (firstChunk, [openAIChunk (mkDelta None None (Some s))])
      else (firstChunk, [])
  | reasoning, DReasoning r =>
      (firstChunk,
       [openAIChunk (mkDelta None None (Some (reasoning_text r)))])
  | _, _ => (firstChunk, [])
  end.

Fixpoint transform_all (firstChunk : bool) (chunks : list StreamChunk)
  : list OpenAIChunk :=
  match chunks with
  | [] => []
  | chunk :: chunks' =>
      let (firstChunk', out) := transform firstChunk chunk in
      out ++ transform_all firstChunk' chunks'
  end.

(** [flush(controller)] *)
Definition flush : list Enqueued :=
  [Final chatID OPENAI_CHAT_COMPLETION_OBJECT creationTime model_; DONE].

(** Everything the transformer enqueues for a stream of chunks. *)
Definition createOpenAIStreamTransformer (chunks : list StreamChunk)
  : list Enqueued :=
  map Data (transform_all true chunks) ++ flush.

End Transformer.

End StreamTransformer.

(** ** More string methods *)

(** [s.lastIndexOf(c)] for one code unit [c]: [-1] when [c] does not
    occur. *)
Fixpoint lastIndexOf (s : jsstring) (c : N) : Z :=
  match s with
  | [] => (-1)%Z
  | x :: s' =>
      let i := lastIndexOf s' c in
      if (0 <=? i)%Z then (i + 1)%Z
      else if (x =? c)%N then 0%Z else (-1)%Z
  end.

(** [l.join(sep)] *)
Fixpoint join (sep : jsstring) (l : list jsstring) : jsstring :=
  match l with
  | [] => []
  | [s] => s
  | s :: l' => s ++ sep ++ join sep l'
  end.

(** [GetSubstitution] when the pattern is a string, so that there are no
    captures: [$$], [$&], [$`] and [$'] are expanded, every other code unit
    of the replacement stands for itself. *)
Fixpoint GetSubstitution (matched before after replacement : jsstring)
  : jsstring :=
  match replacement with
  | [] => []
  | c :: r =>
      if (c =? 36)%N then
        match r with
        | d :: r' =>
            if (d =? 36)%N then
              36%N :: GetSubstitution matched before after r'
            else if (d =? 38)%N then
              matched ++ GetSubstitution matched before after r'
            else if (d =? 96)%N then
              before ++ GetSubstitution matched before after r'
            else if (d =? 39)%N then
              after ++ GetSubstitution matched before after r'
            else c :: GetSubstitution matched before after r
        | [] => [c]
        end
      else c :: GetSubstitution matched before after r
  end.

(** [s.replace(pattern, replacement)] for a pattern that is a string: the
    first occurrence is replaced. *)
Definition String_replace (s pattern replacement : jsstring) : jsstring :=
  match lazy_until pattern s with
  | Some (before, after) =>
      before ++ GetSubstitution pattern before after replacement ++ after
  | None => s
  end.

(** ** Chat messages ([types.ts]) *)
Module Chat.

(** [ChatMessage] and [MessageContent]. *)
Record ImageUrl := mkImageUrl {
  url : jsstring;
  detail : option jsstring
}.

Record MessageContent := mkMessageContent {
  item_type : jsstring;
  item_text : option jsstring;
  image_url : option ImageUrl
}.

Inductive Content :=
| Str (s : jsstring)
| Items (items : list MessageContent).

Record ChatMessage := mkChatMessage {
  role : jsstring;
  content : Content
}.

End Chat.

(** ** The narrative of [generateReasoningOutput] *)
Module Narrative.

Import Chat.

(** [REASONING_MESSAGES], [THINKING_CONTENT_CHUNK_SIZE] of [constants.ts];
    each message starts with the code units of its emoji. *)
Definition QUOTE : N := 34.

Definition PLACEHOLDER : jsstring := lit "{requestPreview}".

Definition REASONING_MESSAGES : list jsstring :=
  [ [55357; 56589]%N ++ lit " **Analyzing the request: " ++ [QUOTE]
      ++ PLACEHOLDER ++ [QUOTE] ++ lit "**" ++ [LF; LF];
    [55358; 56596]%N ++ lit " Let me think about this step by step... ";
    [55357; 56493]%N
      ++ lit " I need to consider the context and provide a comprehensive response. ";
    [55356; 57263]%N
      ++ lit " Based on my understanding, I should address the key points while being accurate and helpful. ";
    [10024]%N ++ lit " Let me formulate a clear and structured answer."
      ++ [LF; LF] ].

Definition THINKING_CONTENT_CHUNK_SIZE : nat := 15.

(** [isTextContent] *)
Definition isTextContent (c : MessageContent) : bool :=
  JS.eqb (item_type c) (lit "text")
  && match item_text c with Some _ => true | None => false end.

(** The text of the last message of role [user]. *)
Definition userContent (messages : list ChatMessage) : jsstring :=
  match rev (filter (fun msg => JS.eqb (role msg) (lit "user")) messages) with
  | [] => []
  | lastUserMessage :: _ =>
      match content lastUserMessage with
      | Str s => s
      | Items items =>
          join (lit " ")
               (map (fun c => match item_text c with
                              | Some t => t
                              | None => []
                              end)
                    (filter isTextContent items))
      end
  end.

Definition requestPreview (userContent : jsstring) : jsstring :=
  firstn 100 userContent
  ++ (if 100 <? List.length userContent then lit "..." else []).

Definition reasoningTexts (requestPreview : jsstring) : list jsstring :=
  map (fun msg => String_replace msg PLACEHOLDER requestPreview)
      REASONING_MESSAGES.

Definition fullReasoningText (requestPreview : jsstring) : jsstring :=
  List.concat (reasoningTexts requestPreview).

Definition goodBreaks : list N := [32; 10; 46; 44; 33; 63; 59; 58]%N.

(** [for (const breakChar of goodBreaks)]: the end of the chunk.  The test
    [lastBreak > THINKING_CONTENT_CHUNK_SIZE * 0.7] compares an index with
    10.5. *)
Fixpoint find_break (searchSpace : jsstring) (breaks : list N)
    (chunkEnd : nat) : nat :=
  match breaks with
  | [] => chunkEnd
  | breakChar :: breaks' =>
      let lastBreak := lastIndexOf searchSpace breakChar in
      if (10 <? lastBreak)%Z then Z.to_nat (lastBreak + 1)
      else find_break searchSpace breaks' chunkEnd
  end.

(** [while (remainingText.length > 0)]; every iteration but the last takes
    at least one code unit, so the length of the text bounds their number. *)
Fixpoint split_chunks (iterations : nat) (remainingText : jsstring)
  : list jsstring :=
  match iterations with
  | O => []
  | S iterations' =>
      match remainingText with
      | [] => []
      | _ :: _ =>
          if List.length remainingText <=? THINKING_CONTENT_CHUNK_SIZE
          then [remainingText]
          else
            let chunkEnd := THINKING_CONTENT_CHUNK_SIZE in
            let searchSpace := firstn (chunkEnd + 10) remainingText in
            let chunkEnd := find_break searchSpace goodBreaks chunkEnd in
            firstn chunkEnd remainingText
            :: split_chunks iterations' (skipn chunkEnd remainingText)
      end
  end.

Definition chunks (fullReasoningText : jsstring) : list jsstring :=
  split_chunks (List.length fullReasoningText) fullReasoningText.

(** What [generateReasoningOutput] yields for the messages of a request. *)
Definition generateReasoningOutput (messages : list ChatMessage)
    (streamAsContent : bool) : list Fragment :=
  let requestPreview := requestPreview (userContent messages) in
  if streamAsContent then
    OpenThinking
    :: map ThinkingText (chunks (fullReasoningText requestPreview))
  else
    map (fun t => Reasoning (mkReasoning t)) (reasoningTexts requestPreview).

End Narrative.

(** ** JavaScript numbers *)

(** A number: [NaN], an infinity, negative zero, or a finite number, which is
    a rational. *)
Inductive JSNumber :=
| NaN
| Infinity
| NegInfinity
| NegZero
| Finite (q : QArith_base.Q).

Definition Number_of_Z (z : Z) : JSNumber := Finite (QArith_base.inject_Z z).

(** The rational a number stands for in a comparison, when it is finite. *)
Definition finite_value (x : JSNumber) : option QArith_base.Q :=
  match x with
  | NegZero => Some (QArith_base.inject_Z 0)
  | Finite q => Some q
  | NaN | Infinity | NegInfinity => None
  end.

(** [x === y] on numbers: false with [NaN], and zero is negative zero. *)
Definition strict_equals (x y : JSNumber) : bool :=
  match x, y with
  | NaN, _ | _, NaN => false
  | Infinity, Infinity | NegInfinity, NegInfinity => true
  | _, _ =>
      match finite_value x, finite_value y with
      | Some p, Some q => QArith_base.Qeq_bool p q
      | _, _ => false
      end
  end.

(** [x < y] on numbers: false with [NaN]. *)
Definition less_than (x y : JSNumber) : bool :=
  match x, y with
  | NaN, _ | _, NaN => false
  | _, NegInfinity | Infinity, _ => false
  | NegInfinity, _ | _, Infinity => true
  | _, _ =>
      match finite_value x, finite_value y with
      | Some p, Some q => negb (QArith_base.Qle_bool q p)
      | _, _ => false
      end
  end.

(** ** [GenerationConfigValidator] *)
Module GenerationConfigValidator.

Definition DEFAULT_THINKING_BUDGET : JSNumber := Number_of_Z (-1).

(** [validateThinkingBudget], on every number the caller can pass. *)
Definition validateThinkingBudget (modelId : jsstring)
    (thinkingBudget : JSNumber) : JSNumber :=
  if isThinkingModel modelId then
    if strict_equals thinkingBudget (Number_of_Z 0)
    then DEFAULT_THINKING_BUDGET
    else if less_than thinkingBudget (Number_of_Z (-1))
    then DEFAULT_THINKING_BUDGET
    else thinkingBudget
  else thinkingBudget.

Section Config.

(** The values a caller can give to a generation parameter. *)
Variable Value : Type.

(** The values of the properties of [generationConfig]. *)
Inductive ConfigValue :=
| DEFAULT_TEMPERATURE
| Given (v : Value)
| ThinkingConfig (thinkingBudget : JSNumber) (includeThoughts : bool).

(** An object, as its own properties in the order they were created. *)
Definition Obj : Type := list (jsstring * ConfigValue).

(** [obj[key] = v] for a key other than [__proto__]: the property is
    changed where the object has it and added at the end where not. *)
Fixpoint set_property (key : jsstring) (v : ConfigValue) (obj : Obj) : Obj :=
  match obj with
  | [] => [(key, v)]
  | (k, w) :: obj' =>
      if JS.eqb key k then (k, v) :: obj'
      else (k, w) :: set_property key v obj'
  end.

(** [Object.assign(target, source)] on a target made by an object literal,
    [source] being the own properties of the source object.  Each is
    assigned to the target in turn.  An assignment to [__proto__] goes to
    the accessor every such object inherits: it gives the target no
    property of its own, and the prototype it may replace has no part in the
    own properties, which are what is serialised. *)
Definition Object_assign (target : Obj) (source : list (jsstring * Value))
  : Obj :=
  fold_left (fun obj kv =>
               if JS.eqb (fst kv) (lit "__proto__") then obj
               else set_property (fst kv) (Given (snd kv)) obj)
            source target.

Record ConfigOptions := mkConfigOptions {
  thinkingBudget : option JSNumber;
  generationConfig : option (list (jsstring * Value))
}.

Definition createValidatedConfig (modelId : jsstring)
    (options : ConfigOptions) (isRealThinkingEnabled includeReasoning : bool)
  : Obj :=
  let generationConfig0 : Obj := [(lit "temperature", DEFAULT_TEMPERATURE)] in
  let generationConfig1 :=
    match generationConfig options with
    | Some given => Object_assign generationConfig0 given
    | None => generationConfig0
    end in
  if isThinkingModel modelId then
    let requestedBudget :=
      match thinkingBudget options with
      | Some b => b
      | None => DEFAULT_THINKING_BUDGET
      end in
    let validatedBudget := validateThinkingBudget modelId requestedBudget in
    if isRealThinkingEnabled && includeReasoning then
      set_property (lit "thinkingConfig")
                   (ThinkingConfig validatedBudget true) generationConfig1
    else
      set_property (lit "thinkingConfig")
                   (ThinkingConfig
                      (validateThinkingBudget modelId DEFAULT_THINKING_BUDGET)
                      false)
                   generationConfig1
  else generationConfig1.

End Config.

Arguments DEFAULT_TEMPERATURE {Value}.
Arguments Given {Value}.
Arguments ThinkingConfig {Value}.
Arguments set_property {Value}.
Arguments Object_assign {Value}.
Arguments mkConfigOptions {Value}.
Arguments thinkingBudget {Value}.
Arguments generationConfig {Value}.
Arguments createValidatedConfig {Value}.

End GenerationConfigValidator.

(** ** API key middlewares ([middlewares/auth.ts]) *)
Module ApiKeyAuth.

(** [.] of a regular expression without the [s] flag matches every code
    unit but the line terminators. *)
Definition isLineTerminator (c : N) : bool :=
  ((c =? 10) || (c =? 13) || (c =? 8232) || (c =? 8233))%N.

(** [(.+)$] at the position where [s] starts: the capture. *)
Definition rest_of_line (s : jsstring) : option jsstring :=
  if truthy s && forallb (fun c => negb (isLineTerminator c)) s
  then Some s else None.

(** [\s*(.+)$]: the greedy star takes every white space it can and gives
    them back one at a time while the rest does not match. *)
Fixpoint spaces_then_key (s : jsstring) : option jsstring :=
  match s with
  | [] => None
  | c :: s' =>
      if isWhiteSpace c then
        match spaces_then_key s' with
        | Some key => Some key
        | None => rest_of_line s
        end
      else rest_of_line s
  end.

(** [authHeader.match(/^Bearer\s+(.+)$/)], the first capture group. *)
Definition match_bearer (authHeader : jsstring) : option jsstring :=
  if startsWith authHeader (lit "Bearer") then
    match skipn 6 authHeader with
    | c :: s => if isWhiteSpace c then spaces_then_key s else None
    | [] => None
    end
  else None.

(** What the middleware reads of the request. *)
Record Request := mkRequest {
  path : jsstring;
  Authorization : option jsstring;
  x_goog_api_key : option jsstring;
  query_key : option jsstring
}.

(** [await next()], or the 401 response with its error code. *)
Inductive Outcome :=
| Next
| Unauthorized (code : jsstring).

Definition isPublicEndpoint (c : Request) : bool :=
  existsb (fun endpoint => JS.eqb (path c) endpoint) [lit "/"; lit "/health"].

(** [providedKey === c.env.OPENAI_API_KEY] for the key of a header or of
    the query, when there is one. *)
Definition is_key (OPENAI_API_KEY : jsstring) (provided : option jsstring)
  : bool :=
  match provided with
  | Some k => JS.eqb k OPENAI_API_KEY
  | None => false
  end.

Definition bearer_is_key (OPENAI_API_KEY : jsstring)
    (authHeader : option jsstring) : bool :=
  match authHeader with
  | Some h =>
      truthy h
      && match match_bearer h with
         | Some providedKey => JS.eqb providedKey OPENAI_API_KEY
         | None => false
         end
  | None => false
  end.

Definition openAIApiKeyAuth (OPENAI_API_KEY : option jsstring) (c : Request)
  : Outcome :=
  if isPublicEndpoint c then Next
  else
    match OPENAI_API_KEY with
    | Some key =>
        if truthy key then
          let authHeader := Authorization c in
          let googApiKey := x_goog_api_key c in
          if negb (truthy_opt authHeader) && negb (truthy_opt googApiKey)
          then Unauthorized (lit "missing_authorization")
          else
            let isAuthenticated := bearer_is_key key authHeader in
            let isAuthenticated :=
              if negb isAuthenticated && truthy_opt googApiKey
              then is_key key googApiKey else isAuthenticated in
            if negb isAuthenticated
            then Unauthorized (lit "invalid_api_key")
            else Next
        else Next
    | None => Next
    end.

Definition geminiApiKeyAuth (OPENAI_API_KEY : option jsstring) (c : Request)
  : Outcome :=
  if isPublicEndpoint c then Next
  else
    match OPENAI_API_KEY with
    | Some key =>
        if truthy key then
          let authHeader := Authorization c in
          let googApiKey := x_goog_api_key c in
          let urlKey := query_key c in
          if negb (truthy_opt authHeader) && negb (truthy_opt googApiKey)
             && negb (truthy_opt urlKey)
          then Unauthorized (lit "missing_authorization")
          else
            let isAuthenticated := bearer_is_key key authHeader in
            let isAuthenticated :=
              if negb isAuthenticated && truthy_opt googApiKey
              then is_key key googApiKey else isAuthenticated in
            let isAuthenticated :=
              if negb isAuthenticated && truthy_opt urlKey
              then is_key key urlKey else isAuthenticated in
            if negb isAuthenticated
            then Unauthorized (lit "invalid_api_key")
            else Next
        else Next
    | None => Next
    end.

End ApiKeyAuth.

(** ** Images: [validateImageUrl] and [messageToGeminiFormat] *)
Module ImageUtils.

Import Chat.

(** What the platform decides: whether [atob] accepts a text, whether
    [new URL] accepts one, and [String.prototype.toLowerCase]. *)
Class Platform := {
  atob_accepts : jsstring -> bool;
  URL_accepts : jsstring -> bool;
  toLowerCase : jsstring -> jsstring
}.

Record ImageValidationResult := mkValidation {
  isValid : bool;
  error : option jsstring;
  mimeType : option jsstring;
  format : option jsstring
}.

Definition invalid (e : jsstring) : ImageValidationResult :=
  mkValidation false (Some e) None None.

Definition supportedFormats : list jsstring :=
  [lit "jpeg"; lit "jpg"; lit "png"; lit "gif"; lit "webp"].

(** [array[i]], [None] for [undefined]. *)
Definition at_index (l : list jsstring) (i : nat) : option jsstring :=
  nth_error l i.

(** [part.split(":")[1].split(";")[0]]; [None] when a [TypeError] is thrown,
    [split] being called on [undefined]. *)
Definition media_type (part : jsstring) : option jsstring :=
  match at_index (split 58 part) 1 with
  | Some afterColon => Some (hd [] (split 59 afterColon))
  | None => None
  end.

(** [validateImageUrl]; [None] when a [TypeError] is thrown, by a method
    called on [undefined]. *)
Definition validateImageUrl {platform : Platform} (imageUrl : jsstring)
  : option ImageValidationResult :=
  if negb (truthy imageUrl) then Some (invalid (lit "Image URL is required"))
  else if startsWith imageUrl (lit "data:image/") then
    let mimeTypePart := hd [] (split 44 imageUrl) in
    let base64Part := at_index (split 44 imageUrl) 1 in
    if negb (truthy_opt base64Part)
    then Some (invalid (lit "Invalid base64 image format"))
    else
      match media_type mimeTypePart with
      | None => None
      | Some mimeType =>
          match at_index (split 47 mimeType) 1 with
          | None => None
          | Some format =>
              if negb (existsb (JS.eqb (toLowerCase format)) supportedFormats)
              then
                Some (invalid
                        (lit "Unsupported image format: " ++ format
                         ++ lit ". Supported formats: "
                         ++ join (lit ", ") supportedFormats))
              else if atob_accepts
                        (firstn 100 (match base64Part with
                                     | Some b => b
                                     | None => []
                                     end))
              then Some (mkValidation true None (Some mimeType) (Some format))
              else Some (invalid (lit "Invalid base64 encoding"))
          end
      end
  else if startsWith imageUrl (lit "http://")
          || startsWith imageUrl (lit "https://") then
    if URL_accepts imageUrl
    then Some (mkValidation true None (Some (lit "image/jpeg")) None)
    else Some (invalid (lit "Invalid URL format"))
  else
    Some (invalid
            (lit "Image URL must be a base64 data URL or HTTP/HTTPS URL")).

(** [GeminiPart] as [messageToGeminiFormat] builds it. *)
Inductive FormattedPart :=
| TextPart (text : option jsstring)
| InlineData (mimeType : jsstring) (data : option jsstring)
| FileData (mimeType : jsstring) (fileUri : jsstring).

Record GeminiFormattedMessage := mkFormatted {
  formatted_role : jsstring;
  formatted_parts : list FormattedPart
}.

(** What a call throws: a [TypeError], or the error of an invalid image. *)
Inductive Exception :=
| TypeError
| InvalidImage (e : Error).

(** The body of [for (const content of msg.content)]: the parts pushed. *)
Definition format_item {platform : Platform} (item : MessageContent)
  : Exception + list FormattedPart :=
  if JS.eqb (item_type item) (lit "text") then inr [TextPart (item_text item)]
  else if JS.eqb (item_type item) (lit "image_url") then
    match image_url item with
    | None => inr []
    | Some image =>
        let imageUrl := url image in
        match validateImageUrl imageUrl with
        | None => inl TypeError
        | Some validation =>
            if negb (isValid validation) then
              inl (InvalidImage
                     (mkError (lit "Invalid image: "
                               ++ match error validation with
                                  | Some e => e
                                  | None => lit "undefined"
                                  end)))
            else if startsWith imageUrl (lit "data:") then
              let mimeType := hd [] (split 44 imageUrl) in
              let base64Data := at_index (split 44 imageUrl) 1 in
              match media_type mimeType with
              | None => inl TypeError
              | Some mediaType => inr [InlineData mediaType base64Data]
              end
            else
              inr [FileData
                     (match mimeType validation with
                      | Some m => if truthy m then m else lit "image/jpeg"
                      | None => lit "image/jpeg"
                      end)
                     imageUrl]
        end
    end
  else inr [].

Fixpoint format_items {platform : Platform} (items : list MessageContent)
  : Exception + list FormattedPart :=
  match items with
  | [] => inr []
  | item :: items' =>
      match format_item item with
      | inl e => inl e
      | inr parts =>
          match format_items items' with
          | inl e => inl e
          | inr parts' => inr (parts ++ parts')
          end
      end
  end.

Definition messageToGeminiFormat {platform : Platform} (msg : ChatMessage)
  : Exception + GeminiFormattedMessage :=
  let role :=
    if JS.eqb (role msg) (lit "assistant") then lit "model" else lit "user" in
  match content msg with
  | Str s => inr (mkFormatted role [TextPart (Some s)])
  | Items items =>
      match format_items items with
      | inl e => inl e
      | inr parts => inr (mkFormatted role parts)
      end
  end.

End ImageUtils.

(** ** Streaming branch of the chat completions route ([routes/openai.ts]) *)

(** [{ type: "text", data: `Error: ${errorMessage}` }] *)
Definition error_chunk (e : Error) : StreamChunk :=
  mkChunk text (DString (lit "Error: " ++ message e)).

(** What the route writes to the transformer before it closes the writer:
    every chunk of the stream and, when the stream throws, the error
    chunk. *)
Definition written_chunks {authManager : AuthManager}
    {requests : RequestModel} (run : Run) : list StreamChunk :=
  map chunk_of (fragments run)
  ++ match thrown run with
     | Some e => [error_chunk e]
     | None => []
     end.

(** ** Vocabulary of the properties *)

(** *** Frames of the upstream *)

(** An SSE event as the upstream frames it: one data line and a blank line. *)
Definition sse_frame (payload : jsstring) : jsstring :=
  lit "data: " ++ payload ++ [LF; LF].

Definition sse_frames (payloads : list jsstring) : jsstring :=
  List.concat (map sse_frame payloads).

(** A text of one line: no line feed in it. *)
Definition one_line (s : jsstring) : Prop := ~ In LF s.

(** What a complete frame contributes to the event sequence. *)
Definition frame_events {json : JsonParser} (payload : jsstring)
  : list GeminiResponse :=
  if truthy payload then try_yield payload else [].

(** A parser state with some events yielded earlier. *)
Definition yielded_after (evs : list GeminiResponse) (st : ParserState)
  : ParserState :=
  mkParser (buffer st) (objectBuffer st) (evs ++ yielded st).

(** Nothing is pending after a text: it ends with a line feed (or is empty)
    and its last event is complete. *)
Definition nothing_pending {json : JsonParser} (text : jsstring) : Prop :=
  buffer (on_read initial text) = []
  /\ objectBuffer (on_read initial text) = [].

(** *** Delimiters of the thinking channel *)

Definition is_open (f : Fragment) : bool :=
  match f with OpenThinking => true | _ => false end.

Definition is_close (f : Fragment) : bool :=
  match f with CloseThinking => true | _ => false end.

Definition count (p : Fragment -> bool) (fs : list Fragment) : nat :=
  List.length (filter p fs).

(** The number of opening and of closing delimiter fragments of a stream. *)
Definition opening_delimiters (fs : list Fragment) : nat := count is_open fs.
Definition closing_delimiters (fs : list Fragment) : nat := count is_close fs.

(** At most one delimiter of each kind, and no opening delimiter unless
    thinking is delivered as content. *)
Definition delimiters_bounded (realThinkingAsContent : bool)
    (fs : list Fragment) : Prop :=
  opening_delimiters fs <= 1
  /\ closing_delimiters fs <= 1
  /\ (realThinkingAsContent = false -> opening_delimiters fs = 0).

Definition b2n (b : bool) : nat := if b then 1 else 0.

(** The flags count the delimiters: each opening delimiter sets
    [hasStartedThinking], each closing delimiter sets [hasClosedThinking],
    nothing else changes them, and no opening delimiter is emitted unless
    thinking is delivered as content. *)
Definition accounted (realThinkingAsContent : bool) (st : ThinkingFlags)
    (r : ThinkingFlags * list Fragment) : Prop :=
  opening_delimiters (snd r) + b2n (hasStartedThinking st)
  = b2n (hasStartedThinking (fst r))
  /\ closing_delimiters (snd r) + b2n (hasClosedThinking st)
     = b2n (hasClosedThinking (fst r))
  /\ (realThinkingAsContent = false -> opening_delimiters (snd r) = 0).

(** The chunks that are, as objects, the opening delimiter. *)
Definition is_opening_chunk (c : StreamChunk) : bool :=
  match type c, data c with
  | thinking_content, DString s => JS.eqb s THINKING_OPEN
  | _, _ => false
  end.

(** A forwarded thinking text that spells the opening delimiter. *)
Definition spells_opening (f : Fragment) : bool :=
  match f with
  | ThinkingText s => JS.eqb s THINKING_OPEN
  | _ => false
  end.

(** A stream without its thinking delimiters. *)
Definition without_delimiters (fs : list Fragment) : list Fragment :=
  filter (fun f => negb (is_open f || is_close f)) fs.

(** The thought fragment of a text [s]: thinking-as-content or reasoning,
    by the delivery mode. *)
Definition thought_fragment (realThinkingAsContent : bool) (s : jsstring)
  : Fragment :=
  if realThinkingAsContent then ThinkingText s else RealThinking s.

(** A part whose text holds the opening legacy tag. *)
Definition has_think_tag (part : GeminiPart) : bool :=
  match part_text part with
  | Some t => includes t THINK_OPEN
  | None => false
  end.

(** The part is handled with the section closed before its text: always when
    no synthetic section is open, and for untagged text otherwise. *)
Definition closes_first (needsThinkingClose : bool) (part : GeminiPart)
  : Prop :=
  needsThinkingClose = false \/ has_think_tag part = false.

Definition event_closes_first (needsThinkingClose : bool)
    (jsonData : GeminiResponse) : Prop :=
  match candidate_parts jsonData with
  | Some ps => Forall (closes_first needsThinkingClose) ps
  | None => True
  end.

(** From a state of the flags, every text fragment that comes while a
    thinking section is open as content has a closing delimiter before it. *)
Definition text_follows_close (needsThinkingClose realThinkingAsContent : bool)
    (st : ThinkingFlags) (out : list Fragment) : Prop :=
  forall pre t post,
    out = pre ++ Text t :: post ->
    needsThinkingClose = true
    \/ (realThinkingAsContent = true
        /\ 1 <= b2n (hasStartedThinking st) + opening_delimiters pre) ->
    1 <= b2n (hasClosedThinking st) + closing_delimiters pre.

(** *** Switch notifications of the controller *)

Definition is_switch_notification (f : Fragment) : bool :=
  match f with SwitchNotification _ _ => true | _ => false end.

(** The number of switch notifications of a stream. *)
Definition switch_notifications (fs : list Fragment) : nat :=
  count is_switch_notification fs.

(** *** Non-streaming completion *)

Definition is_text_chunk (c : StreamChunk) : bool :=
  match type c with text => true | _ => false end.

Definition is_usage_chunk (c : StreamChunk) : bool :=
  match type c with usage => true | _ => false end.

Definition string_data (c : StreamChunk) : jsstring :=
  match data c with DString s => s | _ => [] end.

Definition usage_data (c : StreamChunk) : option UsageData :=
  match data c with DUsage u => Some u | _ => None end.

(** The concatenation, in order, of the data of the chunks of type [text]. *)
Definition text_content (chunks : list StreamChunk) : jsstring :=
  List.concat (map string_data (filter is_text_chunk chunks)).

(** The data of the last chunk of type [usage], if there is one. *)
Fixpoint last_usage (chunks : list StreamChunk) : option UsageData :=
  match chunks with
  | [] => None
  | c :: chunks' =>
      match last_usage chunks' with
      | Some u => Some u
      | None => if is_usage_chunk c then usage_data c else None
      end
  end.

Section Completion_vocabulary.

Context {decoder : TextDecoder} {json : JsonParser}
        {authManager : AuthManager} {requests : RequestModel}.

Variables (env : Env) (upstream : list Response) (client : Client)
          (modelId systemPrompt : jsstring) (messages : list ChatMessage)
          (options : option Options).

(** Every chunk the streaming pipeline produces for a request to
    [getCompletion]: those of the stream of the requested model and, when
    that stream throws a rate-limit error and the fallback applies, those of
    the stream of the fallback model. *)
Definition streamed_chunks : list StreamChunk :=
  let run :=
    streamContent env upstream client modelId systemPrompt messages options in
  map chunk_of (fragments run)
  ++ match thrown run with
     | Some error =>
         if isRateLimitError error then
           match getFallbackModel modelId with
           | Some fallbackModel =>
               if isEnabled env then
                 map chunk_of
                   (fragments
                      (streamContent env (upstream_after run)
                         (client_after run) fallbackModel systemPrompt
                         messages options))
               else []
           | None => []
           end
         else []
     | None => []
     end.

(** The completion as the specification words it: the content is the text of
    the streamed chunks, the usage that of the last usage chunk. *)
Definition completion_is_streamed_text : Prop :=
  forall c : Completion,
    returned (getCompletion env upstream client modelId systemPrompt messages
                            options) = inr c ->
    completion_content c = text_content streamed_chunks
    /\ completion_usage c = last_usage streamed_chunks.

End Completion_vocabulary.

(** *** Role announcement of the serializer *)

(** The delta of what was enqueued; the final chunk has the empty delta, and
    the [[DONE]] line has none. *)
Definition delta_of (e : StreamTransformer.Enqueued)
  : StreamTransformer.OpenAIDelta :=
  match e with
  | StreamTransformer.Data c => StreamTransformer.delta c
  | _ => StreamTransformer.mkDelta None None None
  end.

Definition role_of (e : StreamTransformer.Enqueued) : option jsstring :=
  StreamTransformer.delta_role (delta_of e).

Definition has_content (e : StreamTransformer.Enqueued) : bool :=
  match StreamTransformer.delta_content (delta_of e) with
  | Some _ => true
  | None => false
  end.

Definition has_reasoning (e : StreamTransformer.Enqueued) : bool :=
  match StreamTransformer.delta_reasoning (delta_of e) with
  | Some _ => true
  | None => false
  end.

(** A chunk with a text, thinking-as-content or reasoning delta. *)
Definition content_bearing (e : StreamTransformer.Enqueued) : bool :=
  has_content e || has_reasoning e.

Definition carries_role (e : StreamTransformer.Enqueued) : bool :=
  match role_of e with
  | Some _ => true
  | None => false
  end.

(** The role announcement as the specification words it: exactly one chunk
    carries it, and no content-bearing chunk comes before that chunk. *)
Definition role_on_first_content_bearing_chunk
    (out : list StreamTransformer.Enqueued) : Prop :=
  exists pre e post,
    out = pre ++ e :: post
    /\ role_of e = Some (lit "assistant")
    /\ forallb (fun x => negb (carries_role x)) (pre ++ post) = true
    /\ forallb (fun x => negb (content_bearing x)) pre = true.

(** *** Lines of the upstream *)

(** Consecutive [data: ] lines of one event, each ended by a line feed. *)
Definition data_lines (payloads : list jsstring) : jsstring :=
  List.concat (map (fun p => lit "data: " ++ p ++ [LF]) payloads).

(** *** Kinds of fragments *)

(** The fragments by the type of the chunk they are yielded as. *)
Definition is_text_fragment (f : Fragment) : bool :=
  match type (chunk_of f) with text => true | _ => false end.


Definition is_thinking_content (f : Fragment) : bool :=
  match type (chunk_of f) with thinking_content => true | _ => false end.

(** A stream without its closing delimiter. *)
Definition without_closing (fs : list Fragment) : list Fragment :=
  filter (fun f => negb (is_close f)) fs.

(** *** Requests sent to the upstream *)

Definition is_stream_request {requests : RequestModel} (a : Action) : bool :=
  match a with CallFetch _ _ => true | _ => false end.

(** The number of stream requests among the calls of a run: the [fetch]
    calls of [performStreamRequest]. *)
Definition stream_requests {requests : RequestModel} (acts : list Action)
  : nat :=
  List.length (filter is_stream_request acts).

Definition is_discovery {requests : RequestModel} (a : Action) : bool :=
  match a with CallLoadCodeAssist => true | _ => false end.

(** The number of calls of [callEndpoint("loadCodeAssist", ..)], each of
    which sends one or two requests of its own. *)
Definition discovery_calls {requests : RequestModel} (acts : list Action)
  : nat :=
  List.length (filter is_discovery acts).

(** The HTTP status codes: three decimal digits at most. *)
Definition status_codes : list N := map N.of_nat (seq 0 1000).

(** *** Content of the serializer *)

Definition content_of (e : StreamTransformer.Enqueued) : jsstring :=
  match StreamTransformer.delta_content (delta_of e) with
  | Some s => s
  | None => []
  end.

Definition reasoning_of (e : StreamTransformer.Enqueued) : jsstring :=
  match StreamTransformer.delta_reasoning (delta_of e) with
  | Some s => s
  | None => []
  end.

(** What a client reads when it joins the [content] deltas, and the
    [reasoning] deltas, of a response. *)
Definition streamed_content (out : list StreamTransformer.Enqueued)
  : jsstring :=
  List.concat (map content_of out).

Definition streamed_reasoning (out : list StreamTransformer.Enqueued)
  : jsstring :=
  List.concat (map reasoning_of out).

(** The chunks delivered as content: text and thinking-as-content. *)
Definition is_content_chunk (c : StreamChunk) : bool :=
  match type c with
  | text | thinking_content => true
  | _ => false
  end.

Definition content_text (chunks : list StreamChunk) : jsstring :=
  List.concat (map string_data (filter is_content_chunk chunks)).

(** The reasoning a chunk carries: the text of a [real_thinking] chunk, the
    sentence of a [reasoning] chunk. *)
Definition reasoning_data (c : StreamChunk) : jsstring :=
  match type c, data c with
  | real_thinking, DString s => s
  | reasoning, DReasoning r => reasoning_text r
  | _, _ => []
  end.

Definition reasoning_content (chunks : list StreamChunk) : jsstring :=
  List.concat (map reasoning_data chunks).

(** The envelope of a data chunk is that of the transformer. *)
Definition same_envelope (object_ chatID : jsstring) (creationTime : Z)
    (model_ : jsstring) (c : StreamTransformer.OpenAIChunk) : Prop :=
  StreamTransformer.id c = chatID
  /\ StreamTransformer.object c = object_
  /\ StreamTransformer.created c = creationTime
  /\ StreamTransformer.model c = model_.

(** *** Image parts *)

(** An image part as the upstream expects it: inline data of an image type
    that is not empty, or a file of an HTTP or HTTPS address. *)
Definition image_part_ok (part : ImageUtils.FormattedPart) : Prop :=
  match part with
  | ImageUtils.TextPart _ => True
  | ImageUtils.InlineData mimeType data =>
      startsWith mimeType (lit "image/") = true
      /\ exists d, data = Some d /\ d <> []
  | ImageUtils.FileData mimeType fileUri =>
      mimeType = lit "image/jpeg"
      /\ startsWith fileUri (lit "http://")
         || startsWith fileUri (lit "https://") = true
  end.

(** *** Thinking budgets *)

(** A number that is not zero and not below -1.  No comparison holds of
    [NaN], and none of these two of [Infinity]. *)
Definition neither_zero_nor_below_minus_one (budget : JSNumber) : Prop :=
  match budget with
  | NaN | Infinity => True
  | NegInfinity | NegZero => False
  | Finite q =>
      ~ QArith_base.Qeq q (QArith_base.inject_Z 0)
      /\ QArith_base.Qle (QArith_base.inject_Z (-1)) q
  end.

(** ** A small concrete platform, to run the model on examples *)
Module Demo.

(** A decoder of one code unit per byte. *)
#[export] Instance latin1 : TextDecoder := {|
  dstate := unit;
  dinit := tt;
  dstep := fun _ b => (tt, [Byte.to_N b]);
  dflush := fun _ => []
|}.

Definition text_event (t : jsstring) (thought : option bool) : GeminiResponse :=
  mkGeminiResponse
    (Some (mkResponseBody
             (Some [mkCandidate (Some (mkContent (Some [mkPart (Some t) thought])))])
             None)).

Definition usage_event (i o : Z) : GeminiResponse :=
  mkGeminiResponse
    (Some (mkResponseBody None (Some (mkUsageMetadata (Some i) (Some o))))).

(** A stand-in for [JSON.parse] on a toy syntax: [t..] is an event with one
    text part, [h..] one with a part marked as thought, [u] one with usage
    metadata; everything else throws. *)
#[export] Instance toy_json : JsonParser := {|
  JSON_parse := fun s =>
    match s with
    | 116%N :: t => Some (text_event t None)
    | 104%N :: t => Some (text_event t (Some true))
    | [117%N] => Some (usage_event 3 4)
    | _ => None
    end
|}.

(** An [AuthManager] whose state counts the credentials issued so far. *)
#[export] Instance counting_auth : AuthManager := {|
  AuthState := N;
  initializeAuth := fun n => inr (N.succ n);
  clearTokenCache := fun n => n;
  getAccessToken := fun n => lit "token-" ++ decimal n;
  loadCodeAssist := fun n => (Some (lit "project"), n)
|}.

#[export] Instance plain_requests : RequestModel := {|
  ChatMessage := jsstring;
  Options := bool;
  RequestPayload := list jsstring;
  includeReasoning := fun o => Some o;
  buildPayload := fun _ _ messages _ => inr messages;
  thinkingChunks := fun _ => [lit "Let me think"];
  reasoningTexts := fun _ => [lit "Let me think"]
|}.

Definition bytes (s : string) : list Byte.byte := list_byte_of_string s.

Definition NL : list Byte.byte := [Byte.x0a].

End Demo.

(** * Properties *)

(** ** Strings *)

Lemma split_not_nil (sep : N) (s : jsstring) : split sep s <> [].
Proof.
  induction s as [|x s IH]; simpl; [discriminate|].
  destruct (x =? sep)%N; [discriminate|].
  destruct (split sep s); [contradiction|discriminate].
Qed.

Lemma split_cons_other (sep x : N) (s : jsstring) :
  (x =? sep)%N = false ->
  split sep (x :: s)
  = (x :: hd [] (split sep s)) :: tl (split sep s).
Proof.
  intros Hx. simpl. rewrite Hx.
  pose proof (split_not_nil sep s) as Hne.
  destruct (split sep s); [contradiction|reflexivity].
Qed.

Lemma removelast_cons_ne {A : Type} (x : A) (l : list A) :
  l <> [] -> removelast (x :: l) = x :: removelast l.
Proof. destruct l; [contradiction|reflexivity]. Qed.

Lemma last_cons_ne {A : Type} (x d : A) (l : list A) :
  l <> [] -> last (x :: l) d = last l d.
Proof. destruct l; [contradiction|reflexivity]. Qed.

Lemma last_app_ne {A : Type} (l l' : list A) (d : A) :
  l' <> [] -> last (l ++ l') d = last l' d.
Proof.
  intros Hne. induction l as [|x l IH]; [reflexivity|].
  simpl app. rewrite last_cons_ne; [exact IH|].
  destruct l; [exact Hne|discriminate].
Qed.

(** Splitting a concatenation: the unfinished last line of the first part is
    completed by the second part. *)
Lemma split_app (sep : N) (a b : jsstring) :
  split sep (a ++ b)
  = removelast (split sep a) ++ split sep (last (split sep a) [] ++ b).
Proof.
  induction a as [|x a IH]; [reflexivity|].
  pose proof (split_not_nil sep a) as Hne.
  change ((x :: a) ++ b) with (x :: (a ++ b)).
  destruct (x =? sep)%N eqn:Hx.
  - simpl. rewrite Hx.
    rewrite last_cons_ne by exact Hne.
    destruct (split sep a) as [|l ls] eqn:Hs; [contradiction|].
    rewrite IH. reflexivity.
  - rewrite (split_cons_other _ _ (a ++ b) Hx), (split_cons_other _ _ a Hx), IH.
    destruct (split sep a) as [|l ls] eqn:Hs; [contradiction|].
    destruct ls as [|l' ls'].
    + cbn [removelast last hd tl app].
      rewrite (split_cons_other _ _ (l ++ b) Hx). reflexivity.
    + reflexivity.
Qed.

Lemma split_one_line (l rest : jsstring) :
  one_line l -> split LF (l ++ LF :: rest) = l :: split LF rest.
Proof.
  induction l as [|x l IH]; intros Hl; [reflexivity|].
  assert (Hx : (x =? LF)%N = false).
  { apply N.eqb_neq. intros ->. apply Hl. left. reflexivity. }
  change ((x :: l) ++ LF :: rest) with (x :: (l ++ LF :: rest)).
  rewrite split_cons_other by exact Hx.
  rewrite IH; [reflexivity|].
  intros Hin. apply Hl. right. exact Hin.
Qed.

Lemma trimStart_app_keeps (s : jsstring) (c : N) :
  isWhiteSpace c = false -> truthy (trimStart (s ++ [c])) = true.
Proof.
  intros Hc. induction s as [|x s IH]; simpl.
  - rewrite Hc. reflexivity.
  - destruct (isWhiteSpace x); [exact IH|reflexivity].
Qed.

(** A text that starts with a character that is not white space does not
    trim to the empty string. *)
Lemma trim_truthy (c : N) (s : jsstring) :
  isWhiteSpace c = false -> truthy (trim (c :: s)) = true.
Proof.
  intros Hc. unfold trim, trimEnd. simpl trimStart at 2. rewrite Hc.
  simpl rev at 2.
  destruct (trimStart (rev s ++ [c])) as [|y t] eqn:Ht.
  - pose proof (trimStart_app_keeps (rev s) c Hc) as H.
    rewrite Ht in H. discriminate.
  - simpl. destruct (rev t); reflexivity.
Qed.

(** ** The legacy tag pair *)

Lemma startsWith_app (p s : jsstring) : startsWith (p ++ s) p = true.
Proof.
  induction p as [|c p IH]; [reflexivity|].
  cbn. rewrite N.eqb_refl. exact IH.
Qed.

Lemma skipn_length_app (p s : jsstring) : skipn (List.length p) (p ++ s) = s.
Proof. induction p as [|c p IH]; [reflexivity|exact IH]. Qed.

(** A pattern cannot start in [x] and run over a code unit that it does not
    contain. *)
Lemma startsWith_before (c : N) (p : jsstring) :
  ~ In c p ->
  forall x y, startsWith (x ++ c :: y) p = true -> startsWith x p = true.
Proof.
  induction p as [|d p IH]; intros Hc x y H; [reflexivity|].
  destruct x as [|a x].
  - cbn in H. apply andb_prop in H. destruct H as [H _].
    apply N.eqb_eq in H. exfalso. apply Hc. left. symmetry. exact H.
  - cbn in H |- *. apply andb_prop in H. destruct H as [Ha H].
    rewrite Ha. cbn.
    apply (IH (fun Hin => Hc (or_intror Hin)) x y H).
Qed.

(** The lazy group stops at the first closing tag: when the pattern [close]
    starts with a code unit that does not occur again in it, and [a] does not
    contain [close], the capture in [a ++ close ++ b] is [a]. *)
Lemma lazy_until_first (c : N) (p : jsstring) (a b : jsstring) :
  ~ In c p -> includes a (c :: p) = false ->
  lazy_until (c :: p) (a ++ (c :: p) ++ b) = Some (a, b).
Proof.
  intros Hc. induction a as [|x a IH]; intros Hinc.
  - cbn [app lazy_until].
    change (c :: p ++ b) with ((c :: p) ++ b).
    rewrite (startsWith_app (c :: p) b), (skipn_length_app (c :: p) b).
    reflexivity.
  - cbn [includes] in Hinc. apply orb_false_elim in Hinc.
    destruct Hinc as [Hhere Hrest].
    change ((x :: a) ++ (c :: p) ++ b) with (x :: (a ++ (c :: p) ++ b)).
    cbn [lazy_until].
    assert (Hno : startsWith (x :: a ++ (c :: p) ++ b) (c :: p) = false).
    { destruct (startsWith (x :: a ++ (c :: p) ++ b) (c :: p)) eqn:E;
        [|reflexivity].
      cbn in E. apply andb_prop in E. destruct E as [Ex E].
      change (a ++ c :: p ++ b) with (a ++ c :: (p ++ b)) in E.
      apply (startsWith_before c p Hc) in E.
      cbn in Hhere. rewrite Ex, E in Hhere. discriminate. }
    rewrite Hno, (IH Hrest). reflexivity.
Qed.

Lemma replace_scan_skip (open close x y : jsstring) :
  replace_scan open close (List.length x) (x ++ y)
  = replace_scan open close 0 y.
Proof. induction x as [|c x IH]; [reflexivity|exact IH]. Qed.

Lemma regex_exec_none_here (open close s : jsstring) :
  regex_exec open close s = None -> match_here open close s = None.
Proof.
  destruct s; cbn [regex_exec];
    destruct (match_here open close _) as [[? ?]|]; congruence.
Qed.

(** Without a match, the replacement leaves the text as it is. *)
Lemma replace_scan_no_match (open close s : jsstring) :
  regex_exec open close s = None -> replace_scan open close 0 s = s.
Proof.
  induction s as [|c s IH]; intros Hnone; [reflexivity|].
  cbn [replace_scan]. rewrite (regex_exec_none_here _ _ _ Hnone).
  f_equal. apply IH.
  cbn [regex_exec] in Hnone.
  destruct (match_here open close (c :: s)) as [[? ?]|]; [discriminate|].
  destruct (regex_exec open close s) as [[[? ?] ?]|];
    [discriminate|reflexivity].
Qed.

Lemma match_think_none (s : jsstring) :
  match_think s = None -> regex_exec THINK_OPEN THINK_CLOSE s = None.
Proof.
  unfold match_think.
  destruct (regex_exec THINK_OPEN THINK_CLOSE s) as [[[? ?] ?]|];
    [discriminate|reflexivity].
Qed.

Section TagPair.

Variables a b : jsstring.
Hypothesis a_has_no_closing_tag : includes a THINK_CLOSE = false.

Lemma tag_pair_here :
  match_here THINK_OPEN THINK_CLOSE (THINK_OPEN ++ a ++ THINK_CLOSE ++ b)
  = Some (a, b).
Proof.
  unfold match_here. rewrite startsWith_app, skipn_length_app.
  apply (lazy_until_first 60 (lit "/think>")).
  - intros Hin. vm_compute in Hin.
    repeat (destruct Hin as [Hin|Hin]; [discriminate Hin|]). exact Hin.
  - exact a_has_no_closing_tag.
Qed.

Lemma match_think_tag_pair :
  match_think (THINK_OPEN ++ a ++ THINK_CLOSE ++ b) = Some a.
Proof.
  unfold match_think.
  change (THINK_OPEN ++ a ++ THINK_CLOSE ++ b)
    with (60%N :: (lit "think>" ++ a ++ THINK_CLOSE ++ b)).
  cbn [regex_exec].
  change (60%N :: (lit "think>" ++ a ++ THINK_CLOSE ++ b))
    with (THINK_OPEN ++ a ++ THINK_CLOSE ++ b).
  rewrite tag_pair_here. reflexivity.
Qed.

Lemma strip_think_tag_pair :
  strip_think (THINK_OPEN ++ a ++ THINK_CLOSE ++ b) = strip_think b.
Proof.
  unfold strip_think.
  change (THINK_OPEN ++ a ++ THINK_CLOSE ++ b)
    with (60%N :: (lit "think>" ++ a ++ THINK_CLOSE ++ b)).
  cbn [replace_scan].
  change (60%N :: (lit "think>" ++ a ++ THINK_CLOSE ++ b))
    with (THINK_OPEN ++ a ++ THINK_CLOSE ++ b).
  rewrite tag_pair_here.
  replace (List.length THINK_OPEN + List.length a + List.length THINK_CLOSE
           - 1)
    with (List.length (lit "think>" ++ a ++ THINK_CLOSE))
    by (rewrite !length_app; cbn; lia).
  replace (lit "think>" ++ a ++ THINK_CLOSE ++ b)
    with ((lit "think>" ++ a ++ THINK_CLOSE) ++ b)
    by (rewrite <- !app_assoc; reflexivity).
  apply replace_scan_skip.
Qed.

Lemma includes_tag_pair :
  includes (THINK_OPEN ++ a ++ THINK_CLOSE ++ b) THINK_OPEN = true.
Proof.
  change (THINK_OPEN ++ a ++ THINK_CLOSE ++ b)
    with (60%N :: (lit "think>" ++ a ++ THINK_CLOSE ++ b)).
  cbn [includes].
  change (60%N :: (lit "think>" ++ a ++ THINK_CLOSE ++ b))
    with (THINK_OPEN ++ a ++ THINK_CLOSE ++ b).
  rewrite startsWith_app. reflexivity.
Qed.

End TagPair.

(** ** The frame reassembler *)
Section SSE_properties.

Context {decoder : TextDecoder} {json : JsonParser}.

Lemma handle_line_buffer (st : ParserState) (line : jsstring) :
  buffer (handle_line st line) = buffer st.
Proof.
  unfold handle_line.
  destruct (negb (truthy (trim line))).
  - destruct (truthy (objectBuffer st)); reflexivity.
  - destruct (startsWith line (lit "data: ")); reflexivity.
Qed.

Lemma handle_line_set_buffer (b : jsstring) (st : ParserState)
      (line : jsstring) :
  handle_line (set_buffer b st) line = set_buffer b (handle_line st line).
Proof.
  unfold handle_line, set_buffer. cbn [buffer objectBuffer yielded].
  destruct (negb (truthy (trim line))).
  - destruct (truthy (objectBuffer st)); reflexivity.
  - destruct (startsWith line (lit "data: ")); reflexivity.
Qed.

Lemma handle_lines_set_buffer (b : jsstring) (lines : list jsstring) :
  forall st,
    fold_left handle_line lines (set_buffer b st)
    = set_buffer b (fold_left handle_line lines st).
Proof.
  induction lines as [|l lines IH]; intros st; [reflexivity|].
  simpl. rewrite handle_line_set_buffer. apply IH.
Qed.

Lemma set_buffer_twice (b b' : jsstring) (st : ParserState) :
  set_buffer b (set_buffer b' st) = set_buffer b st.
Proof. reflexivity. Qed.

Lemma buffer_set_buffer (b : jsstring) (st : ParserState) :
  buffer (set_buffer b st) = b.
Proof. reflexivity. Qed.

Lemma handle_lines_buffer (lines : list jsstring) :
  forall st, buffer (fold_left handle_line lines st) = buffer st.
Proof.
  induction lines as [|l lines IH]; intros st; [reflexivity|].
  simpl. rewrite IH. apply handle_line_buffer.
Qed.

Lemma on_read_buffer (st : ParserState) (v : jsstring) :
  buffer (on_read st v) = last (split LF (buffer st ++ v)) [].
Proof. unfold on_read. rewrite handle_lines_buffer. reflexivity. Qed.

(** Two reads in a row leave the parser where one read of their
    concatenation leaves it. *)
Lemma on_read_app (st : ParserState) (v1 v2 : jsstring) :
  on_read (on_read st v1) v2 = on_read st (v1 ++ v2).
Proof.
  unfold on_read at 1 3. rewrite on_read_buffer.
  rewrite app_assoc, (split_app LF (buffer st ++ v1) v2).
  set (L1 := split LF (buffer st ++ v1)).
  set (L2 := split LF (last L1 [] ++ v2)).
  assert (HL2 : L2 <> []) by apply split_not_nil.
  rewrite removelast_app by exact HL2.
  rewrite last_app_ne by exact HL2.
  rewrite fold_left_app.
  unfold on_read. fold L1.
  rewrite !handle_lines_set_buffer. reflexivity.
Qed.

Lemma on_read_nil : on_read initial [] = initial.
Proof. reflexivity. Qed.

Lemma fold_on_read (values : list jsstring) :
  forall st v,
    fold_left on_read values (on_read st v)
    = on_read st (v ++ List.concat values).
Proof.
  induction values as [|w values IH]; intros st v; simpl.
  - rewrite app_nil_r. reflexivity.
  - rewrite on_read_app, IH, app_assoc. reflexivity.
Qed.

Lemma read_all_concat (values : list jsstring) :
  read_all values = on_read initial (List.concat values).
Proof.
  unfold read_all. rewrite <- on_read_nil at 1.
  rewrite fold_on_read. reflexivity.
Qed.

(** The events depend on the text read, not on how the reads cut it. *)
Lemma parse_text_chunks_concat (values : list jsstring) :
  parse_text_chunks values = parse_text_chunks [List.concat values].
Proof.
  unfold parse_text_chunks. rewrite !read_all_concat.
  simpl. rewrite app_nil_r. reflexivity.
Qed.

Lemma concat_enqueue_nonempty (out : jsstring) :
  List.concat (enqueue_nonempty out) = out.
Proof. destruct out; [reflexivity|]. simpl. rewrite app_nil_r. reflexivity. Qed.

Lemma decode_chunk_app (a b : list Byte.byte) :
  forall st,
    decode_chunk st (a ++ b)
    = (fst (decode_chunk (fst (decode_chunk st a)) b),
       snd (decode_chunk st a)
       ++ snd (decode_chunk (fst (decode_chunk st a)) b)).
Proof.
  induction a as [|x a IH]; intros st; simpl.
  - destruct (decode_chunk st b). reflexivity.
  - destruct (dstep st x) as [st1 o1]. rewrite IH.
    destruct (decode_chunk st1 a) as [st2 o2]. simpl.
    rewrite app_assoc. reflexivity.
Qed.

(** The decoder carries its state across byte chunks, so the text it
    delivers is the decoding of all the bytes. *)
Lemma decoded_text_from (stream : list (list Byte.byte)) :
  forall st,
    List.concat (TextDecoderStream st stream)
    = snd (decode_chunk st (List.concat stream))
      ++ dflush (fst (decode_chunk st (List.concat stream))).
Proof.
  induction stream as [|chunk stream IH]; intros st.
  - simpl. apply concat_enqueue_nonempty.
  - simpl. rewrite decode_chunk_app.
    destruct (decode_chunk st chunk) as [st' out]. simpl.
    rewrite concat_app, concat_enqueue_nonempty, IH, app_assoc.
    reflexivity.
Qed.

Lemma decoded_text_concat (stream : list (list Byte.byte)) :
  decoded_text stream = decoded_text [List.concat stream].
Proof.
  unfold decoded_text. rewrite !decoded_text_from.
  simpl. rewrite app_nil_r. reflexivity.
Qed.

Lemma parseSSEStream_decoded_text (stream : list (list Byte.byte)) :
  parseSSEStream stream = parse_text_chunks [decoded_text stream].
Proof.
  unfold parseSSEStream. rewrite parse_text_chunks_concat. reflexivity.
Qed.

End SSE_properties.

Section Frames.

Context {decoder : TextDecoder} {json : JsonParser}.

Lemma on_read_line (st : ParserState) (l rest : jsstring) :
  buffer st = [] -> one_line l ->
  on_read st (l ++ LF :: rest) = on_read (handle_line st l) rest.
Proof.
  intros Hb Hl. unfold on_read.
  rewrite handle_line_buffer, Hb. simpl app at 1 3.
  rewrite split_one_line by exact Hl.
  pose proof (split_not_nil LF rest) as Hne.
  rewrite removelast_cons_ne, last_cons_ne by exact Hne.
  simpl fold_left. rewrite handle_line_set_buffer. reflexivity.
Qed.

Lemma data_line (st : ParserState) (payload : jsstring) :
  handle_line st (lit "data: " ++ payload)
  = mkParser (buffer st) (objectBuffer st ++ payload) (yielded st).
Proof.
  unfold handle_line.
  change (lit "data: " ++ payload) with (100%N :: (lit "ata: " ++ payload)).
  rewrite trim_truthy by reflexivity. reflexivity.
Qed.

Lemma blank_line (st : ParserState) :
  handle_line st []
  = if truthy (objectBuffer st)
    then mkParser (buffer st) [] (yielded st ++ try_yield (objectBuffer st))
    else st.
Proof. reflexivity. Qed.

Lemma one_line_data (payload : jsstring) :
  one_line payload -> one_line (lit "data: " ++ payload).
Proof.
  unfold one_line. intros Hp Hin. apply in_app_or in Hin.
  destruct Hin as [Hin|Hin]; [|exact (Hp Hin)].
  simpl in Hin. unfold LF in Hin.
  repeat (destruct Hin as [Hin|Hin]; [discriminate|]). exact Hin.
Qed.

(** A complete frame read by a parser with nothing pending. *)
Lemma on_read_frame (b : jsstring) (evs : list GeminiResponse)
      (payload rest : jsstring) :
  one_line payload ->
  on_read (mkParser [] [] evs) (sse_frame payload ++ rest)
  = on_read (mkParser [] [] (evs ++ frame_events payload)) rest.
Proof.
  intros Hp. unfold sse_frame.
  replace ((lit "data: " ++ payload ++ [LF; LF]) ++ rest)
    with ((lit "data: " ++ payload) ++ LF :: ([] ++ LF :: rest))
    by (rewrite <- !app_assoc; reflexivity).
  rewrite on_read_line; [|reflexivity|apply one_line_data; exact Hp].
  rewrite data_line. simpl app at 1.
  rewrite on_read_line; [|reflexivity|intros []].
  rewrite blank_line. unfold frame_events. simpl objectBuffer.
  destruct payload as [|c payload]; simpl truthy; cbv iota.
  - rewrite app_nil_r. reflexivity.
  - reflexivity.
Qed.

Lemma on_read_frames (payloads : list jsstring) :
  forall (evs : list GeminiResponse) (rest : jsstring),
    Forall one_line payloads ->
    on_read (mkParser [] [] evs) (sse_frames payloads ++ rest)
    = on_read (mkParser [] [] (evs ++ flat_map frame_events payloads)) rest.
Proof.
  induction payloads as [|p payloads IH]; intros evs rest Hall.
  - simpl. rewrite app_nil_r. reflexivity.
  - inversion Hall as [|? ? Hp Hps]; subst.
    change (sse_frames (p :: payloads))
      with (sse_frame p ++ sse_frames payloads).
    rewrite <- app_assoc.
    rewrite (on_read_frame [] evs p _ Hp).
    rewrite IH by exact Hps.
    simpl flat_map. rewrite app_assoc. reflexivity.
Qed.

(** The events of a text made of complete frames. *)
Lemma parse_frames (payloads : list jsstring) :
  Forall one_line payloads ->
  parse_text_chunks [sse_frames payloads] = flat_map frame_events payloads.
Proof.
  intros Hall. unfold parse_text_chunks, read_all. simpl fold_left.
  rewrite <- (app_nil_r (sse_frames payloads)).
  unfold initial. rewrite on_read_frames by exact Hall.
  unfold on_done, on_read. cbn. apply app_nil_r.
Qed.

Lemma handle_line_yielded_after (evs : list GeminiResponse)
      (st : ParserState) (line : jsstring) :
  handle_line (yielded_after evs st) line
  = yielded_after evs (handle_line st line).
Proof.
  unfold handle_line, yielded_after. cbn [buffer objectBuffer yielded].
  destruct (negb (truthy (trim line))).
  - destruct (truthy (objectBuffer st)); [|reflexivity].
    cbn [buffer objectBuffer yielded]. rewrite app_assoc. reflexivity.
  - destruct (startsWith line (lit "data: ")); reflexivity.
Qed.

Lemma handle_lines_yielded_after (evs : list GeminiResponse)
      (lines : list jsstring) :
  forall st,
    fold_left handle_line lines (yielded_after evs st)
    = yielded_after evs (fold_left handle_line lines st).
Proof.
  induction lines as [|l lines IH]; intros st; [reflexivity|].
  cbn [fold_left]. rewrite handle_line_yielded_after. apply IH.
Qed.

(** The events yielded earlier stay in front of those of a later read. *)
Lemma on_read_yielded_after (evs : list GeminiResponse) (st : ParserState)
      (value : jsstring) :
  on_read (yielded_after evs st) value = yielded_after evs (on_read st value).
Proof.
  unfold on_read.
  change (buffer (yielded_after evs st)) with (buffer st).
  change (set_buffer (last (split LF (buffer st ++ value)) [])
                     (yielded_after evs st))
    with (yielded_after evs
            (set_buffer (last (split LF (buffer st ++ value)) []) st)).
  apply handle_lines_yielded_after.
Qed.

Lemma on_done_yielded_after (evs : list GeminiResponse) (st : ParserState) :
  on_done (yielded_after evs st) = evs ++ on_done st.
Proof.
  unfold on_done, yielded_after. cbn [objectBuffer yielded].
  rewrite app_assoc. reflexivity.
Qed.

(** The events of a text that leaves nothing pending, followed by another
    text, are the events of the one and then of the other. *)
Lemma parse_text_app (text rest : jsstring) :
  nothing_pending text ->
  parse_text_chunks [text ++ rest]
  = parse_text_chunks [text] ++ parse_text_chunks [rest].
Proof.
  intros [Hb Hob]. unfold parse_text_chunks, read_all. cbn [fold_left].
  rewrite <- on_read_app.
  destruct (on_read initial text) as [b ob evs].
  cbn [buffer objectBuffer] in Hb, Hob. subst b ob.
  assert (E : mkParser [] [] evs = yielded_after evs initial).
  { unfold yielded_after, initial. cbn [buffer objectBuffer yielded].
    rewrite app_nil_r. reflexivity. }
  rewrite E at 1.
  rewrite on_read_yielded_after, on_done_yielded_after.
  unfold on_done at 2. cbn [yielded objectBuffer truthy].
  rewrite app_nil_r. reflexivity.
Qed.

Lemma frames_nothing_pending (payloads : list jsstring) :
  Forall one_line payloads -> nothing_pending (sse_frames payloads).
Proof.
  intros Hall. unfold nothing_pending.
  rewrite <- (app_nil_r (sse_frames payloads)).
  unfold initial. rewrite on_read_frames by exact Hall.
  split; reflexivity.
Qed.

End Frames.

Ltac one_line_solver :=
  repeat match goal with
         | |- Forall one_line _ => constructor
         | |- one_line _ =>
             let H := fresh in
             intros H; vm_compute in H;
             repeat (destruct H as [H|H]; [discriminate H|]); exact H
         end.

(** C7. For every byte stream and every way of cutting it into reads, also
    inside a JSON object or inside the [data: ] prefix, [parseSSEStream]
    yields the same sequence of parsed events as for the whole stream
    delivered in a single read. *)
Theorem reassembly_is_read_boundary_independent
        {decoder : TextDecoder} {json : JsonParser}
        (reads : list (list Byte.byte)) :
  parseSSEStream reads = parseSSEStream [List.concat reads].
Proof.
  rewrite !parseSSEStream_decoded_text, (decoded_text_concat reads).
  reflexivity.
Qed.

(** C8. When the text of the stream holds three frames in a row, the first
    and the last with a well-formed buffer and the one between them with
    malformed JSON, both well-formed events are yielded, in their order, the
    malformed one is dropped, and the text after them is still processed. *)
Theorem malformed_frame_is_skipped
        {decoder : TextDecoder} {json : JsonParser}
        (reads : list (list Byte.byte))
        (before after : jsstring) (good1 bad good2 : jsstring)
        (e1 e2 : GeminiResponse) :
  decoded_text reads = before ++ sse_frames [good1; bad; good2] ++ after ->
  nothing_pending before ->
  one_line good1 -> one_line bad -> one_line good2 ->
  good1 <> [] -> JSON_parse good1 = Some e1 ->
  JSON_parse bad = None ->
  good2 <> [] -> JSON_parse good2 = Some e2 ->
  parseSSEStream reads
  = parse_text_chunks [before] ++ [e1; e2] ++ parse_text_chunks [after].
Proof.
  intros Htext Hbefore Hl1 Hlb Hl2 Hne1 Hp1 Hbad Hne2 Hp2.
  assert (Hlines : Forall one_line [good1; bad; good2])
    by (repeat constructor; assumption).
  rewrite parseSSEStream_decoded_text, Htext.
  rewrite (parse_text_app _ _ Hbefore).
  rewrite (parse_text_app _ _ (frames_nothing_pending _ Hlines)).
  rewrite (parse_frames _ Hlines).
  f_equal. f_equal.
  cbn [flat_map app]. unfold frame_events, try_yield.
  rewrite Hp1, Hbad, Hp2.
  destruct good1; [contradiction|]. destruct good2; [contradiction|].
  destruct bad; reflexivity.
Qed.

Lemma malformed_frame_is_skipped_witness :
  parseSSEStream (decoder := Demo.latin1) (json := Demo.toy_json)
    [Demo.bytes "data: ta" ++ Demo.NL ++ Demo.NL ++ Demo.bytes "da";
     Demo.bytes "ta: {oops" ++ Demo.NL ++ Demo.NL ++ Demo.bytes "data: tb"
       ++ Demo.NL ++ Demo.NL ++ Demo.bytes "data: tc" ++ Demo.NL]
  = [Demo.text_event (lit "a") None; Demo.text_event (lit "b") None;
     Demo.text_event (lit "c") None].
Proof.
  apply (malformed_frame_is_skipped
           (decoder := Demo.latin1) (json := Demo.toy_json)
           [Demo.bytes "data: ta" ++ Demo.NL ++ Demo.NL ++ Demo.bytes "da";
            Demo.bytes "ta: {oops" ++ Demo.NL ++ Demo.NL
              ++ Demo.bytes "data: tb" ++ Demo.NL ++ Demo.NL
              ++ Demo.bytes "data: tc" ++ Demo.NL]
           [] (lit "data: tc" ++ [LF]) (lit "ta") (lit "{oops") (lit "tb")).
  - reflexivity.
  - split; reflexivity.
  - one_line_solver.
  - one_line_solver.
  - one_line_solver.
  - discriminate.
  - reflexivity.
  - reflexivity.
  - discriminate.
  - reflexivity.
Defined.

(** C9. When the text of the stream ends with a complete [data: ] line that
    no blank line follows, the event buffer accumulated up to and with that
    line, when it is not empty, is parsed at the end of the stream and
    yielded as a last event; in particular, when nothing was pending before
    that line, the event of the line is yielded after the events of the text
    before it. *)
Theorem trailing_event_is_yielded
        {decoder : TextDecoder} {json : JsonParser}
        (reads : list (list Byte.byte)) (pre payload : jsstring) :
  decoded_text reads = pre ++ lit "data: " ++ payload ++ [LF] ->
  buffer (on_read initial pre) = [] ->
  one_line payload ->
  (objectBuffer (on_read initial pre) ++ payload <> [] ->
   parseSSEStream reads
   = yielded (on_read initial pre)
     ++ try_yield (objectBuffer (on_read initial pre) ++ payload))
  /\ (forall e : GeminiResponse,
         objectBuffer (on_read initial pre) = [] ->
         payload <> [] -> JSON_parse payload = Some e ->
         parseSSEStream reads = parse_text_chunks [pre] ++ [e]).
Proof.
  intros Htext Hb Hline.
  assert (Hall : parseSSEStream reads
                 = on_done (mkParser [] (objectBuffer (on_read initial pre)
                                         ++ payload)
                                     (yielded (on_read initial pre)))).
  { rewrite parseSSEStream_decoded_text, Htext.
    unfold parse_text_chunks, read_all. cbn [fold_left].
    rewrite <- on_read_app.
    destruct (on_read initial pre) as [b ob evs].
    cbn [buffer objectBuffer yielded] in *. subst b.
    replace (lit "data: " ++ payload ++ [LF])
      with ((lit "data: " ++ payload) ++ LF :: [])
      by (rewrite <- app_assoc; reflexivity).
    rewrite on_read_line; [|reflexivity|apply one_line_data; exact Hline].
    rewrite data_line. reflexivity. }
  split.
  - intros Hne. rewrite Hall. unfold on_done. cbn [objectBuffer yielded].
    destruct (objectBuffer (on_read initial pre) ++ payload);
      [contradiction|reflexivity].
  - intros e Hob Hne Hparse. rewrite Hall, Hob.
    unfold parse_text_chunks, read_all, on_done.
    cbn [fold_left objectBuffer yielded app]. rewrite Hob.
    unfold try_yield. rewrite Hparse.
    destruct payload; [contradiction|].
    cbn [truthy]. rewrite app_nil_r. reflexivity.
Qed.

Lemma trailing_event_is_yielded_witness :
  parseSSEStream (decoder := Demo.latin1) (json := Demo.toy_json)
    [Demo.bytes "data: ta" ++ Demo.NL ++ Demo.NL ++ Demo.bytes "data";
     Demo.bytes ": tb" ++ Demo.NL]
  = [Demo.text_event (lit "a") None; Demo.text_event (lit "b") None].
Proof.
  apply (proj2 (trailing_event_is_yielded
                  (decoder := Demo.latin1) (json := Demo.toy_json)
                  [Demo.bytes "data: ta" ++ Demo.NL ++ Demo.NL
                     ++ Demo.bytes "data";
                   Demo.bytes ": tb" ++ Demo.NL]
                  (sse_frame (lit "ta")) (lit "tb")
                  eq_refl eq_refl ltac:(one_line_solver))).
  - reflexivity.
  - discriminate.
  - reflexivity.
Defined.

(** ** The thinking channel *)

Lemma count_app (p : Fragment -> bool) (a b : list Fragment) :
  count p (a ++ b) = count p a + count p b.
Proof. unfold count. rewrite filter_app, length_app. reflexivity. Qed.

(** Read as objects, the opening delimiters of a stream are its opening
    delimiter fragments and the thinking texts, forwarded as they came, that
    spell the delimiter themselves. *)
Lemma opening_chunks_by_value (fs : list Fragment) :
  List.length (filter is_opening_chunk (map chunk_of fs))
  = opening_delimiters fs + count spells_opening fs.
Proof.
  unfold opening_delimiters, count.
  induction fs as [|f fs IH]; [reflexivity|].
  cbn [map filter].
  destruct f as [| |s|s|s|o fb|r|u];
    cbn [chunk_of is_opening_chunk type data is_open spells_opening].
  - change (JS.eqb THINKING_OPEN THINKING_OPEN) with true.
    cbn [List.length]. rewrite IH. reflexivity.
  - change (JS.eqb THINKING_CLOSE THINKING_OPEN) with false. exact IH.
  - destruct (JS.eqb s THINKING_OPEN); cbn [List.length]; lia.
  - exact IH.
  - exact IH.
  - exact IH.
  - exact IH.
  - exact IH.
Qed.

Section ThinkingChannel_properties.

Variables needsThinkingClose realThinkingAsContent : bool.

Ltac split_conditions :=
  repeat match goal with
         | |- context [if ?b then _ else _] => destruct b eqn:?
         | |- context [match ?x with Some _ => _ | None => _ end] =>
             destruct x eqn:?
         end.

Lemma handle_part_accounted (st : ThinkingFlags) (part : GeminiPart) :
  accounted realThinkingAsContent st
            (handle_part needsThinkingClose realThinkingAsContent st part).
Proof.
  destruct st as [closed started], part as [t th].
  unfold accounted, handle_part, thought_part, tagged_part, plain_part,
    open_if_needed, close_if, opening_delimiters, closing_delimiters.
  cbn [part_text part_thought hasStartedThinking hasClosedThinking].
  destruct needsThinkingClose, realThinkingAsContent, closed, started;
    cbn [negb andb orb];
    split_conditions; cbn; repeat split; try congruence;
    exfalso; cbn in *; congruence.
Qed.

Lemma accounted_seq (st : ThinkingFlags)
      (r1 r2 : ThinkingFlags * list Fragment) :
  accounted realThinkingAsContent st r1 ->
  accounted realThinkingAsContent (fst r1) r2 ->
  accounted realThinkingAsContent st (fst r2, snd r1 ++ snd r2).
Proof.
  unfold accounted, opening_delimiters, closing_delimiters.
  intros (Ho1 & Hc1 & Hn1) (Ho2 & Hc2 & Hn2). cbn [fst snd].
  rewrite !count_app. repeat split; try lia.
  intros Hr. rewrite (Hn1 Hr), (Hn2 Hr). reflexivity.
Qed.

Lemma accounted_nil (st : ThinkingFlags) :
  accounted realThinkingAsContent st (st, []).
Proof. repeat split. Qed.

Lemma handle_parts_accounted (ps : list GeminiPart) :
  forall st,
    accounted realThinkingAsContent st
      (handle_parts needsThinkingClose realThinkingAsContent st ps).
Proof.
  induction ps as [|p ps IH]; intros st; [apply accounted_nil|].
  cbn [handle_parts].
  pose proof (handle_part_accounted st p) as H1.
  destruct (handle_part needsThinkingClose realThinkingAsContent st p)
    as [st1 o1].
  pose proof (IH st1) as H2.
  destruct (handle_parts needsThinkingClose realThinkingAsContent st1 ps)
    as [st2 o2].
  apply (accounted_seq st (st1, o1) (st2, o2) H1 H2).
Qed.

Lemma handle_event_accounted (st : ThinkingFlags) (ev : GeminiResponse) :
  accounted realThinkingAsContent st
    (handle_event needsThinkingClose realThinkingAsContent st ev).
Proof.
  unfold handle_event.
  assert (Hu : forall st', accounted realThinkingAsContent st'
                                     (st', usage_of ev)).
  { intros st'. unfold usage_of. split_conditions; repeat split. }
  destruct (candidate_parts ev) as [ps|].
  - pose proof (handle_parts_accounted ps st) as H1.
    destruct (handle_parts needsThinkingClose realThinkingAsContent st ps)
      as [st1 o1].
    apply (accounted_seq st (st1, o1) (st1, usage_of ev) H1 (Hu st1)).
  - apply (accounted_seq st (st, []) (st, usage_of ev)
                         (accounted_nil st) (Hu st)).
Qed.

Lemma handle_events_accounted (evs : list GeminiResponse) :
  forall st,
    accounted realThinkingAsContent st
      (handle_events needsThinkingClose realThinkingAsContent st evs).
Proof.
  induction evs as [|ev evs IH]; intros st; [apply accounted_nil|].
  cbn [handle_events].
  pose proof (handle_event_accounted st ev) as H1.
  destruct (handle_event needsThinkingClose realThinkingAsContent st ev)
    as [st1 o1].
  pose proof (IH st1) as H2.
  destruct (handle_events needsThinkingClose realThinkingAsContent st1 evs)
    as [st2 o2].
  apply (accounted_seq st (st1, o1) (st2, o2) H1 H2).
Qed.

(** One successful response: at most one delimiter of each kind, and no
    opening delimiter at all unless thinking is delivered as content. *)
Lemma stream_events_delimiters (evs : list GeminiResponse) :
  opening_delimiters
    (stream_events needsThinkingClose realThinkingAsContent evs) <= 1
  /\ closing_delimiters
       (stream_events needsThinkingClose realThinkingAsContent evs) <= 1
  /\ (realThinkingAsContent = false ->
      opening_delimiters
        (stream_events needsThinkingClose realThinkingAsContent evs) = 0).
Proof.
  unfold stream_events.
  destruct (handle_events_accounted evs flags0) as (Ho & Hc & Hn).
  destruct (handle_events needsThinkingClose realThinkingAsContent flags0 evs)
    as [st o]. cbn [fst snd] in *.
  destruct (hasStartedThinking st), (hasClosedThinking st);
    cbn [b2n] in *; repeat split; try lia; exact Hn.
Qed.

Lemma handle_part_no_notification (st : ThinkingFlags) (part : GeminiPart) :
  switch_notifications
    (snd (handle_part needsThinkingClose realThinkingAsContent st part)) = 0.
Proof.
  destruct st as [closed started], part as [t th].
  unfold handle_part, thought_part, tagged_part, plain_part,
    open_if_needed, close_if, switch_notifications.
  cbn [part_text part_thought hasStartedThinking hasClosedThinking].
  split_conditions; cbn [snd]; rewrite ?count_app; reflexivity.
Qed.

Lemma handle_parts_no_notification (ps : list GeminiPart) :
  forall st,
    switch_notifications
      (snd (handle_parts needsThinkingClose realThinkingAsContent st ps)) = 0.
Proof.
  induction ps as [|p ps IH]; intros st; [reflexivity|].
  cbn [handle_parts].
  pose proof (handle_part_no_notification st p) as H1.
  destruct (handle_part needsThinkingClose realThinkingAsContent st p)
    as [st1 o1].
  pose proof (IH st1) as H2.
  destruct (handle_parts needsThinkingClose realThinkingAsContent st1 ps)
    as [st2 o2].
  cbn [snd] in *. unfold switch_notifications in *.
  rewrite count_app, H1, H2. reflexivity.
Qed.

Lemma handle_events_no_notification (evs : list GeminiResponse) :
  forall st,
    switch_notifications
      (snd (handle_events needsThinkingClose realThinkingAsContent st evs))
    = 0.
Proof.
  induction evs as [|ev evs IH]; intros st; [reflexivity|].
  cbn [handle_events]. unfold handle_event.
  assert (H1 : switch_notifications
                 (snd (match candidate_parts ev with
                       | Some ps =>
                           handle_parts needsThinkingClose
                                        realThinkingAsContent st ps
                       | None => (st, [])
                       end)) = 0).
  { destruct (candidate_parts ev);
      [apply handle_parts_no_notification|reflexivity]. }
  destruct (match candidate_parts ev with
            | Some ps =>
                handle_parts needsThinkingClose realThinkingAsContent st ps
            | None => (st, [])
            end) as [st1 o1].
  pose proof (IH st1) as H2.
  destruct (handle_events needsThinkingClose realThinkingAsContent st1 evs)
    as [st2 o2].
  cbn [snd] in *. unfold switch_notifications in *.
  rewrite !count_app, H1, H2.
  unfold usage_of. split_conditions; reflexivity.
Qed.

Lemma stream_events_no_notification (evs : list GeminiResponse) :
  switch_notifications
    (stream_events needsThinkingClose realThinkingAsContent evs) = 0.
Proof. apply handle_events_no_notification. Qed.

Ltac split_at_text H pre :=
  repeat (destruct pre as [|? pre];
          [ try discriminate H
          | first [discriminate H | injection H as ? H; subst] ]).

Lemma handle_part_text_follows_close (st : ThinkingFlags)
      (part : GeminiPart) :
  closes_first needsThinkingClose part ->
  text_follows_close needsThinkingClose realThinkingAsContent st
    (snd (handle_part needsThinkingClose realThinkingAsContent st part)).
Proof.
  intros Hguard pre t post Hout Hopen.
  destruct st as [closed started], part as [txt th].
  unfold closes_first, has_think_tag in Hguard.
  unfold handle_part, thought_part, tagged_part, plain_part,
    open_if_needed, close_if, opening_delimiters, closing_delimiters in *.
  cbn [part_text part_thought hasStartedThinking hasClosedThinking] in *.
  destruct txt as [x|]; [|destruct th as [[|]|], pre; discriminate Hout].
  destruct (truthy x);
    [|destruct th as [[|]|], pre; discriminate Hout].
  destruct (includes x THINK_OPEN) eqn:Htag.
  - destruct Hguard as [-> | Hguard]; [|discriminate Hguard].
    destruct Hopen as [Hopen | [-> Hopen]]; [discriminate Hopen|].
    destruct th as [[|]|], closed, started, (match_think x),
      (truthy (trim (strip_think x)));
      cbn in Hout; split_at_text Hout pre; cbn in *; lia.
  - destruct th as [[|]|], needsThinkingClose, realThinkingAsContent,
      closed, started;
      cbn in Hout; split_at_text Hout pre; cbn in *;
      try lia; destruct Hopen as [Hopen | [Hr Hopen]];
      try discriminate; try lia.
Qed.

Lemma text_follows_close_app (st : ThinkingFlags)
      (st1 : ThinkingFlags) (o1 o2 : list Fragment) :
  accounted realThinkingAsContent st (st1, o1) ->
  text_follows_close needsThinkingClose realThinkingAsContent st o1 ->
  text_follows_close needsThinkingClose realThinkingAsContent st1 o2 ->
  text_follows_close needsThinkingClose realThinkingAsContent st (o1 ++ o2).
Proof.
  intros (Ho & Hc & _) H1 H2 pre t post Hout Hopen.
  cbn [fst snd] in Ho, Hc.
  assert (Hlater :
            forall l, pre = o1 ++ l -> o2 = l ++ Text t :: post ->
                      1 <= b2n (hasClosedThinking st) + closing_delimiters pre).
  { intros l -> E2.
    unfold opening_delimiters, closing_delimiters in *.
    rewrite count_app in *.
    assert (H : 1 <= b2n (hasClosedThinking st1) + count is_close l).
    { apply (H2 l t post E2).
      destruct Hopen as [Hn | [Hr Hopen]]; [left; exact Hn|].
      right. split; [exact Hr|]. unfold opening_delimiters. lia. }
    lia. }
  apply app_eq_app in Hout.
  destruct Hout as (l & [[E1 E2] | [E1 E2]]).
  - destruct l as [|f l].
    + rewrite app_nil_r in E1.
      apply (Hlater []); [rewrite app_nil_r; symmetry; exact E1|].
      symmetry. exact E2.
    + injection E2 as <- E2. apply (H1 pre t l E1 Hopen).
  - apply (Hlater l E1 E2).
Qed.

Lemma text_follows_close_nil (st : ThinkingFlags) :
  text_follows_close needsThinkingClose realThinkingAsContent st [].
Proof. intros pre t post H. destruct pre; discriminate H. Qed.

Lemma handle_parts_text_follows_close (ps : list GeminiPart) :
  forall st,
    Forall (closes_first needsThinkingClose) ps ->
    text_follows_close needsThinkingClose realThinkingAsContent st
      (snd (handle_parts needsThinkingClose realThinkingAsContent st ps)).
Proof.
  induction ps as [|p ps IH]; intros st Hall;
    [apply text_follows_close_nil|].
  inversion Hall as [|? ? Hp Hps]; subst.
  cbn [handle_parts].
  pose proof (handle_part_accounted st p) as Ha.
  pose proof (handle_part_text_follows_close st p Hp) as H1.
  destruct (handle_part needsThinkingClose realThinkingAsContent st p)
    as [st1 o1].
  pose proof (IH st1 Hps) as H2.
  destruct (handle_parts needsThinkingClose realThinkingAsContent st1 ps)
    as [st2 o2].
  apply (text_follows_close_app st st1 o1 o2 Ha H1 H2).
Qed.

Lemma handle_event_text_follows_close (st : ThinkingFlags)
      (ev : GeminiResponse) :
  event_closes_first needsThinkingClose ev ->
  text_follows_close needsThinkingClose realThinkingAsContent st
    (snd (handle_event needsThinkingClose realThinkingAsContent st ev)).
Proof.
  unfold event_closes_first, handle_event. intros Hev.
  assert (Hu : forall st', text_follows_close needsThinkingClose
                             realThinkingAsContent st' (usage_of ev)).
  { intros st' pre t post H. unfold usage_of in H.
    repeat match type of H with
           | context [match ?m with Some _ => _ | None => _ end] =>
               destruct m
           end;
      split_at_text H pre. }
  destruct (candidate_parts ev) as [ps|].
  - pose proof (handle_parts_accounted ps st) as Ha.
    pose proof (handle_parts_text_follows_close ps st Hev) as H1.
    destruct (handle_parts needsThinkingClose realThinkingAsContent st ps)
      as [st1 o1].
    apply (text_follows_close_app st st1 o1 _ Ha H1 (Hu st1)).
  - apply (text_follows_close_app st st [] _ (accounted_nil st)
             (text_follows_close_nil st) (Hu st)).
Qed.

Lemma handle_events_text_follows_close (evs : list GeminiResponse) :
  forall st,
    Forall (event_closes_first needsThinkingClose) evs ->
    text_follows_close needsThinkingClose realThinkingAsContent st
      (snd (handle_events needsThinkingClose realThinkingAsContent st evs)).
Proof.
  induction evs as [|ev evs IH]; intros st Hall;
    [apply text_follows_close_nil|].
  inversion Hall as [|? ? Hev Hevs]; subst.
  cbn [handle_events].
  pose proof (handle_event_accounted st ev) as Ha.
  pose proof (handle_event_text_follows_close st ev Hev) as H1.
  destruct (handle_event needsThinkingClose realThinkingAsContent st ev)
    as [st1 o1].
  pose proof (IH st1 Hevs) as H2.
  destruct (handle_events needsThinkingClose realThinkingAsContent st1 evs)
    as [st2 o2].
  apply (text_follows_close_app st st1 o1 o2 Ha H1 H2).
Qed.

(** What the state machine does guarantee: as long as a synthetic section is
    not followed by tagged text, every text fragment that comes after a
    section was opened as content has the one closing delimiter of the stream
    before it. *)
Lemma close_precedes_text (evs : list GeminiResponse)
      (pre : list Fragment) (t : jsstring) (post : list Fragment) :
  Forall (event_closes_first needsThinkingClose) evs ->
  stream_events needsThinkingClose realThinkingAsContent evs
  = pre ++ Text t :: post ->
  needsThinkingClose = true
  \/ (realThinkingAsContent = true /\ 1 <= opening_delimiters pre) ->
  closing_delimiters pre = 1 /\ closing_delimiters post = 0.
Proof.
  intros Hall Hout Hopen.
  pose proof (handle_events_text_follows_close evs flags0 Hall
                pre t post Hout) as H.
  cbn [flags0 hasStartedThinking hasClosedThinking b2n] in H.
  destruct (stream_events_delimiters evs) as (_ & Hc & _).
  rewrite Hout in Hc.
  unfold closing_delimiters in *. rewrite count_app in Hc.
  change (count is_close (Text t :: post)) with (count is_close post) in Hc.
  assert (1 <= count is_close pre).
  { apply H. destruct Hopen as [Hn | [Hr Ho]]; [left; exact Hn|].
    right. split; [exact Hr|]. lia. }
  lia.
Qed.

End ThinkingChannel_properties.

(** C4. A part that is not marked as a thought and whose text is
    [<think>A</think>B], with no closing tag inside [A] and no further tag
    pair in [B], yields a thought fragment with content [A] and then, when [B]
    trimmed of white space is not empty, a text fragment with that trimmed
    content; apart from thinking delimiters it yields nothing else. *)
Theorem legacy_tag_pair_is_split
        (needsThinkingClose realThinkingAsContent : bool)
        (st : ThinkingFlags) (A B : jsstring) (thought : option bool) :
  thought <> Some true ->
  includes A THINK_CLOSE = false ->
  match_think B = None ->
  without_delimiters
    (snd (handle_part needsThinkingClose realThinkingAsContent st
            (mkPart (Some (THINK_OPEN ++ A ++ THINK_CLOSE ++ B)) thought)))
  = thought_fragment realThinkingAsContent A
    :: (if truthy (trim B) then [Text (trim B)] else []).
Proof.
  intros Hthought HA HB.
  unfold handle_part. cbn [part_text part_thought].
  assert (Hth : match thought with Some true => true | _ => false end
                = false).
  { destruct thought as [[|]|]; [contradiction|reflexivity|reflexivity]. }
  rewrite Hth, (includes_tag_pair A B).
  change (truthy (THINK_OPEN ++ A ++ THINK_CLOSE ++ B)) with true.
  cbn [andb]. unfold tagged_part.
  rewrite (match_think_tag_pair A B HA), (strip_think_tag_pair A B HA).
  unfold strip_think.
  rewrite (replace_scan_no_match _ _ _ (match_think_none B HB)).
  unfold thought_fragment, open_if_needed, close_if, without_delimiters.
  destruct st as [closed started].
  cbn [hasStartedThinking hasClosedThinking].
  destruct realThinkingAsContent, started, closed, (truthy (trim B));
    reflexivity.
Qed.

Lemma legacy_tag_pair_is_split_witness :
  without_delimiters
    (snd (handle_part false true flags0
            (mkPart (Some (lit "<think>A</think> B ")) None)))
  = [ThinkingText (lit "A"); Text (lit "B")].
Proof.
  apply (legacy_tag_pair_is_split false true flags0 (lit "A") (lit " B ") None).
  - discriminate.
  - reflexivity.
  - reflexivity.
Defined.

(** C2 fails on the code.  With a section opened by the synthetic prelude
    ([needsThinkingClose] set, thinking not delivered as real content), a part
    with a legacy tag pair yields its text without any closing delimiter
    before it: the branch for tagged text never looks at
    [needsThinkingClose], while the branch for plain text closes the section
    first. *)
Theorem tagged_text_leaves_synthetic_thinking_open :
  stream_events true false
    [Demo.text_event (lit "<think>A</think>B") None]
  = [RealThinking (lit "A"); Text (lit "B")]
  /\ stream_events true false [Demo.text_event (lit "B") None]
     = [CloseThinking; Text (lit "B")]
  /\ fragments
       (streamContent
          (decoder := Demo.latin1) (json := Demo.toy_json)
          (authManager := Demo.counting_auth)
          (requests := Demo.plain_requests)
          (mkEnv (Some (lit "project")) (Some (lit "true")) None
                 (Some (lit "true")) None)
          [mkResponse 200
             (Some [Demo.bytes "data: t<think>A</think>B" ++ Demo.NL
                      ++ Demo.NL])]
          (mkClient (authManager := Demo.counting_auth) 0%N None)
          (lit "gemini-2.5-pro") [] [lit "hi"] None)
     = [OpenThinking; ThinkingText (lit "Let me think");
        RealThinking (lit "A"); Text (lit "B")].
Proof. repeat split. Qed.

(** ** Controller and client *)
Section Client_properties.

Context {decoder : TextDecoder} {json : JsonParser}
        {authManager : AuthManager} {requests : RequestModel}.

Variable env : Env.

Lemma performStreamRequest_delimiters (upstream : list Response) :
  forall (client : Client) (streamRequest : StreamRequest)
         (needsThinkingClose isRetry realThinkingAsContent : bool)
         (originalModel : option jsstring),
    delimiters_bounded realThinkingAsContent
      (fragments
         (performStreamRequest env upstream client streamRequest
            needsThinkingClose isRetry realThinkingAsContent originalModel)).
Proof.
  induction upstream as [|response upstream IH];
    intros client streamRequest needs isRetry real originalModel.
  - repeat split; cbn; lia.
  - cbn [performStreamRequest].
    assert (Hnil : delimiters_bounded real []) by (repeat split; cbn; lia).
    repeat match goal with
           | |- context [if ?b then _ else _] => destruct b
           | |- context [match ?x with Some _ => _ | None => _ end] =>
               destruct x
           | |- context [match ?x with inl _ => _ | inr _ => _ end] =>
               destruct x
           end;
      try exact Hnil.
    + apply IH.
    + refine (IH _ _ _ _ _ _).
    + cbn [fragments]. apply stream_events_delimiters.
Qed.

Lemma generateReasoningOutput_delimiters (messages : list ChatMessage)
      (streamAsContent : bool) :
  opening_delimiters (generateReasoningOutput messages streamAsContent) <= 1
  /\ closing_delimiters (generateReasoningOutput messages streamAsContent)
     = 0.
Proof.
  unfold generateReasoningOutput, opening_delimiters, closing_delimiters,
    count.
  destruct streamAsContent; cbn [filter is_open is_close List.length].
  - assert (H : forall p, (forall s, p (ThinkingText s) = false) ->
                          filter p (map ThinkingText (thinkingChunks messages))
                          = []).
    { intros p Hp. induction (thinkingChunks messages) as [|c cs IH];
        [reflexivity|]. cbn. rewrite Hp. exact IH. }
    rewrite !H by reflexivity. cbn. lia.
  - assert (H : forall p, (forall r, p (Reasoning r) = false) ->
                          filter p (map (fun t => Reasoning (mkReasoning t))
                                        (reasoningTexts messages))
                          = []).
    { intros p Hp. induction (reasoningTexts messages) as [|c cs IH];
        [reflexivity|]. cbn. rewrite Hp. exact IH. }
    rewrite !H by reflexivity. cbn. lia.
Qed.

(** An attempt made with [isRetry] set is a single [fetch]: it streams the
    response or throws, and never retries or falls back. *)
Lemma performStreamRequest_retry (response : Response)
      (upstream : list Response) (client : Client)
      (streamRequest : StreamRequest)
      (needsThinkingClose realThinkingAsContent : bool)
      (originalModel : option jsstring) :
  performStreamRequest env (response :: upstream) client streamRequest
    needsThinkingClose true realThinkingAsContent originalModel
  = let fetched := CallFetch (getAccessToken (auth client)) streamRequest in
    if negb (ok response) then
      mkRun [] (Some (stream_request_failed (status response))) client
            upstream [fetched]
    else
      match body response with
      | None => mkRun [] (Some response_has_no_body) client upstream [fetched]
      | Some bytes =>
          mkRun (stream_events needsThinkingClose realThinkingAsContent
                   (parseSSEStream bytes))
                None client upstream [fetched]
      end.
Proof.
  cbn [performStreamRequest negb].
  rewrite !andb_false_r. cbn [andb]. reflexivity.
Qed.

Lemma performStreamRequest_retry_no_notification (upstream : list Response)
      (client : Client) (streamRequest : StreamRequest)
      (needsThinkingClose realThinkingAsContent : bool)
      (originalModel : option jsstring) :
  switch_notifications
    (fragments
       (performStreamRequest env upstream client streamRequest
          needsThinkingClose true realThinkingAsContent originalModel)) = 0.
Proof.
  destruct upstream as [|response upstream]; [reflexivity|].
  rewrite performStreamRequest_retry. cbn zeta.
  destruct (negb (ok response)); [reflexivity|].
  destruct (body response); [|reflexivity].
  apply stream_events_no_notification.
Qed.

Lemma rate_limit_status (n : N) :
  n = 429%N \/ n = 503%N ->
  isRateLimitStatus n = true /\ (n =? 401)%N = false
  /\ ((200 <=? n) && (n <=? 299))%N = false.
Proof. intros [-> | ->]; repeat split. Qed.

End Client_properties.

(** C1. In every stream of [streamContent] (the synthetic-thinking prelude, if
    any, followed by one call of [performStreamRequest] with its retries), and
    in every stream of [performStreamRequest] on its own, at most one opening
    and at most one closing thinking delimiter is emitted, whatever the
    upstream sends. *)
Theorem thinking_delimiters_at_most_once
        {decoder : TextDecoder} {json : JsonParser}
        {authManager : AuthManager} {requests : RequestModel}
        (env : Env) (upstream : list Response) (client : Client) :
  (forall (modelId systemPrompt : jsstring) (messages : list ChatMessage)
          (options : option Options),
      opening_delimiters
        (fragments (streamContent env upstream client modelId systemPrompt
                                  messages options)) <= 1
      /\ closing_delimiters
           (fragments (streamContent env upstream client modelId systemPrompt
                                     messages options)) <= 1)
  /\ (forall (streamRequest : StreamRequest)
             (needsThinkingClose isRetry realThinkingAsContent : bool)
             (originalModel : option jsstring),
         opening_delimiters
           (fragments (performStreamRequest env upstream client streamRequest
                         needsThinkingClose isRetry realThinkingAsContent
                         originalModel)) <= 1
         /\ closing_delimiters
              (fragments (performStreamRequest env upstream client
                            streamRequest needsThinkingClose isRetry
                            realThinkingAsContent originalModel)) <= 1).
Proof.
  split.
  - intros modelId systemPrompt messages options.
    unfold streamContent.
    destruct (initializeAuth (auth client)) as [e|a]; [cbn; lia|].
    destruct (discoverProjectId env (mkClient a (projectId client)))
      as [[[e|p] client2] acts]; [cbn; lia|].
    destruct (buildPayload modelId systemPrompt messages options)
      as [e|payload]; [cbn; lia|].
    cbn [fragments after].
    unfold opening_delimiters, closing_delimiters. rewrite !count_app.
    match goal with
    | |- context [performStreamRequest env upstream client2 ?req ?n ?r ?rt ?o] =>
        destruct (performStreamRequest_delimiters env upstream client2
                    req n r rt o) as (Ho & Hc & Hn)
    end.
    unfold opening_delimiters, closing_delimiters in *.
    destruct (isThinkingModel modelId && is_true (ENABLE_FAKE_THINKING env)
              && negb (includeReasoning_of options)) eqn:Hfake.
    + destruct (generateReasoningOutput_delimiters
                  messages (is_true (STREAM_THINKING_AS_CONTENT env)))
        as (Hpo & Hpc).
      unfold opening_delimiters, closing_delimiters in *.
      assert (Hinc : includeReasoning_of options = false).
      { destruct (includeReasoning_of options); [|reflexivity].
        rewrite andb_false_r in Hfake. discriminate. }
      rewrite Hinc in *. cbn [andb] in *.
      specialize (Hn eq_refl). lia.
    + cbn. lia.
  - intros streamRequest needs isRetry real originalModel.
    destruct (performStreamRequest_delimiters env upstream client
                streamRequest needs isRetry real originalModel)
      as (Ho & Hc & _).
    split; assumption.
Qed.

(** C5. When the upstream answers the first attempt with 401, the controller
    clears the token cache, authenticates again and sends the same stream
    request once more, and does nothing else.  If the answer to that replay is
    401 again, the stream throws the error whose message is
    [Stream request failed: 401], the status in it, without a further
    request; if it is 200, the stream is that of the successful response. *)
Theorem auth_failure_is_retried_once
        {decoder : TextDecoder} {json : JsonParser}
        {authManager : AuthManager} {requests : RequestModel}
        (env : Env) (first : Response) (upstream : list Response)
        (client : Client) (streamRequest : StreamRequest)
        (needsThinkingClose realThinkingAsContent : bool)
        (originalModel : option jsstring) (renewed : AuthState) :
  status first = 401%N ->
  initializeAuth (clearTokenCache (auth client)) = inr renewed ->
  let run :=
    performStreamRequest env (first :: upstream) client streamRequest
      needsThinkingClose false realThinkingAsContent originalModel in
  let replay :=
    performStreamRequest env upstream (mkClient renewed (projectId client))
      streamRequest needsThinkingClose true realThinkingAsContent
      originalModel in
  let calls :=
    [CallFetch (getAccessToken (auth client)) streamRequest;
     CallClearTokenCache; CallInitializeAuth;
     CallFetch (getAccessToken renewed) streamRequest] in
  run = after [CallFetch (getAccessToken (auth client)) streamRequest;
               CallClearTokenCache; CallInitializeAuth] [] replay
  /\ forall (second : Response) (rest : list Response),
      upstream = second :: rest ->
      (status second = 401%N ->
       thrown run = Some (mkError (lit "Stream request failed: 401"))
       /\ fragments run = [] /\ actions run = calls
       /\ upstream_after run = rest)
      /\ (forall bytes,
             status second = 200%N -> body second = Some bytes ->
             thrown run = None
             /\ fragments run
                = stream_events needsThinkingClose realThinkingAsContent
                                (parseSSEStream bytes)
             /\ actions run = calls
             /\ upstream_after run = rest).
Proof.
  intros H401 Hauth run replay calls.
  assert (Hrun : run = after [CallFetch (getAccessToken (auth client))
                                        streamRequest;
                              CallClearTokenCache; CallInitializeAuth] []
                             replay).
  { unfold run, replay. cbn [performStreamRequest].
    unfold ok. rewrite H401, Hauth. reflexivity. }
  split; [exact Hrun|].
  intros second rest ->. rewrite Hrun. unfold replay, calls.
  rewrite performStreamRequest_retry. cbn zeta. unfold ok.
  split.
  - intros ->. repeat split.
  - intros bytes -> ->. repeat split.
Qed.

Lemma auth_failure_is_retried_once_witness :
  let answered (second : Response) :=
    performStreamRequest
      (decoder := Demo.latin1) (json := Demo.toy_json)
      (authManager := Demo.counting_auth) (requests := Demo.plain_requests)
      (mkEnv None None None None None)
      [mkResponse 401 None; second]
      (mkClient (authManager := Demo.counting_auth) 1%N None)
      (mkStreamRequest (requests := Demo.plain_requests)
                       (lit "gemini-2.5-pro") (lit "project") [lit "hi"])
      false false false (Some (lit "gemini-2.5-pro")) in
  let good :=
    mkResponse 200 (Some [Demo.bytes "data: thello" ++ Demo.NL ++ Demo.NL]) in
  (thrown (answered good) = None
   /\ fragments (answered good) = [Text (lit "hello")])
  /\ thrown (answered (mkResponse 401 None))
     = Some (mkError (lit "Stream request failed: 401"))
  /\ fragments (answered (mkResponse 401 None)) = [].
Proof.
  pose proof
    (fun second =>
       proj2 (auth_failure_is_retried_once
                (decoder := Demo.latin1) (json := Demo.toy_json)
                (authManager := Demo.counting_auth)
                (requests := Demo.plain_requests)
                (mkEnv None None None None None)
                (mkResponse 401 None) [second]
                (mkClient (authManager := Demo.counting_auth) 1%N None)
                (mkStreamRequest (requests := Demo.plain_requests)
                                 (lit "gemini-2.5-pro") (lit "project")
                                 [lit "hi"])
                false false (Some (lit "gemini-2.5-pro")) 2%N
                eq_refl eq_refl)
             second [] eq_refl) as H.
  intros answered good. split.
  - destruct (H good) as [_ Hgood].
    destruct (Hgood _ eq_refl eq_refl) as (Ht & Hf & _).
    split; [exact Ht|exact Hf].
  - destruct (H (mkResponse 401 None)) as [Hbad _].
    destruct (Hbad eq_refl) as (Ht & Hf & _).
    split; [exact Ht|exact Hf].
Defined.

(** C6. When the upstream answers the first attempt with 429 or 503, a
    fallback model is configured for the requested model and auto switching is
    enabled, the stream is one switch notification followed by the stream of
    the fallback attempt, which holds no further notification; the
    notification is the text chunk that reads [[Auto-switched from ], the
    requested model, [ to ], the fallback model, [ due to rate limiting]] and
    two line feeds; the replayed request carries the fallback model id; and
    when the fallback attempt is answered with 429 or 503 again the stream
    throws [Stream request failed: ] with that status, without another
    request. *)
Theorem rate_limit_switches_model_once
        {decoder : TextDecoder} {json : JsonParser}
        {authManager : AuthManager} {requests : RequestModel}
        (env : Env) (first : Response) (upstream : list Response)
        (client : Client) (streamRequest : StreamRequest)
        (needsThinkingClose realThinkingAsContent : bool)
        (original fallbackModel : jsstring) :
  status first = 429%N \/ status first = 503%N ->
  getFallbackModel original = Some fallbackModel ->
  isEnabled env = true ->
  let run :=
    performStreamRequest env (first :: upstream) client streamRequest
      needsThinkingClose false realThinkingAsContent (Some original) in
  let fallbackRequest :=
    mkStreamRequest fallbackModel (project streamRequest)
                    (request streamRequest) in
  let attempt :=
    performStreamRequest env upstream client fallbackRequest
      needsThinkingClose true realThinkingAsContent (Some original) in
  let notification :=
    mkChunk text
      (DString (lit "[Auto-switched from " ++ original ++ lit " to "
                ++ fallbackModel ++ lit " due to rate limiting]"
                ++ [LF; LF])) in
  fragments run = SwitchNotification original fallbackModel :: fragments attempt
  /\ map chunk_of (fragments run)
     = notification :: map chunk_of (fragments attempt)
  /\ switch_notifications (fragments run) = 1
  /\ thrown run = thrown attempt
  /\ actions run
     = CallFetch (getAccessToken (auth client)) streamRequest
       :: actions attempt
  /\ hd_error (actions attempt)
     = Some (CallFetch (getAccessToken (auth client)) fallbackRequest)
  /\ model fallbackRequest = fallbackModel
  /\ forall (second : Response) (rest : list Response),
      upstream = second :: rest ->
      status second = 429%N \/ status second = 503%N ->
      thrown run
      = Some (mkError (lit "Stream request failed: "
                       ++ decimal (status second)))
      /\ fragments run = [SwitchNotification original fallbackModel]
      /\ map chunk_of (fragments run) = [notification]
      /\ actions run
         = [CallFetch (getAccessToken (auth client)) streamRequest;
            CallFetch (getAccessToken (auth client)) fallbackRequest]
      /\ upstream_after run = rest.
Proof.
  intros Hstatus Hfallback Henabled run fallbackRequest attempt notification.
  destruct (rate_limit_status _ Hstatus) as (Hrate & Hnot401 & Hnotok).
  assert (Horiginal : truthy original = true).
  { destruct original; [discriminate Hfallback|reflexivity]. }
  assert (Hrun : run = after [CallFetch (getAccessToken (auth client))
                                        streamRequest]
                             [SwitchNotification original fallbackModel]
                             attempt).
  { unfold run, attempt, fallbackRequest. cbn [performStreamRequest].
    unfold ok. rewrite Hnotok, Hnot401, Hrate, Hfallback, Henabled.
    cbn [negb andb truthy_opt]. rewrite Horiginal. reflexivity. }
  rewrite Hrun. cbn [after fragments thrown actions upstream_after app].
  split; [reflexivity|]. split; [reflexivity|]. split.
  { unfold switch_notifications, count. cbn [filter is_switch_notification].
    cbn [List.length]. f_equal.
    apply (performStreamRequest_retry_no_notification env). }
  split; [reflexivity|]. split; [reflexivity|]. split.
  { unfold attempt. destruct upstream as [|second rest]; [reflexivity|].
    rewrite performStreamRequest_retry. cbn zeta.
    destruct (negb (ok second)); [reflexivity|].
    destruct (body second); reflexivity. }
  split; [reflexivity|].
  intros second rest -> Hsecond. unfold attempt.
  rewrite performStreamRequest_retry. cbn zeta. unfold ok.
  destruct (rate_limit_status _ Hsecond) as (_ & _ & ->).
  repeat split.
Qed.

Lemma rate_limit_switches_model_once_witness :
  let answered (second : Response) :=
    performStreamRequest
      (decoder := Demo.latin1) (json := Demo.toy_json)
      (authManager := Demo.counting_auth) (requests := Demo.plain_requests)
      (mkEnv None None None None (Some (lit "true")))
      [mkResponse 429 None; second]
      (mkClient (authManager := Demo.counting_auth) 1%N None)
      (mkStreamRequest (requests := Demo.plain_requests)
                       (lit "gemini-2.5-pro") (lit "project") [lit "hi"])
      false false false (Some (lit "gemini-2.5-pro")) in
  let good :=
    mkResponse 200 (Some [Demo.bytes "data: thello" ++ Demo.NL ++ Demo.NL]) in
  let notification :=
    mkChunk text
      (DString
         (lit "[Auto-switched from gemini-2.5-pro to gemini-2.5-flash due to rate limiting]"
          ++ [LF; LF])) in
  map chunk_of (fragments (answered good))
  = [notification; mkChunk text (DString (lit "hello"))]
  /\ map chunk_of (fragments (answered (mkResponse 503 None)))
     = [notification]
  /\ thrown (answered (mkResponse 503 None))
     = Some (mkError (lit "Stream request failed: 503")).
Proof.
  pose proof
    (fun second =>
       rate_limit_switches_model_once
         (decoder := Demo.latin1) (json := Demo.toy_json)
         (authManager := Demo.counting_auth)
         (requests := Demo.plain_requests)
         (mkEnv None None None None (Some (lit "true")))
         (mkResponse 429 None) [second]
         (mkClient (authManager := Demo.counting_auth) 1%N None)
         (mkStreamRequest (requests := Demo.plain_requests)
                          (lit "gemini-2.5-pro") (lit "project") [lit "hi"])
         false false (lit "gemini-2.5-pro") (lit "gemini-2.5-flash")
         (or_introl eq_refl) eq_refl eq_refl) as H.
  intros answered good notification. split.
  - destruct (H good) as (_ & Hchunks & _). exact Hchunks.
  - destruct (H (mkResponse 503 None)) as (_ & _ & _ & _ & _ & _ & _ & Hsecond).
    destruct (Hsecond _ [] eq_refl (or_intror eq_refl))
      as (Ht & _ & Hchunks & _).
    split; [exact Hchunks|exact Ht].
Defined.

(** ** Non-streaming completion *)

Lemma text_content_cons (c : StreamChunk) (chunks : list StreamChunk) :
  text_content (c :: chunks)
  = (if is_text_chunk c then string_data c else []) ++ text_content chunks.
Proof.
  unfold text_content. cbn [filter].
  destruct (is_text_chunk c); reflexivity.
Qed.

Section Completion_properties.

Context {decoder : TextDecoder} {json : JsonParser}
        {authManager : AuthManager} {requests : RequestModel}.

(** The loop of [getCompletion] keeps the text of the text chunks and the
    last usage. *)
Lemma collect_all_chunks (fs : list Fragment) :
  forall acc : Completion,
    collect_all acc (map chunk_of fs)
    = mkCompletion
        (completion_content acc ++ text_content (map chunk_of fs))
        (match last_usage (map chunk_of fs) with
         | Some u => Some u
         | None => completion_usage acc
         end).
Proof.
  unfold collect_all.
  induction fs as [|f fs IH]; intros [content0 usage0].
  - cbn. rewrite app_nil_r. reflexivity.
  - cbn [map fold_left]. rewrite IH, text_content_cons. cbn [last_usage].
    destruct (last_usage (map chunk_of fs)) as [u|];
      destruct f;
      cbn [chunk_of collect type data is_text_chunk is_usage_chunk
           string_data usage_data completion_content completion_usage app];
      rewrite <- ?app_assoc, ?app_nil_r; reflexivity.
Qed.

End Completion_properties.

(** C10 (amended). When the stream of the requested model ends without
    throwing, the content of the completion is the concatenation, in order,
    of the data of its chunks of type [text], and nothing of its other
    chunks, and the usage is the data of its last usage chunk.  When that
    stream throws a rate-limit error, a fallback model is configured and auto
    switching is enabled, the completion is built from a new stream for the
    fallback model in the same way, with the switch notification put before
    its text. *)
Theorem completion_collects_text_chunks
        {decoder : TextDecoder} {json : JsonParser}
        {authManager : AuthManager} {requests : RequestModel}
        (env : Env) (upstream : list Response) (client : Client)
        (modelId systemPrompt : jsstring) (messages : list ChatMessage)
        (options : option Options) :
  let run :=
    streamContent env upstream client modelId systemPrompt messages options in
  let call :=
    getCompletion env upstream client modelId systemPrompt messages options in
  (thrown run = None ->
   returned call
   = inr (mkCompletion (text_content (map chunk_of (fragments run)))
                       (last_usage (map chunk_of (fragments run)))))
  /\ (forall (error : Error) (fallbackModel : jsstring),
         thrown run = Some error ->
         isRateLimitError error = true ->
         getFallbackModel modelId = Some fallbackModel ->
         isEnabled env = true ->
         let again :=
           streamContent env (upstream_after run) (client_after run)
             fallbackModel systemPrompt messages options in
         thrown again = None ->
         returned call
         = inr (mkCompletion
                  (createSwitchNotification modelId fallbackModel
                   ++ text_content (map chunk_of (fragments again)))
                  (last_usage (map chunk_of (fragments again))))).
Proof.
  intros run call. split.
  - intros Hdone. unfold call, getCompletion. fold run. rewrite Hdone.
    cbn [returned]. rewrite collect_all_chunks.
    cbn [completion_content completion_usage app].
    destruct (last_usage (map chunk_of (fragments run))); reflexivity.
  - intros error fallbackModel Hthrown Hrate Hfallback Henabled again Hdone.
    unfold call, getCompletion. fold run.
    rewrite Hthrown, Hrate. unfold handleNonStreamingFallback.
    rewrite Hfallback, Henabled. fold again. rewrite Hdone.
    cbn [returned]. rewrite collect_all_chunks.
    cbn [completion_content completion_usage].
    destruct (last_usage (map chunk_of (fragments again))); reflexivity.
Qed.

Lemma completion_collects_text_chunks_witness :
  returned
    (getCompletion
       (decoder := Demo.latin1) (json := Demo.toy_json)
       (authManager := Demo.counting_auth) (requests := Demo.plain_requests)
       (mkEnv (Some (lit "project")) (Some (lit "true")) None
              (Some (lit "true")) None)
       [mkResponse 200
          (Some [Demo.bytes "data: thello" ++ Demo.NL ++ Demo.NL
                   ++ Demo.bytes "data: u" ++ Demo.NL ++ Demo.NL])]
       (mkClient (authManager := Demo.counting_auth) 0%N None)
       (lit "gemini-2.5-pro") [] [lit "hi"] None)
  = inr (mkCompletion (lit "hello") (Some (mkUsage 3 4))).
Proof.
  apply (proj1 (completion_collects_text_chunks
                  (decoder := Demo.latin1) (json := Demo.toy_json)
                  (authManager := Demo.counting_auth)
                  (requests := Demo.plain_requests)
                  (mkEnv (Some (lit "project")) (Some (lit "true")) None
                         (Some (lit "true")) None)
                  [mkResponse 200
                     (Some [Demo.bytes "data: thello" ++ Demo.NL ++ Demo.NL
                              ++ Demo.bytes "data: u" ++ Demo.NL ++ Demo.NL])]
                  (mkClient (authManager := Demo.counting_auth) 0%N None)
                  (lit "gemini-2.5-pro") [] [lit "hi"] None)).
  reflexivity.
Defined.

(** C10, as stated, fails: the first attempt is answered with 401 and its
    replay with 429, so the stream of the requested model throws without a
    single chunk; [getCompletion] then streams from the fallback model, whose
    only text chunk is [hello], and returns the switch notification followed
    by [hello].  No chunk of either stream carries the notification. *)
Lemma completion_content_is_not_streamed_text :
  ~ completion_is_streamed_text
      (decoder := Demo.latin1) (json := Demo.toy_json)
      (authManager := Demo.counting_auth) (requests := Demo.plain_requests)
      (mkEnv (Some (lit "project")) None None None (Some (lit "true")))
      [mkResponse 401 None; mkResponse 429 None;
       mkResponse 200 (Some [Demo.bytes "data: thello" ++ Demo.NL ++ Demo.NL])]
      (mkClient (authManager := Demo.counting_auth) 0%N None)
      (lit "gemini-2.5-pro") [] [lit "hi"] None.
Proof.
  intros H.
  destruct (H (mkCompletion
                 (createSwitchNotification (lit "gemini-2.5-pro")
                                           (lit "gemini-2.5-flash")
                  ++ lit "hello") None)) as [Hcontent _].
  - vm_compute. reflexivity.
  - vm_compute in Hcontent. discriminate Hcontent.
Qed.

(** ** The serializer *)
Section Serializer.

Import StreamTransformer.

Variables (OPENAI_CHAT_COMPLETION_OBJECT chatID : jsstring)
          (creationTime : Z) (model_ : jsstring).

#[local] Abbreviation transform_all :=
  (transform_all OPENAI_CHAT_COMPLETION_OBJECT chatID creationTime model_).
#[local] Abbreviation transform :=
  (transform OPENAI_CHAT_COMPLETION_OBJECT chatID creationTime model_).

(** One call of [transform] enqueues nothing, a reasoning delta without role,
    or a content delta that takes the role when the flag is still set. *)
Lemma transform_cases (firstChunk : bool) (chunk : StreamChunk) :
  transform firstChunk chunk = (firstChunk, [])
  \/ (exists c, transform firstChunk chunk = (firstChunk, [c])
                /\ has_content (Data c) = false /\ role_of (Data c) = None)
  \/ (exists c, transform firstChunk chunk = (false, [c])
                /\ has_content (Data c) = true
                /\ role_of (Data c)
                   = if firstChunk then Some (lit "assistant") else None).
Proof.
  unfold transform.
  destruct chunk as [ty d]; destruct ty, d; cbn [type data];
    try (left; reflexivity);
    try (destruct (truthy s);
         [|left; reflexivity]).
  - right; right. eexists. split; [reflexivity|]. split; reflexivity.
  - right; left. eexists. split; [reflexivity|]. split; reflexivity.
  - right; right. eexists. split; [reflexivity|]. split; reflexivity.
  - right; left. eexists. split; [reflexivity|]. split; reflexivity.
Qed.

Lemma role_by_position (chunks : list StreamChunk) :
  forall (firstChunk : bool) (pre : list OpenAIChunk) (c : OpenAIChunk)
         (post : list OpenAIChunk),
    transform_all firstChunk chunks = pre ++ c :: post ->
    role_of (Data c)
    = if firstChunk && has_content (Data c)
         && forallb (fun x => negb (has_content (Data x))) pre
      then Some (lit "assistant") else None.
Proof.
  induction chunks as [|chunk chunks IH]; intros fc pre c post Hout.
  - destruct pre; discriminate.
  - cbn [StreamTransformer.transform_all] in Hout.
    destruct (transform_cases fc chunk)
      as [Hn | [(x & Hx & Hcx & Hrx) | (x & Hx & Hcx & Hrx)]].
    + rewrite Hn in Hout. apply (IH _ _ _ _ Hout).
    + rewrite Hx in Hout. destruct pre as [|y pre].
      * injection Hout as -> _. rewrite Hrx, Hcx, andb_false_r. reflexivity.
      * injection Hout as -> Hout. rewrite (IH _ _ _ _ Hout).
        cbn [forallb]. rewrite Hcx. reflexivity.
    + rewrite Hx in Hout. destruct pre as [|y pre].
      * injection Hout as -> _. rewrite Hrx, Hcx.
        destruct fc; reflexivity.
      * injection Hout as -> Hout. rewrite (IH _ _ _ _ Hout).
        cbn [forallb]. rewrite Hcx. cbn. rewrite !andb_false_r.
        reflexivity.
Qed.

Lemma forallb_map_Data (p : Enqueued -> bool) (l : list OpenAIChunk) :
  forallb p (map Data l) = forallb (fun x => p (Data x)) l.
Proof.
  induction l as [|x l IH]; [reflexivity|]. cbn. rewrite IH. reflexivity.
Qed.

(** The same for everything the transformer enqueues: the final chunk and
    the [[DONE]] line carry no role and no content. *)
Lemma role_by_position_enqueued (chunks : list StreamChunk)
      (pre : list Enqueued) (e : Enqueued) (post : list Enqueued) :
  createOpenAIStreamTransformer OPENAI_CHAT_COMPLETION_OBJECT chatID
    creationTime model_ chunks = pre ++ e :: post ->
  role_of e
  = if has_content e && forallb (fun x => negb (has_content x)) pre
    then Some (lit "assistant") else None.
Proof.
  unfold createOpenAIStreamTransformer. intros Hout.
  apply app_eq_app in Hout.
  destruct Hout as (l & [[E1 E2] | [E1 E2]]).
  - destruct l as [|x l].
    + cbn in E2. unfold flush in E2. injection E2 as -> _. reflexivity.
    + injection E2 as -> E2.
      apply map_eq_app in E1.
      destruct E1 as (pre0 & rest & Hsplit & <- & Hrest).
      apply map_eq_cons in Hrest.
      destruct Hrest as (c & post0 & -> & <- & _).
      rewrite forallb_map_Data.
      apply (role_by_position chunks true pre0 c post0 Hsplit).
  - unfold flush in E2.
    destruct l as [|x l].
    + injection E2 as <- _. reflexivity.
    + injection E2 as _ E2. destruct l as [|y l].
      * injection E2 as <- _. reflexivity.
      * injection E2 as _ E2. destruct l; discriminate E2.
Qed.

End Serializer.

(** C3 (amended). Among the chunks the serializer emits for a stream, a chunk
    carries the role announcement exactly when it is the first chunk with a
    content delta (text or thinking-as-content); every other chunk, and so
    every reasoning delta and the final chunk, carries none.  Hence at most
    one chunk carries it, and a stream without content delta has none. *)
Theorem role_announced_on_first_content_chunk
        (OPENAI_CHAT_COMPLETION_OBJECT chatID : jsstring) (creationTime : Z)
        (model_ : jsstring) (chunks : list StreamChunk)
        (pre : list StreamTransformer.Enqueued)
        (e : StreamTransformer.Enqueued)
        (post : list StreamTransformer.Enqueued) :
  StreamTransformer.createOpenAIStreamTransformer
    OPENAI_CHAT_COMPLETION_OBJECT chatID creationTime model_ chunks
  = pre ++ e :: post ->
  role_of e
  = if has_content e && forallb (fun x => negb (has_content x)) pre
    then Some (lit "assistant") else None.
Proof.
  intros Hout.
  apply (role_by_position_enqueued _ _ _ _ chunks pre e post Hout).
Qed.

Lemma role_announced_on_first_content_chunk_witness :
  role_of
    (StreamTransformer.Data
       (StreamTransformer.openAIChunk
          (lit "chat.completion.chunk") (lit "chatcmpl-1") 0
          (lit "gemini-2.5-pro")
          (StreamTransformer.with_role true (lit "t"))))
  = Some (lit "assistant").
Proof.
  apply (role_announced_on_first_content_chunk
           (lit "chat.completion.chunk") (lit "chatcmpl-1") 0
           (lit "gemini-2.5-pro")
           [mkChunk real_thinking (DString (lit "r"));
            mkChunk text (DString (lit "t"))]
           [StreamTransformer.Data
              (StreamTransformer.openAIChunk
                 (lit "chat.completion.chunk") (lit "chatcmpl-1") 0
                 (lit "gemini-2.5-pro")
                 (StreamTransformer.mkDelta None None (Some (lit "r"))))]
           (StreamTransformer.Data
              (StreamTransformer.openAIChunk
                 (lit "chat.completion.chunk") (lit "chatcmpl-1") 0
                 (lit "gemini-2.5-pro")
                 (StreamTransformer.with_role true (lit "t"))))
           (StreamTransformer.flush
              (lit "chat.completion.chunk") (lit "chatcmpl-1") 0
              (lit "gemini-2.5-pro"))).
  reflexivity.
Defined.

(** C3, as stated, fails: when a reasoning chunk comes first, the first
    content-bearing chunk of the stream carries no role; the role is on the
    text chunk after it. *)
Lemma role_not_on_first_content_bearing_chunk :
  ~ role_on_first_content_bearing_chunk
      (StreamTransformer.createOpenAIStreamTransformer
         (lit "chat.completion.chunk") (lit "chatcmpl-1") 0
         (lit "gemini-2.5-pro")
         [mkChunk real_thinking (DString (lit "r"));
          mkChunk text (DString (lit "t"))]).
Proof.
  intros (pre & e & post & Hout & Hrole & _ & Hpre).
  destruct pre as [|x pre].
  - injection Hout as <- _. discriminate Hrole.
  - injection Hout as <- _. discriminate Hpre.
Qed.

(** ** Lines the reassembler skips, joins or drops *)

Lemma split_no_line_feed (s : jsstring) :
  one_line s -> split LF s = [s].
Proof.
  induction s as [|x s IH]; intros Hs; [reflexivity|].
  assert (Hx : (x =? LF)%N = false).
  { apply N.eqb_neq. intros ->. apply Hs. left. reflexivity. }
  rewrite split_cons_other by exact Hx.
  rewrite IH; [reflexivity|].
  intros Hin. apply Hs. right. exact Hin.
Qed.

Lemma last_split_one_line (s : jsstring) : one_line (last (split LF s) []).
Proof.
  induction s as [|x s IH]; [intros []|].
  pose proof (split_not_nil LF s) as Hne.
  destruct (x =? LF)%N eqn:Hx.
  - simpl split. rewrite Hx. rewrite last_cons_ne by exact Hne. exact IH.
  - rewrite split_cons_other by exact Hx.
    destruct (split LF s) as [|l ls]; [contradiction|].
    cbn [hd tl]. destruct ls as [|l' ls'].
    + cbn [last] in *. intros [Hin|Hin].
      * apply N.eqb_neq in Hx. apply Hx. exact Hin.
      * exact (IH Hin).
    + exact IH.
Qed.

Lemma one_line_app (a b : jsstring) :
  one_line a -> one_line b -> one_line (a ++ b).
Proof.
  intros Ha Hb Hin. apply in_app_or in Hin. destruct Hin; auto.
Qed.

Section Lines.

Context {decoder : TextDecoder} {json : JsonParser}.

(** A read without a line feed only grows the unfinished line. *)
Lemma on_read_no_line_feed (text tail : jsstring) :
  one_line tail ->
  on_read (on_read initial text) tail
  = set_buffer (buffer (on_read initial text) ++ tail) (on_read initial text).
Proof.
  intros Htail. unfold on_read at 1.
  rewrite split_no_line_feed.
  - reflexivity.
  - apply one_line_app; [|exact Htail].
    rewrite on_read_buffer. apply last_split_one_line.
Qed.

Lemma on_done_set_buffer (b : jsstring) (st : ParserState) :
  on_done (set_buffer b st) = on_done st.
Proof. reflexivity. Qed.

Lemma on_read_data_lines (payloads : list jsstring) :
  forall (ob : jsstring) (evs : list GeminiResponse) (rest : jsstring),
    Forall one_line payloads ->
    on_read (mkParser [] ob evs) (data_lines payloads ++ rest)
    = on_read (mkParser [] (ob ++ List.concat payloads) evs) rest.
Proof.
  induction payloads as [|p payloads IH]; intros ob evs rest Hall.
  - simpl. rewrite app_nil_r. reflexivity.
  - inversion Hall as [|? ? Hp Hps]; subst.
    change (data_lines (p :: payloads))
      with ((lit "data: " ++ p ++ [LF]) ++ data_lines payloads).
    replace (((lit "data: " ++ p ++ [LF]) ++ data_lines payloads) ++ rest)
      with ((lit "data: " ++ p) ++ LF :: (data_lines payloads ++ rest))
      by (rewrite <- !app_assoc; reflexivity).
    rewrite on_read_line; [|reflexivity|apply one_line_data; exact Hp].
    rewrite data_line. cbn [buffer objectBuffer yielded].
    rewrite IH by exact Hps.
    cbn [List.concat]. rewrite app_assoc. reflexivity.
Qed.

End Lines.

(** X1. Whatever follows the last line feed of the stream is never parsed:
    the events of a stream whose text is [text ++ tail], with no line feed in
    [tail], are the events of [text] alone.  In particular a last [data: ]
    line that is not ended by a line feed yields no event. *)
Theorem unterminated_tail_is_dropped
        {decoder : TextDecoder} {json : JsonParser}
        (reads : list (list Byte.byte)) (text tail : jsstring) :
  decoded_text reads = text ++ tail ->
  one_line tail ->
  parseSSEStream reads = parse_text_chunks [text].
Proof.
  intros Htext Htail.
  rewrite parseSSEStream_decoded_text, Htext.
  unfold parse_text_chunks, read_all. cbn [fold_left].
  rewrite <- on_read_app, on_read_no_line_feed by exact Htail.
  apply on_done_set_buffer.
Qed.

Lemma unterminated_tail_is_dropped_witness :
  parseSSEStream (decoder := Demo.latin1) (json := Demo.toy_json)
    [Demo.bytes "data: ta" ++ Demo.NL ++ Demo.NL ++ Demo.bytes "data: tb"]
  = [Demo.text_event (lit "a") None].
Proof.
  apply (unterminated_tail_is_dropped
           (decoder := Demo.latin1) (json := Demo.toy_json)
           [Demo.bytes "data: ta" ++ Demo.NL ++ Demo.NL
              ++ Demo.bytes "data: tb"]
           (sse_frame (lit "ta")) (lit "data: tb")).
  - reflexivity.
  - one_line_solver.
Defined.

(** X2. A complete line that is not blank and does not start with
    [data: ] (a comment, an [event:] or [id:] field, a [data:] field without
    the space) changes nothing: the events are those of the text without
    that line. *)
Theorem other_lines_are_ignored
        {decoder : TextDecoder} {json : JsonParser}
        (reads : list (list Byte.byte)) (pre line post : jsstring) :
  decoded_text reads = pre ++ line ++ [LF] ++ post ->
  buffer (on_read initial pre) = [] ->
  one_line line ->
  trim line <> [] ->
  startsWith line (lit "data: ") = false ->
  parseSSEStream reads = parse_text_chunks [pre ++ post].
Proof.
  intros Htext Hb Hline Hblank Hdata.
  rewrite parseSSEStream_decoded_text, Htext.
  unfold parse_text_chunks, read_all. cbn [fold_left].
  rewrite <- (on_read_app initial pre post).
  rewrite <- (on_read_app initial pre (line ++ [LF] ++ post)).
  change (line ++ [LF] ++ post) with (line ++ LF :: post).
  rewrite on_read_line by assumption.
  unfold handle_line. rewrite Hdata.
  destruct (trim line); [contradiction|reflexivity].
Qed.

Lemma other_lines_are_ignored_witness :
  parseSSEStream (decoder := Demo.latin1) (json := Demo.toy_json)
    [Demo.bytes "data: ta" ++ Demo.NL ++ Demo.NL ++ Demo.bytes "data:tb"
       ++ Demo.NL ++ Demo.NL ++ Demo.bytes "data: tc" ++ Demo.NL ++ Demo.NL]
  = [Demo.text_event (lit "a") None; Demo.text_event (lit "c") None].
Proof.
  apply (other_lines_are_ignored
           (decoder := Demo.latin1) (json := Demo.toy_json)
           [Demo.bytes "data: ta" ++ Demo.NL ++ Demo.NL
              ++ Demo.bytes "data:tb" ++ Demo.NL ++ Demo.NL
              ++ Demo.bytes "data: tc" ++ Demo.NL ++ Demo.NL]
           (sse_frame (lit "ta")) (lit "data:tb")
           ([LF] ++ sse_frame (lit "tc"))).
  - reflexivity.
  - reflexivity.
  - one_line_solver.
  - discriminate.
  - reflexivity.
Defined.

(** X3. The [data: ] lines of one event are joined without a separator, and
    a line of white space only (a lone carriage return, say) ends the event
    like an empty line: the joined payloads are parsed as one event, between
    the events of the text before and of the text after. *)
Theorem data_lines_are_joined
        {decoder : TextDecoder} {json : JsonParser}
        (reads : list (list Byte.byte)) (pre blank post : jsstring)
        (payloads : list jsstring) :
  decoded_text reads = pre ++ data_lines payloads ++ blank ++ [LF] ++ post ->
  nothing_pending pre ->
  Forall one_line payloads ->
  one_line blank ->
  trim blank = [] ->
  List.concat payloads <> [] ->
  parseSSEStream reads
  = parse_text_chunks [pre] ++ try_yield (List.concat payloads)
    ++ parse_text_chunks [post].
Proof.
  intros Htext Hpre Hall Hblank Htrim Hne.
  rewrite parseSSEStream_decoded_text, Htext.
  rewrite (parse_text_app _ _ Hpre). f_equal.
  unfold parse_text_chunks, read_all. cbn [fold_left].
  unfold initial at 1. rewrite on_read_data_lines by exact Hall.
  change (blank ++ [LF] ++ post) with (blank ++ LF :: post).
  rewrite on_read_line; [|reflexivity|exact Hblank].
  unfold handle_line. rewrite Htrim.
  cbn [truthy negb buffer objectBuffer yielded app].
  destruct (List.concat payloads) as [|c s] eqn:E; [contradiction|].
  cbn [truthy].
  assert (Est : mkParser [] [] (try_yield (c :: s))
                = yielded_after (try_yield (c :: s)) initial).
  { unfold yielded_after, initial. cbn [buffer objectBuffer yielded].
    rewrite app_nil_r. reflexivity. }
  rewrite Est, on_read_yielded_after, on_done_yielded_after.
  reflexivity.
Qed.

Lemma data_lines_are_joined_witness :
  parseSSEStream (decoder := Demo.latin1) (json := Demo.toy_json)
    [Demo.bytes "data: th" ++ Demo.NL ++ Demo.bytes "data: el" ++ Demo.NL;
     Demo.bytes "data: lo" ++ Demo.NL ++ Demo.bytes " " ++ Demo.NL
       ++ Demo.bytes "data: tb" ++ Demo.NL]
  = [Demo.text_event (lit "hello") None; Demo.text_event (lit "b") None].
Proof.
  apply (data_lines_are_joined
           (decoder := Demo.latin1) (json := Demo.toy_json)
           [Demo.bytes "data: th" ++ Demo.NL ++ Demo.bytes "data: el"
              ++ Demo.NL;
            Demo.bytes "data: lo" ++ Demo.NL ++ Demo.bytes " " ++ Demo.NL
              ++ Demo.bytes "data: tb" ++ Demo.NL]
           [] (lit " ") (lit "data: tb" ++ [LF])
           [lit "th"; lit "el"; lit "lo"]).
  - reflexivity.
  - split; reflexivity.
  - one_line_solver.
  - one_line_solver.
  - reflexivity.
  - discriminate.
Defined.

(** ** What the thinking modes change, and what they leave alone *)

(** Two runs of the loop, under two settings of the modes, that agree on the
    fragments a filter keeps: it is enough that they do so part by part. *)
Section Simulation.

Variables (n r n' r' : bool) (p : Fragment -> bool).
Variable R : ThinkingFlags -> ThinkingFlags -> Prop.

Hypothesis step :
  forall st st' part,
    R st st' ->
    R (fst (handle_part n r st part)) (fst (handle_part n' r' st' part))
    /\ filter p (snd (handle_part n r st part))
       = filter p (snd (handle_part n' r' st' part)).

Lemma handle_parts_agree (ps : list GeminiPart) :
  forall st st',
    R st st' ->
    R (fst (handle_parts n r st ps)) (fst (handle_parts n' r' st' ps))
    /\ filter p (snd (handle_parts n r st ps))
       = filter p (snd (handle_parts n' r' st' ps)).
Proof.
  induction ps as [|part ps IH]; intros st st' HR; [split; auto|].
  cbn [handle_parts].
  destruct (step st st' part HR) as [HR1 H1].
  destruct (handle_part n r st part) as [st1 o1].
  destruct (handle_part n' r' st' part) as [st1' o1'].
  cbn [fst snd] in HR1, H1.
  destruct (IH st1 st1' HR1) as [HR2 H2].
  destruct (handle_parts n r st1 ps) as [st2 o2].
  destruct (handle_parts n' r' st1' ps) as [st2' o2'].
  cbn [fst snd] in *. split; [exact HR2|].
  rewrite !filter_app, H1, H2. reflexivity.
Qed.

Lemma handle_event_agree (ev : GeminiResponse) :
  forall st st',
    R st st' ->
    R (fst (handle_event n r st ev)) (fst (handle_event n' r' st' ev))
    /\ filter p (snd (handle_event n r st ev))
       = filter p (snd (handle_event n' r' st' ev)).
Proof.
  intros st st' HR. unfold handle_event.
  destruct (candidate_parts ev) as [ps|].
  - destruct (handle_parts_agree ps st st' HR) as [HR1 H1].
    destruct (handle_parts n r st ps) as [st1 o1].
    destruct (handle_parts n' r' st' ps) as [st1' o1'].
    cbn [fst snd] in *. split; [exact HR1|].
    rewrite !filter_app, H1. reflexivity.
  - cbn [fst snd]. split; [exact HR|reflexivity].
Qed.

Lemma handle_events_agree (evs : list GeminiResponse) :
  forall st st',
    R st st' ->
    R (fst (handle_events n r st evs)) (fst (handle_events n' r' st' evs))
    /\ filter p (snd (handle_events n r st evs))
       = filter p (snd (handle_events n' r' st' evs)).
Proof.
  induction evs as [|ev evs IH]; intros st st' HR; [split; auto|].
  cbn [handle_events].
  destruct (handle_event_agree ev st st' HR) as [HR1 H1].
  destruct (handle_event n r st ev) as [st1 o1].
  destruct (handle_event n' r' st' ev) as [st1' o1'].
  cbn [fst snd] in HR1, H1.
  destruct (IH st1 st1' HR1) as [HR2 H2].
  destruct (handle_events n r st1 evs) as [st2 o2].
  destruct (handle_events n' r' st1' evs) as [st2' o2'].
  cbn [fst snd] in *. split; [exact HR2|].
  rewrite !filter_app, H1, H2. reflexivity.
Qed.

End Simulation.

Ltac part_cases :=
  repeat match goal with
         | |- context [if ?b then _ else _] => destruct b eqn:?
         | |- context [match ?x with Some _ => _ | None => _ end] =>
             destruct x eqn:?
         end.

(** The text fragments of a part do not depend on the modes or on the
    flags. *)
Lemma handle_part_text (n r : bool) (st : ThinkingFlags) (part : GeminiPart) :
  filter is_text_fragment (snd (handle_part n r st part))
  = filter is_text_fragment (snd (handle_part false false flags0 part)).
Proof.
  destruct st as [closed started], part as [t th].
  unfold handle_part, flags0.
  cbn [part_text part_thought].
  destruct (_ && truthy _).
  - unfold thought_part, open_if_needed.
    destruct r, started; reflexivity.
  - destruct (truthy _ && includes _ _).
    + unfold tagged_part, open_if_needed, close_if.
      cbn [hasStartedThinking hasClosedThinking].
      destruct r, started, closed, (match_think _), (truthy (trim _));
        cbn [negb andb snd fst app filter is_text_fragment chunk_of type];
        reflexivity.
    + destruct (truthy _ && negb _ && negb _); [|reflexivity].
      unfold plain_part, close_if.
      cbn [hasStartedThinking hasClosedThinking].
      destruct n, r, started, closed; reflexivity.
Qed.

(** X4. The answer text does not depend on the thinking modes: for the same
    upstream events, the chunks of type [text] the loop yields are the same,
    in the same order, whatever [needsThinkingClose] and
    [realThinkingAsContent] are. *)
Theorem answer_text_is_mode_independent
        (needsThinkingClose realThinkingAsContent : bool)
        (needsThinkingClose' realThinkingAsContent' : bool)
        (evs : list GeminiResponse) :
  filter is_text_fragment
    (stream_events needsThinkingClose realThinkingAsContent evs)
  = filter is_text_fragment
      (stream_events needsThinkingClose' realThinkingAsContent' evs).
Proof.
  unfold stream_events.
  apply (handle_events_agree
           needsThinkingClose realThinkingAsContent
           needsThinkingClose' realThinkingAsContent'
           is_text_fragment (fun _ _ => True)); [|exact I].
  intros st st' part _. split; [exact I|].
  rewrite (handle_part_text _ _ st), (handle_part_text _ _ st').
  reflexivity.
Qed.

(** X5. [needsThinkingClose] decides about the closing delimiter only: with
    the same [realThinkingAsContent], the streams for the two values of
    [needsThinkingClose] are the same once the closing delimiter is left
    out. *)
Theorem needsThinkingClose_only_adds_the_close
        (needsThinkingClose needsThinkingClose' realThinkingAsContent : bool)
        (evs : list GeminiResponse) :
  without_closing
    (stream_events needsThinkingClose realThinkingAsContent evs)
  = without_closing
      (stream_events needsThinkingClose' realThinkingAsContent evs).
Proof.
  unfold stream_events, without_closing.
  apply (handle_events_agree
           needsThinkingClose realThinkingAsContent
           needsThinkingClose' realThinkingAsContent
           (fun f => negb (is_close f))
           (fun st st' => hasStartedThinking st = hasStartedThinking st'));
    [|reflexivity].
  intros [closed started] [closed' started'] [t th] HR.
  cbn [hasStartedThinking] in HR. subst started'.
  unfold handle_part. cbn [part_text part_thought].
  destruct (_ && truthy _).
  - unfold thought_part, open_if_needed. cbn [hasStartedThinking].
    destruct realThinkingAsContent, started; split; reflexivity.
  - destruct (truthy _ && includes _ _).
    + unfold tagged_part, open_if_needed, close_if.
      cbn [hasStartedThinking hasClosedThinking].
      destruct realThinkingAsContent, started, closed, closed',
        (match_think _), (truthy (trim _)); split; reflexivity.
    + destruct (truthy _ && negb _ && negb _); [|split; reflexivity].
      unfold plain_part, close_if.
      cbn [hasStartedThinking hasClosedThinking].
      destruct needsThinkingClose, needsThinkingClose',
        realThinkingAsContent, started, closed, closed'; split; reflexivity.
Qed.

(** A property of every fragment a part yields holds for every fragment the
    loop yields, usage snapshots apart. *)
Section Every_fragment.

Variables (n r : bool) (P : Fragment -> Prop).

Hypothesis part_all :
  forall st part, Forall P (snd (handle_part n r st part)).

Lemma handle_parts_all (ps : list GeminiPart) :
  forall st, Forall P (snd (handle_parts n r st ps)).
Proof.
  induction ps as [|part ps IH]; intros st; [constructor|].
  cbn [handle_parts].
  pose proof (part_all st part) as H1.
  destruct (handle_part n r st part) as [st1 o1].
  pose proof (IH st1) as H2.
  destruct (handle_parts n r st1 ps) as [st2 o2].
  cbn [snd] in *. apply Forall_app. split; assumption.
Qed.

Hypothesis usage_all : forall u, P (Usage u).

Lemma usage_of_all (ev : GeminiResponse) : Forall P (usage_of ev).
Proof.
  unfold usage_of. destruct (response ev) as [b|]; [|constructor].
  destruct (usageMetadata b); repeat constructor. apply usage_all.
Qed.

Lemma handle_events_all (evs : list GeminiResponse) :
  forall st, Forall P (snd (handle_events n r st evs)).
Proof.
  induction evs as [|ev evs IH]; intros st; [constructor|].
  cbn [handle_events]. unfold handle_event.
  assert (H1 : Forall P (snd (match candidate_parts ev with
                              | Some ps => handle_parts n r st ps
                              | None => (st, [])
                              end))).
  { destruct (candidate_parts ev); [apply handle_parts_all|constructor]. }
  destruct (match candidate_parts ev with
            | Some ps => handle_parts n r st ps
            | None => (st, [])
            end) as [st1 o1].
  pose proof (IH st1) as H2.
  destruct (handle_events n r st1 evs) as [st2 o2].
  cbn [snd] in *. rewrite !Forall_app. repeat split; try assumption.
  apply usage_of_all.
Qed.

End Every_fragment.





Lemma handle_part_metadata_mode (n : bool) (st : ThinkingFlags)
      (part : GeminiPart) :
  Forall (fun f => is_thinking_content f = is_close f /\ (is_close f = true -> n = true))
         (snd (handle_part n false st part)).
Proof.
  destruct st as [closed started], part as [t th].
  unfold handle_part, thought_part, tagged_part, plain_part,
    open_if_needed, close_if.
  cbn [part_text part_thought hasStartedThinking hasClosedThinking].
  destruct n; part_cases; cbn [snd app]; repeat constructor;
    cbn; discriminate.
Qed.

(** X7. Unless real thinking is delivered as content, the loop yields no
    chunk of type [thinking_content] other than the one closing delimiter of
    a synthetic section: upstream thoughts and legacy tags never become
    content, and without [needsThinkingClose] there is no such chunk at
    all. *)
Theorem thinking_content_needs_content_mode
        (needsThinkingClose : bool) (evs : list GeminiResponse) :
  filter is_thinking_content (stream_events needsThinkingClose false evs) = []
  \/ (needsThinkingClose = true
      /\ filter is_thinking_content
           (stream_events needsThinkingClose false evs) = [CloseThinking]).
Proof.
  assert (Hall : Forall (fun f => is_thinking_content f = is_close f
                                  /\ (is_close f = true
                                      -> needsThinkingClose = true))
                        (stream_events needsThinkingClose false evs)).
  { apply handle_events_all.
    - apply handle_part_metadata_mode.
    - intros u. split; [reflexivity|discriminate]. }
  pose proof (stream_events_delimiters needsThinkingClose false evs)
    as (_ & Hclose & _).
  unfold closing_delimiters, count in Hclose.
  assert (E : filter is_thinking_content
                (stream_events needsThinkingClose false evs)
              = filter is_close (stream_events needsThinkingClose false evs)).
  { apply filter_ext_in. intros f Hin.
    rewrite Forall_forall in Hall. apply (Hall f Hin). }
  rewrite E.
  destruct (filter is_close (stream_events needsThinkingClose false evs))
    as [|f l] eqn:Hf; [left; reflexivity|right].
  assert (Hin : In f (filter is_close
                        (stream_events needsThinkingClose false evs)))
    by (rewrite Hf; left; reflexivity).
  apply filter_In in Hin. destruct Hin as [Hin Hc].
  rewrite Forall_forall in Hall. split; [apply (Hall f Hin), Hc|].
  destruct l; [|cbn in Hclose; lia].
  destruct f; try discriminate Hc. reflexivity.
Qed.

(** ** Requests, failures and the project cache *)
Section Requests.

Context {decoder : TextDecoder} {json : JsonParser}
        {authManager : AuthManager} {requests : RequestModel}.

Variable env : Env.

Lemma stream_requests_app (a b : list Action) :
  stream_requests (a ++ b) = stream_requests a + stream_requests b.
Proof.
  unfold stream_requests. rewrite filter_app, length_app. reflexivity.
Qed.

Lemma discovery_calls_app (a b : list Action) :
  discovery_calls (a ++ b) = discovery_calls a + discovery_calls b.
Proof.
  unfold discovery_calls. rewrite filter_app, length_app. reflexivity.
Qed.

(** What one attempt with [isRetry] set does: one stream request, no
    discovery, at most one response consumed, the project cache kept. *)
Lemma performStreamRequest_retry_requests (upstream : list Response)
      (client : Client) (streamRequest : StreamRequest)
      (needsThinkingClose realThinkingAsContent : bool)
      (originalModel : option jsstring) :
  let run := performStreamRequest env upstream client streamRequest
               needsThinkingClose true realThinkingAsContent originalModel in
  stream_requests (actions run) = 1
  /\ discovery_calls (actions run) = 0
  /\ projectId (client_after run) = projectId client
  /\ exists consumed,
       upstream = consumed ++ upstream_after run
       /\ List.length consumed <= 1.
Proof.
  destruct upstream as [|response upstream].
  - repeat split. exists []. split; [reflexivity|cbn; lia].
  - rewrite performStreamRequest_retry. cbn zeta.
    destruct (negb (ok response)); [|destruct (body response)];
      repeat split; exists [response]; (split; [reflexivity|cbn; lia]).
Qed.

Lemma performStreamRequest_requests (upstream : list Response)
      (client : Client) (streamRequest : StreamRequest)
      (needsThinkingClose isRetry realThinkingAsContent : bool)
      (originalModel : option jsstring) :
  let run := performStreamRequest env upstream client streamRequest
               needsThinkingClose isRetry realThinkingAsContent
               originalModel in
  stream_requests (actions run) <= 2
  /\ discovery_calls (actions run) = 0
  /\ projectId (client_after run) = projectId client
  /\ exists consumed,
       upstream = consumed ++ upstream_after run
       /\ List.length consumed <= stream_requests (actions run).
Proof.
  destruct upstream as [|response upstream].
  - cbn. repeat split; try lia. exists []. split; [reflexivity|cbn; lia].
  - cbn zeta. cbn [performStreamRequest].
    set (fetched := CallFetch (getAccessToken (auth client)) streamRequest).
    assert (Hone : forall frs e,
               stream_requests (actions (mkRun frs e client upstream [fetched]))
               <= 2
               /\ discovery_calls
                    (actions (mkRun frs e client upstream [fetched])) = 0
               /\ projectId
                    (client_after (mkRun frs e client upstream [fetched]))
                  = projectId client
               /\ exists consumed,
                   response :: upstream
                   = consumed
                     ++ upstream_after (mkRun frs e client upstream [fetched])
                   /\ List.length consumed
                      <= stream_requests
                           (actions (mkRun frs e client upstream [fetched]))).
    { intros frs e. cbn. repeat split; try lia. exists [response].
      split; [reflexivity|cbn; lia]. }
    assert (Hretry : forall acts frs c sr,
               stream_requests acts = 1 ->
               discovery_calls acts = 0 ->
               projectId c = projectId client ->
               stream_requests
                 (actions
                    (after acts frs
                       (performStreamRequest env upstream c sr
                          needsThinkingClose true realThinkingAsContent
                          originalModel))) <= 2
               /\ discovery_calls
                    (actions
                       (after acts frs
                          (performStreamRequest env upstream c sr
                             needsThinkingClose true realThinkingAsContent
                             originalModel))) = 0
               /\ projectId
                    (client_after
                       (after acts frs
                          (performStreamRequest env upstream c sr
                             needsThinkingClose true realThinkingAsContent
                             originalModel)))
                  = projectId client
               /\ exists consumed,
                   response :: upstream
                   = consumed
                     ++ upstream_after
                          (after acts frs
                             (performStreamRequest env upstream c sr
                                needsThinkingClose true realThinkingAsContent
                                originalModel))
                   /\ List.length consumed
                      <= stream_requests
                           (actions
                              (after acts frs
                                 (performStreamRequest env upstream c sr
                                    needsThinkingClose true
                                    realThinkingAsContent originalModel)))).
    { intros acts frs c sr Hacts Hdisc Hproject.
      destruct (performStreamRequest_retry_requests upstream c sr
                  needsThinkingClose realThinkingAsContent originalModel)
        as (Hf & Hd & Hp & consumed & Hc & Hl).
      unfold after. cbn [actions upstream_after client_after].
      rewrite stream_requests_app, discovery_calls_app, Hacts, Hdisc, Hf, Hd,
        Hp.
      split; [lia|]. split; [reflexivity|]. split; [exact Hproject|].
      exists (response :: consumed). split; [|cbn; lia].
      cbn [app]. f_equal. exact Hc. }
    repeat match goal with
           | |- context [if ?b then _ else _] => destruct b
           | |- context [match ?x with Some _ => _ | None => _ end] =>
               destruct x
           | |- context [match ?x with inl _ => _ | inr _ => _ end] =>
               destruct x
           end;
      first [ apply Hone
            | apply Hretry; reflexivity
            | cbn; repeat split; try lia; exists [response];
              (split; [reflexivity|cbn; lia]) ].
Qed.

(** Project discovery sends no stream request and calls the endpoint at
    most once, and not at all with a project in the environment or in the
    cache; a project it returns is in the environment or in the cache
    afterwards; the error it throws is no rate-limit error. *)
Lemma discoverProjectId_calls (client : Client) :
  stream_requests (snd (discoverProjectId env client)) = 0
  /\ discovery_calls (snd (discoverProjectId env client)) <= 1
  /\ (truthy_opt (GEMINI_PROJECT_ID env) = true
      \/ truthy_opt (projectId client) = true ->
      discovery_calls (snd (discoverProjectId env client)) = 0)
  /\ (forall project,
         fst (fst (discoverProjectId env client)) = inr project ->
         truthy_opt (GEMINI_PROJECT_ID env) = true
         \/ truthy_opt (projectId (snd (fst (discoverProjectId env client))))
            = true)
  /\ (forall e,
         fst (fst (discoverProjectId env client)) = inl e ->
         isRateLimitError e = false).
Proof.
  unfold discoverProjectId.
  destruct (truthy_opt (GEMINI_PROJECT_ID env)) eqn:Eenv.
  - cbn [fst snd].
    split; [reflexivity|]. split; [cbn; lia|]. split; [reflexivity|].
    split; [intros project _; left; reflexivity|].
    intros e H. discriminate H.
  - destruct (truthy_opt (projectId client)) eqn:Ecache.
    + cbn [fst snd].
      split; [reflexivity|]. split; [cbn; lia|]. split; [reflexivity|].
      split; [intros project _; right; exact Ecache|].
      intros e H. discriminate H.
    + destruct (loadCodeAssist (auth client)) as [[p|] called].
      * destruct (truthy p) eqn:Ep; cbn [fst snd].
        -- split; [reflexivity|]. split; [cbn; lia|].
           split; [intros [H|H]; discriminate H|].
           split; [intros project _; right; cbn; exact Ep|].
           intros e H. discriminate H.
        -- split; [reflexivity|]. split; [cbn; lia|].
           split; [intros [H|H]; discriminate H|].
           split; [intros project H; discriminate H|].
           intros e H. injection H as <-. reflexivity.
      * cbn [fst snd].
        split; [reflexivity|]. split; [cbn; lia|].
        split; [intros [H|H]; discriminate H|].
        split; [intros project H; discriminate H|].
        intros e H. injection H as <-. reflexivity.
Qed.

Lemma streamContent_requests (upstream : list Response) (client : Client)
      (modelId systemPrompt : jsstring) (messages : list ChatMessage)
      (options : option Options) :
  stream_requests
    (actions (streamContent env upstream client modelId systemPrompt messages
                            options)) <= 2
  /\ discovery_calls
       (actions (streamContent env upstream client modelId systemPrompt
                               messages options)) <= 1
  /\ (truthy_opt (GEMINI_PROJECT_ID env) = true
      \/ truthy_opt (projectId client) = true ->
      discovery_calls
        (actions (streamContent env upstream client modelId systemPrompt
                                messages options)) = 0)
  /\ (forall error,
         thrown (streamContent env upstream client modelId systemPrompt
                               messages options) = Some error ->
         isRateLimitError error = true ->
         discovery_calls
           (actions (streamContent env upstream client modelId systemPrompt
                                   messages options)) = 0
         \/ truthy_opt (GEMINI_PROJECT_ID env) = true
         \/ truthy_opt
              (projectId
                 (client_after
                    (streamContent env upstream client modelId systemPrompt
                                   messages options))) = true)
  /\ exists consumed,
       upstream
       = consumed
         ++ upstream_after (streamContent env upstream client modelId
                                          systemPrompt messages options)
       /\ List.length consumed
          <= stream_requests
               (actions (streamContent env upstream client modelId
                                       systemPrompt messages options)).
Proof.
  unfold streamContent.
  assert (Hnil : exists consumed : list Response,
             upstream = consumed ++ upstream
             /\ List.length consumed <= 0).
  { exists []. split; [reflexivity|cbn; lia]. }
  destruct (initializeAuth (auth client)) as [e|a].
  { cbn. repeat split; try lia; auto. }
  pose proof (discoverProjectId_calls (mkClient a (projectId client)))
    as (Hs & Hd & Hcached & Hfound & Hfailed).
  destruct (discoverProjectId env (mkClient a (projectId client)))
    as [[[e|p] client2] acts]; cbn [fst snd projectId] in *.
  { cbn [actions thrown upstream_after client_after].
    change (CallInitializeAuth :: acts) with ([CallInitializeAuth] ++ acts).
    rewrite stream_requests_app, discovery_calls_app, Hs.
    cbn [stream_requests discovery_calls filter is_stream_request
         is_discovery List.length plus].
    split; [lia|]. split; [exact Hd|]. split; [exact Hcached|].
    split; [|exact Hnil].
    intros error Herror Hrate. injection Herror as <-.
    rewrite (Hfailed e eq_refl) in Hrate. discriminate Hrate. }
  specialize (Hfound p eq_refl).
  destruct (buildPayload modelId systemPrompt messages options)
    as [e|payload].
  { cbn [actions thrown upstream_after client_after].
    change (CallInitializeAuth :: acts) with ([CallInitializeAuth] ++ acts).
    rewrite stream_requests_app, discovery_calls_app, Hs.
    cbn [stream_requests discovery_calls filter is_stream_request
         is_discovery List.length plus].
    split; [lia|]. split; [exact Hd|]. split; [exact Hcached|].
    split; [|exact Hnil].
    intros error _ _. right. exact Hfound. }
  match goal with
  | |- context [performStreamRequest env upstream ?c ?sr ?n false ?r ?o] =>
      destruct (performStreamRequest_requests upstream c sr n false r o)
        as (Hf & Hdp & Hp & consumed & Hc & Hl);
      cbn zeta in Hf, Hdp, Hp, Hc, Hl;
      set (attempt := performStreamRequest env upstream c sr n false r o) in *
  end.
  unfold after. cbn [actions upstream_after client_after thrown].
  change (CallInitializeAuth :: acts) with ([CallInitializeAuth] ++ acts).
  rewrite !stream_requests_app, !discovery_calls_app, Hs, Hdp.
  cbn [stream_requests discovery_calls filter is_stream_request
       is_discovery List.length plus].
  rewrite Nat.add_0_r.
  split; [exact Hf|]. split; [exact Hd|]. split; [exact Hcached|].
  split.
  - intros error _ _. right. rewrite Hp. exact Hfound.
  - exists consumed. split; [exact Hc|exact Hl].
Qed.

End Requests.

(** X8. A stream sends at most two stream requests to the upstream,
    whatever the upstream answers: the first attempt and at most one retry,
    after a renewed authentication or with the fallback model.  Beside them
    it calls the project discovery endpoint at most once.  The responses it
    does not consume are left, in order, for later requests, and it consumes
    no more responses than it sends stream requests. *)
Theorem stream_sends_at_most_two_requests
        {decoder : TextDecoder} {json : JsonParser}
        {authManager : AuthManager} {requests : RequestModel}
        (env : Env) (upstream : list Response) (client : Client)
        (modelId systemPrompt : jsstring) (messages : list ChatMessage)
        (options : option Options) :
  stream_requests
    (actions (streamContent env upstream client modelId systemPrompt messages
                            options)) <= 2
  /\ discovery_calls
       (actions (streamContent env upstream client modelId systemPrompt
                               messages options)) <= 1
  /\ exists consumed,
       upstream
       = consumed
         ++ upstream_after (streamContent env upstream client modelId
                                          systemPrompt messages options)
       /\ List.length consumed
          <= stream_requests
               (actions (streamContent env upstream client modelId
                                       systemPrompt messages options)).
Proof.
  destruct (streamContent_requests env upstream client modelId systemPrompt
              messages options) as (Hs & Hd & _ & _ & Hc).
  split; [exact Hs|]. split; [exact Hd|exact Hc].
Qed.

(** X9. A non-streaming completion sends at most four stream requests to
    the upstream: at most two for the requested model and, after a
    rate-limit error, at most two for the fallback model.  Beside them it
    calls the project discovery endpoint at most once: the stream of the
    fallback model finds the project in the environment or in the cache, or
    it is the first to look for it. *)
Theorem completion_sends_at_most_four_requests
        {decoder : TextDecoder} {json : JsonParser}
        {authManager : AuthManager} {requests : RequestModel}
        (env : Env) (upstream : list Response) (client : Client)
        (modelId systemPrompt : jsstring) (messages : list ChatMessage)
        (options : option Options) :
  stream_requests
    (call_actions (getCompletion env upstream client modelId systemPrompt
                                 messages options)) <= 4
  /\ discovery_calls
       (call_actions (getCompletion env upstream client modelId systemPrompt
                                    messages options)) <= 1.
Proof.
  unfold getCompletion.
  destruct (streamContent_requests env upstream client modelId systemPrompt
              messages options) as (H1 & D1 & _ & Hcache & _).
  destruct (thrown (streamContent env upstream client modelId systemPrompt
                                  messages options)) as [error|];
    [|cbn [call_actions]; split; lia].
  destruct (isRateLimitError error) eqn:Hrate;
    [|cbn [call_actions]; split; lia].
  specialize (Hcache error eq_refl Hrate).
  cbn [call_actions]. rewrite stream_requests_app, discovery_calls_app.
  unfold handleNonStreamingFallback.
  destruct (getFallbackModel modelId) as [fallbackModel|];
    [|cbn [call_actions stream_requests discovery_calls filter List.length];
      split; lia].
  destruct (isEnabled env);
    [|cbn [call_actions stream_requests discovery_calls filter List.length];
      split; lia].
  cbn [call_actions].
  match goal with
  | |- context [streamContent env ?u ?c fallbackModel] =>
      destruct (streamContent_requests env u c fallbackModel systemPrompt
                  messages options) as (H2 & D2 & Hcached & _ & _)
  end.
  split; [lia|].
  destruct Hcache as [Hzero|Hknown].
  - rewrite Hzero. exact D2.
  - rewrite (Hcached Hknown). lia.
Qed.

(** X10. Every other failure of the upstream is fatal at once.  A response
    that is not ok makes the stream throw the error whose message is
    [Stream request failed: ] followed by the status in decimal, after that
    single stream request, with nothing yielded, nothing renewed and the
    later responses untouched, when it is not a 401 on a first attempt and,
    if its status is 429 or 503, when the attempt is a retry, no model was
    given or automatic switching is not enabled. *)
Theorem other_failure_status_is_fatal
        {decoder : TextDecoder} {json : JsonParser}
        {authManager : AuthManager} {requests : RequestModel}
        (env : Env) (response : Response) (upstream : list Response)
        (client : Client) (streamRequest : StreamRequest)
        (needsThinkingClose isRetry realThinkingAsContent : bool)
        (originalModel : option jsstring) :
  ok response = false ->
  (status response = 401%N -> isRetry = true) ->
  (isRateLimitStatus (status response) = true ->
   isRetry = true
   \/ truthy_opt originalModel = false
   \/ isEnabled env = false) ->
  performStreamRequest env (response :: upstream) client streamRequest
    needsThinkingClose isRetry realThinkingAsContent originalModel
  = mkRun []
          (Some (mkError (lit "Stream request failed: "
                          ++ decimal (status response))))
          client upstream
          [CallFetch (getAccessToken (auth client)) streamRequest].
Proof.
  intros Hok H401 Hrate.
  change (mkError (lit "Stream request failed: " ++ decimal (status response)))
    with (stream_request_failed (status response)).
  destruct isRetry.
  - rewrite performStreamRequest_retry. cbn zeta. rewrite Hok. reflexivity.
  - cbn [performStreamRequest]. rewrite Hok. cbn [negb andb].
    rewrite !andb_true_r.
    destruct (status response =? 401)%N eqn:E401.
    { apply N.eqb_eq in E401. specialize (H401 E401). discriminate. }
    destruct (isRateLimitStatus (status response)); [|reflexivity].
    cbn [andb].
    destruct (Hrate eq_refl) as [Hr|[Hnone|Hoff]]; [discriminate| |].
    + rewrite Hnone. reflexivity.
    + destruct (truthy_opt originalModel); [|reflexivity].
      destruct originalModel as [original|]; [|reflexivity].
      destruct (getFallbackModel original); [|reflexivity].
      rewrite Hoff. reflexivity.
Qed.

Lemma other_failure_status_is_fatal_witness :
  performStreamRequest
    (decoder := Demo.latin1) (json := Demo.toy_json)
    (authManager := Demo.counting_auth) (requests := Demo.plain_requests)
    (mkEnv None None None None None)
    [mkResponse 429 None;
     mkResponse 200 (Some [Demo.bytes "data: thello" ++ Demo.NL ++ Demo.NL])]
    (mkClient (authManager := Demo.counting_auth) 1%N None)
    (mkStreamRequest (requests := Demo.plain_requests)
                     (lit "gemini-2.5-pro") (lit "project") [lit "hi"])
    false false false (Some (lit "gemini-2.5-pro"))
  = mkRun [] (Some (mkError (lit "Stream request failed: 429")))
          (mkClient (authManager := Demo.counting_auth) 1%N None)
          [mkResponse 200
             (Some [Demo.bytes "data: thello" ++ Demo.NL ++ Demo.NL])]
          [CallFetch (lit "token-1")
             (mkStreamRequest (requests := Demo.plain_requests)
                (lit "gemini-2.5-pro") (lit "project") [lit "hi"])].
Proof.
  apply (other_failure_status_is_fatal
           (decoder := Demo.latin1) (json := Demo.toy_json)
           (authManager := Demo.counting_auth)
           (requests := Demo.plain_requests)
           (mkEnv None None None None None)
           (mkResponse 429 None)).
  - reflexivity.
  - discriminate.
  - intros _. right. right. reflexivity.
Defined.

Lemma rate_limit_detection_on_status_codes :
  forallb (fun n => Bool.eqb (isRateLimitError (stream_request_failed n))
                             (isRateLimitStatus n))
          status_codes = true.
Proof. vm_compute. reflexivity. Qed.

(** X11. The error a failed stream throws is recognised as a rate-limit
    error exactly when the status was a rate-limit status: for every status
    code up to 999, [isRateLimitError] of [Stream request failed: <status>]
    is [isRateLimitStatus] of the status, that is, true for 429 and 503
    only. *)
Theorem rate_limit_error_matches_status (status : N) :
  (status <= 999)%N ->
  isRateLimitError (stream_request_failed status) = isRateLimitStatus status.
Proof.
  intros Hs.
  pose proof rate_limit_detection_on_status_codes as H.
  rewrite forallb_forall in H.
  apply Bool.eqb_prop, H. unfold status_codes.
  apply in_map_iff. exists (N.to_nat status).
  split; [apply N2Nat.id|]. apply in_seq. lia.
Qed.

Lemma rate_limit_error_matches_status_witness :
  isRateLimitError (stream_request_failed 503) = true
  /\ isRateLimitError (stream_request_failed 500) = false.
Proof.
  split.
  - rewrite (rate_limit_error_matches_status 503); [reflexivity|lia].
  - rewrite (rate_limit_error_matches_status 500); [reflexivity|lia].
Defined.

(** X12. A discovered project is discovered once: after a call of
    [discoverProjectId] that returned a project, a further call on the
    client it left returns the same project without calling the upstream and
    leaves the client as it is. *)
Theorem discovered_project_is_cached
        {authManager : AuthManager} {requests : RequestModel}
        (env : Env) (client client' : Client) (project : jsstring)
        (calls : list Action) :
  discoverProjectId env client = (inr project, client', calls) ->
  discoverProjectId env client' = (inr project, client', []).
Proof.
  unfold discoverProjectId.
  destruct (truthy_opt (GEMINI_PROJECT_ID env)) eqn:Eenv.
  - intros H. injection H as <- <- _. reflexivity.
  - destruct (truthy_opt (projectId client)) eqn:Ecache.
    + intros H. injection H as <- <- _. rewrite Ecache. reflexivity.
    + destruct (loadCodeAssist (auth client)) as [[p|] called];
        [|discriminate].
      destruct (truthy p) eqn:Ep; [|discriminate].
      intros H. injection H as <- <- _.
      cbn [projectId truthy_opt]. rewrite Ep. reflexivity.
Qed.

Lemma discovered_project_is_cached_witness :
  discoverProjectId
    (authManager := Demo.counting_auth) (requests := Demo.plain_requests)
    (mkEnv None None None None None)
    (mkClient (authManager := Demo.counting_auth) 1%N (Some (lit "project")))
  = (inr (lit "project"),
     mkClient (authManager := Demo.counting_auth) 1%N (Some (lit "project")),
     []).
Proof.
  apply (discovered_project_is_cached
           (authManager := Demo.counting_auth)
           (requests := Demo.plain_requests)
           (mkEnv None None None None None)
           (mkClient (authManager := Demo.counting_auth) 1%N None)
           _ _ [CallLoadCodeAssist]).
  reflexivity.
Defined.

(** X13. A completion fails with the error of its stream, unchanged, when
    that error is no rate-limit error or automatic switching is not
    enabled. *)
Theorem completion_error_is_rethrown
        {decoder : TextDecoder} {json : JsonParser}
        {authManager : AuthManager} {requests : RequestModel}
        (env : Env) (upstream : list Response) (client : Client)
        (modelId systemPrompt : jsstring) (messages : list ChatMessage)
        (options : option Options) (error : Error) :
  thrown (streamContent env upstream client modelId systemPrompt messages
                        options) = Some error ->
  isRateLimitError error = false \/ isEnabled env = false ->
  returned (getCompletion env upstream client modelId systemPrompt messages
                          options) = inl error.
Proof.
  intros Hthrown Hno. unfold getCompletion. rewrite Hthrown.
  destruct (isRateLimitError error); [|reflexivity].
  destruct Hno as [Hno|Hno]; [discriminate|].
  unfold handleNonStreamingFallback. cbn [returned].
  destruct (getFallbackModel modelId); [|reflexivity].
  rewrite Hno. reflexivity.
Qed.

Lemma completion_error_is_rethrown_witness :
  returned
    (getCompletion
       (decoder := Demo.latin1) (json := Demo.toy_json)
       (authManager := Demo.counting_auth) (requests := Demo.plain_requests)
       (mkEnv (Some (lit "project")) None None None None)
       [mkResponse 429 None;
        mkResponse 200
          (Some [Demo.bytes "data: thello" ++ Demo.NL ++ Demo.NL])]
       (mkClient (authManager := Demo.counting_auth) 0%N None)
       (lit "gemini-2.5-pro") [] [lit "hi"] None)
  = inl (mkError (lit "Stream request failed: 429")).
Proof.
  apply (completion_error_is_rethrown
           (decoder := Demo.latin1) (json := Demo.toy_json)
           (authManager := Demo.counting_auth)
           (requests := Demo.plain_requests)
           (mkEnv (Some (lit "project")) None None None None)).
  - reflexivity.
  - right. reflexivity.
Defined.

(** ** What the serializer forwards *)
Section Forwarding.

Import StreamTransformer.

Variables (OPENAI_CHAT_COMPLETION_OBJECT chatID : jsstring)
          (creationTime : Z) (model_ : jsstring).

#[local] Abbreviation transform_all :=
  (transform_all OPENAI_CHAT_COMPLETION_OBJECT chatID creationTime model_).
#[local] Abbreviation transform :=
  (transform OPENAI_CHAT_COMPLETION_OBJECT chatID creationTime model_).
#[local] Abbreviation openAIChunk :=
  (openAIChunk OPENAI_CHAT_COMPLETION_OBJECT chatID creationTime model_).
#[local] Abbreviation serialize :=
  (createOpenAIStreamTransformer OPENAI_CHAT_COMPLETION_OBJECT chatID
                                 creationTime model_).

Lemma streamed_content_app (a b : list Enqueued) :
  streamed_content (a ++ b) = streamed_content a ++ streamed_content b.
Proof. unfold streamed_content. rewrite map_app, concat_app. reflexivity. Qed.

Lemma streamed_reasoning_app (a b : list Enqueued) :
  streamed_reasoning (a ++ b) = streamed_reasoning a ++ streamed_reasoning b.
Proof.
  unfold streamed_reasoning. rewrite map_app, concat_app. reflexivity.
Qed.

Lemma content_text_cons (c : StreamChunk) (chunks : list StreamChunk) :
  content_text (c :: chunks)
  = (if is_content_chunk c then string_data c else []) ++ content_text chunks.
Proof.
  unfold content_text. cbn [filter].
  destruct (is_content_chunk c); reflexivity.
Qed.

(** One call of [transform] forwards the content and the reasoning of its
    chunk. *)
Lemma transform_forwards (firstChunk : bool) (chunk : StreamChunk) :
  streamed_content (map Data (snd (transform firstChunk chunk)))
  = (if is_content_chunk chunk then string_data chunk else [])
  /\ streamed_reasoning (map Data (snd (transform firstChunk chunk)))
     = reasoning_data chunk.
Proof.
  unfold transform, streamed_content, streamed_reasoning.
  destruct chunk as [ty [s|u|rd]]; destruct ty;
    cbn [type data is_content_chunk string_data reasoning_data];
    try (split; reflexivity);
    try (destruct s as [|x s]; cbn; rewrite ?app_nil_r; split; reflexivity).
  cbn. rewrite app_nil_r. split; reflexivity.
Qed.

Lemma transform_all_forwards (chunks : list StreamChunk) :
  forall firstChunk,
    streamed_content (map Data (transform_all firstChunk chunks))
    = content_text chunks
    /\ streamed_reasoning (map Data (transform_all firstChunk chunks))
       = reasoning_content chunks.
Proof.
  induction chunks as [|c chunks IH]; intros firstChunk; [split; reflexivity|].
  cbn [StreamTransformer.transform_all].
  destruct (transform_forwards firstChunk c) as [Hc Hr].
  destruct (transform firstChunk c) as [firstChunk' out]. cbn [snd] in Hc, Hr.
  destruct (IH firstChunk') as [IHc IHr].
  rewrite map_app, streamed_content_app, streamed_reasoning_app.
  rewrite Hc, Hr, IHc, IHr, content_text_cons. split; reflexivity.
Qed.

Lemma serialize_forwards (chunks : list StreamChunk) :
  streamed_content (serialize chunks) = content_text chunks
  /\ streamed_reasoning (serialize chunks) = reasoning_content chunks.
Proof.
  unfold createOpenAIStreamTransformer.
  rewrite streamed_content_app, streamed_reasoning_app.
  destruct (transform_all_forwards chunks true) as [Hc Hr].
  rewrite Hc, Hr. cbn. rewrite !app_nil_r. split; reflexivity.
Qed.

Lemma transform_all_without_usage (chunks : list StreamChunk) :
  forall firstChunk,
    transform_all firstChunk
      (filter (fun c => negb (is_usage_chunk c)) chunks)
    = transform_all firstChunk chunks.
Proof.
  induction chunks as [|c chunks IH]; intros firstChunk; [reflexivity|].
  cbn [filter]. destruct c as [ty d]. destruct ty;
    cbn [is_usage_chunk type negb StreamTransformer.transform_all];
    try (destruct (transform firstChunk _) as [firstChunk' out];
         rewrite IH; reflexivity).
  unfold StreamTransformer.transform. cbn [type data].
  destruct d; cbn [app]; apply IH.
Qed.

Lemma transform_envelope (firstChunk : bool) (chunk : StreamChunk) :
  Forall (same_envelope OPENAI_CHAT_COMPLETION_OBJECT chatID creationTime
                        model_)
         (snd (transform firstChunk chunk))
  /\ List.length (snd (transform firstChunk chunk)) <= 1.
Proof.
  unfold StreamTransformer.transform.
  destruct chunk as [ty [s|u|rd]]; destruct ty; cbn [type data];
    try destruct (truthy s); cbn [snd List.length];
    (split; [repeat constructor|lia]).
Qed.

Lemma transform_all_envelope (chunks : list StreamChunk) :
  forall firstChunk,
    Forall (same_envelope OPENAI_CHAT_COMPLETION_OBJECT chatID creationTime
                          model_)
           (transform_all firstChunk chunks)
    /\ List.length (transform_all firstChunk chunks) <= List.length chunks.
Proof.
  induction chunks as [|c chunks IH]; intros firstChunk;
    [split; [constructor|cbn; lia]|].
  cbn [StreamTransformer.transform_all].
  destruct (transform_envelope firstChunk c) as [H1 L1].
  destruct (transform firstChunk c) as [firstChunk' out]. cbn [snd] in H1, L1.
  destruct (IH firstChunk') as [H2 L2].
  split; [apply Forall_app; split; assumption|].
  rewrite length_app. cbn [List.length]. lia.
Qed.

(** The flag with which the last chunk of a stream is transformed. *)
Lemma transform_all_snoc (chunks : list StreamChunk) (c : StreamChunk) :
  forall firstChunk,
    exists firstChunk',
      transform_all firstChunk (chunks ++ [c])
      = transform_all firstChunk chunks ++ snd (transform firstChunk' c).
Proof.
  induction chunks as [|x chunks IH]; intros firstChunk.
  - exists firstChunk. cbn [app StreamTransformer.transform_all].
    destruct (transform firstChunk c) as [b out].
    cbn [snd StreamTransformer.transform_all]. apply app_nil_r.
  - cbn [app StreamTransformer.transform_all].
    destruct (transform firstChunk x) as [b out].
    destruct (IH b) as [b' Hb']. exists b'.
    rewrite Hb', app_assoc. reflexivity.
Qed.

End Forwarding.

(** X14. The serializer loses and reorders nothing: joined in order, the
    [content] deltas of a response are the data of the text and
    thinking-as-content chunks of the stream, and its [reasoning] deltas are
    the texts of the real-thinking chunks and the sentences of the reasoning
    chunks. *)
Theorem serializer_forwards_content
        (object_ chatID : jsstring) (creationTime : Z) (model_ : jsstring)
        (chunks : list StreamChunk) :
  streamed_content
    (StreamTransformer.createOpenAIStreamTransformer
       object_ chatID creationTime model_ chunks)
  = content_text chunks
  /\ streamed_reasoning
       (StreamTransformer.createOpenAIStreamTransformer
          object_ chatID creationTime model_ chunks)
     = reasoning_content chunks.
Proof. apply serialize_forwards. Qed.

(** X15. Usage chunks are never forwarded to a streaming client: a stream
    and the same stream without its chunks of type [usage] are serialized to
    the same response. *)
Theorem usage_is_not_streamed
        (object_ chatID : jsstring) (creationTime : Z) (model_ : jsstring)
        (chunks : list StreamChunk) :
  StreamTransformer.createOpenAIStreamTransformer
    object_ chatID creationTime model_
    (filter (fun c => negb (is_usage_chunk c)) chunks)
  = StreamTransformer.createOpenAIStreamTransformer
      object_ chatID creationTime model_ chunks.
Proof.
  unfold StreamTransformer.createOpenAIStreamTransformer.
  rewrite transform_all_without_usage. reflexivity.
Qed.

(** X16. A response is a run of data chunks, at most one per chunk of the
    stream, then the final chunk, then the [[DONE]] line; every data chunk
    carries the id, the object name, the creation time and the model of the
    final chunk. *)
Theorem response_envelope_is_stable
        (object_ chatID : jsstring) (creationTime : Z) (model_ : jsstring)
        (chunks : list StreamChunk) :
  exists datas,
    StreamTransformer.createOpenAIStreamTransformer
      object_ chatID creationTime model_ chunks
    = map StreamTransformer.Data datas
      ++ [StreamTransformer.Final chatID object_ creationTime model_;
          StreamTransformer.DONE]
    /\ Forall (same_envelope object_ chatID creationTime model_) datas
    /\ List.length datas <= List.length chunks.
Proof.
  exists (StreamTransformer.transform_all object_ chatID creationTime model_
            true chunks).
  split; [reflexivity|]. apply transform_all_envelope.
Qed.

(** X17. A stream that throws is reported in band: the streaming route still
    answers with the data chunks of what was yielded, then one content chunk
    [Error: <message>], then the final chunk and the [[DONE]] line.  The
    error chunk announces the role when no content chunk came before it. *)
Theorem stream_error_is_reported_in_band
        {authManager : AuthManager} {requests : RequestModel}
        (object_ chatID : jsstring) (creationTime : Z) (model_ : jsstring)
        (run : Run) (e : Error) :
  thrown run = Some e ->
  StreamTransformer.createOpenAIStreamTransformer
    object_ chatID creationTime model_ (written_chunks run)
  = map StreamTransformer.Data
        (StreamTransformer.transform_all object_ chatID creationTime model_
           true (map chunk_of (fragments run)))
    ++ [StreamTransformer.Data
          (StreamTransformer.openAIChunk object_ chatID creationTime model_
             (StreamTransformer.mkDelta
                (if forallb
                      (fun x => negb (has_content (StreamTransformer.Data x)))
                      (StreamTransformer.transform_all
                         object_ chatID creationTime model_ true
                         (map chunk_of (fragments run)))
                 then Some (lit "assistant") else None)
                (Some (lit "Error: " ++ message e)) None));
        StreamTransformer.Final chatID object_ creationTime model_;
        StreamTransformer.DONE].
Proof.
  intros Hthrown. unfold written_chunks. rewrite Hthrown.
  unfold StreamTransformer.createOpenAIStreamTransformer,
    StreamTransformer.flush.
  destruct (transform_all_snoc object_ chatID creationTime model_
              (map chunk_of (fragments run)) (error_chunk e) true)
    as [b Hb].
  assert (Ht : snd (StreamTransformer.transform object_ chatID creationTime
                      model_ b (error_chunk e))
               = [StreamTransformer.openAIChunk object_ chatID creationTime
                    model_
                    (StreamTransformer.with_role
                       b (lit "Error: " ++ message e))])
    by reflexivity.
  rewrite Ht in Hb.
  pose proof (role_by_position object_ chatID creationTime model_ _ _ _ _ _
                Hb) as Hrole.
  rewrite Hb, map_app, <- app_assoc. f_equal.
  cbn [map app]. f_equal. f_equal. f_equal.
  unfold StreamTransformer.with_role. f_equal.
  exact Hrole.
Qed.

Lemma stream_error_is_reported_in_band_witness :
  StreamTransformer.createOpenAIStreamTransformer
    (lit "chat.completion.chunk") (lit "chatcmpl-1") 0 (lit "gemini-2.5-pro")
    (written_chunks
       (authManager := Demo.counting_auth) (requests := Demo.plain_requests)
       (mkRun [] (Some (mkError (lit "Stream request failed: 500")))
              (mkClient (authManager := Demo.counting_auth) 1%N None)
              [] []))
  = [StreamTransformer.Data
       (StreamTransformer.mkOpenAIChunk
          (lit "chatcmpl-1") (lit "chat.completion.chunk") 0
          (lit "gemini-2.5-pro")
          (StreamTransformer.mkDelta
             (Some (lit "assistant"))
             (Some (lit "Error: Stream request failed: 500")) None));
     StreamTransformer.Final (lit "chatcmpl-1") (lit "chat.completion.chunk")
                             0 (lit "gemini-2.5-pro");
     StreamTransformer.DONE].
Proof.
  apply (stream_error_is_reported_in_band
           (authManager := Demo.counting_auth)
           (requests := Demo.plain_requests)
           (lit "chat.completion.chunk") (lit "chatcmpl-1") 0
           (lit "gemini-2.5-pro")
           (mkRun [] (Some (mkError (lit "Stream request failed: 500")))
                  (mkClient (authManager := Demo.counting_auth) 1%N None)
                  [] [])
           (mkError (lit "Stream request failed: 500"))).
  reflexivity.
Defined.

(** ** Streaming and non-streaming answers *)
Section Agreement.

Context {decoder : TextDecoder} {json : JsonParser}
        {authManager : AuthManager} {requests : RequestModel}.

Variable env : Env.

Lemma content_text_without_thinking (fs : list Fragment) :
  Forall (fun f => is_thinking_content f = false) fs ->
  content_text (map chunk_of fs) = text_content (map chunk_of fs).
Proof.
  induction 1 as [|f fs Hf _ IH]; [reflexivity|].
  cbn [map]. rewrite content_text_cons, text_content_cons, IH.
  unfold is_content_chunk, is_text_chunk.
  unfold is_thinking_content in Hf.
  destruct (type (chunk_of f)); try discriminate Hf; reflexivity.
Qed.

Lemma stream_events_without_thinking (evs : list GeminiResponse) :
  Forall (fun f => is_thinking_content f = false)
         (stream_events false false evs).
Proof.
  apply handle_events_all; [|reflexivity].
  intros st part.
  pose proof (handle_part_metadata_mode false st part) as H.
  rewrite Forall_forall in *. intros f Hin.
  destruct (H f Hin) as [Htc Hclose]. rewrite Htc.
  destruct (is_close f); [|reflexivity].
  symmetry. apply Hclose. reflexivity.
Qed.

Lemma performStreamRequest_without_thinking (upstream : list Response) :
  forall (client : Client) (streamRequest : StreamRequest) (isRetry : bool)
         (originalModel : option jsstring),
    Forall (fun f => is_thinking_content f = false)
           (fragments (performStreamRequest env upstream client streamRequest
                         false isRetry false originalModel)).
Proof.
  induction upstream as [|response upstream IH];
    intros client streamRequest isRetry originalModel; [constructor|].
  cbn [performStreamRequest].
  repeat match goal with
         | |- context [if ?b then _ else _] => destruct b
         | |- context [match ?x with Some _ => _ | None => _ end] =>
             destruct x
         | |- context [match ?x with inl _ => _ | inr _ => _ end] =>
             destruct x
         end;
    cbn [after fragments app];
    first [ apply IH
          | constructor; [reflexivity|apply IH]
          | apply stream_events_without_thinking
          | constructor ].
Qed.

Lemma streamContent_without_thinking (upstream : list Response)
      (client : Client) (modelId systemPrompt : jsstring)
      (messages : list ChatMessage) (options : option Options) :
  is_true (STREAM_THINKING_AS_CONTENT env) = false ->
  Forall (fun f => is_thinking_content f = false)
         (fragments (streamContent env upstream client modelId systemPrompt
                                   messages options)).
Proof.
  intros Hmode. unfold streamContent.
  destruct (initializeAuth (auth client)) as [e|a]; [constructor|].
  destruct (discoverProjectId env (mkClient a (projectId client)))
    as [[[e|p] client2] acts]; [constructor|].
  destruct (buildPayload modelId systemPrompt messages options)
    as [e|payload]; [constructor|].
  rewrite Hmode, andb_false_r.
  unfold after. cbn [fragments]. apply Forall_app. split.
  - destruct (isThinkingModel modelId && is_true (ENABLE_FAKE_THINKING env)
              && negb (includeReasoning_of options)); [|constructor].
    unfold generateReasoningOutput.
    induction (reasoningTexts messages); constructor; auto.
  - replace (if isThinkingModel modelId && is_true (ENABLE_FAKE_THINKING env)
                && negb (includeReasoning_of options)
             then false else false) with false
      by (destruct (isThinkingModel modelId
                    && is_true (ENABLE_FAKE_THINKING env)
                    && negb (includeReasoning_of options)); reflexivity).
    apply performStreamRequest_without_thinking.
Qed.

End Agreement.

(** X18. Unless thinking is streamed as content, streaming and not streaming
    give the same answer: when the stream of a request does not throw and
    [STREAM_THINKING_AS_CONTENT] is not [true], the completion succeeds and
    its content is what a streaming client reads when it joins the [content]
    deltas of the streamed response. *)
Theorem streamed_content_is_completion_content
        {decoder : TextDecoder} {json : JsonParser}
        {authManager : AuthManager} {requests : RequestModel}
        (env : Env) (upstream : list Response) (client : Client)
        (modelId systemPrompt : jsstring) (messages : list ChatMessage)
        (options : option Options)
        (object_ chatID : jsstring) (creationTime : Z) :
  is_true (STREAM_THINKING_AS_CONTENT env) = false ->
  thrown (streamContent env upstream client modelId systemPrompt messages
                        options) = None ->
  exists completion,
    returned (getCompletion env upstream client modelId systemPrompt messages
                            options) = inr completion
    /\ completion_content completion
       = streamed_content
           (StreamTransformer.createOpenAIStreamTransformer
              object_ chatID creationTime modelId
              (written_chunks
                 (streamContent env upstream client modelId systemPrompt
                                messages options))).
Proof.
  intros Hmode Hthrown. unfold getCompletion, written_chunks.
  rewrite Hthrown. cbn [returned]. eexists. split; [reflexivity|].
  rewrite collect_all_chunks. cbn [completion_content app].
  rewrite app_nil_r.
  rewrite (proj1 (serialize_forwards object_ chatID creationTime modelId _)).
  symmetry. apply content_text_without_thinking.
  apply streamContent_without_thinking. exact Hmode.
Qed.

Lemma streamed_content_is_completion_content_witness :
  exists completion,
    returned
      (getCompletion
         (decoder := Demo.latin1) (json := Demo.toy_json)
         (authManager := Demo.counting_auth)
         (requests := Demo.plain_requests)
         (mkEnv (Some (lit "project")) (Some (lit "true")) None None None)
         [mkResponse 200
            (Some [Demo.bytes "data: t<think>A</think>B" ++ Demo.NL
                     ++ Demo.NL ++ Demo.bytes "data: tC" ++ Demo.NL])]
         (mkClient (authManager := Demo.counting_auth) 0%N None)
         (lit "gemini-2.5-pro") [] [lit "hi"] None)
    = inr completion
    /\ completion_content completion = lit "BC".
Proof.
  destruct (streamed_content_is_completion_content
              (decoder := Demo.latin1) (json := Demo.toy_json)
              (authManager := Demo.counting_auth)
              (requests := Demo.plain_requests)
              (mkEnv (Some (lit "project")) (Some (lit "true")) None None
                     None)
              [mkResponse 200
                 (Some [Demo.bytes "data: t<think>A</think>B" ++ Demo.NL
                          ++ Demo.NL ++ Demo.bytes "data: tC" ++ Demo.NL])]
              (mkClient (authManager := Demo.counting_auth) 0%N None)
              (lit "gemini-2.5-pro") [] [lit "hi"] None
              (lit "chat.completion.chunk") (lit "chatcmpl-1") 0
              eq_refl eq_refl) as (completion & Hr & Hc).
  exists completion. split; [exact Hr|]. rewrite Hc. reflexivity.
Defined.

(** ** The narrative and its chunks *)

Lemma lastIndexOf_bounds (s : jsstring) (c : N) :
  (-1 <= lastIndexOf s c < Z.of_nat (List.length s))%Z.
Proof.
  induction s as [|x s IH]; [cbn; lia|].
  cbn [lastIndexOf List.length].
  destruct (0 <=? lastIndexOf s c)%Z eqn:E.
  - apply Z.leb_le in E. lia.
  - destruct (x =? c)%N; lia.
Qed.

Lemma find_break_bounds (searchSpace : jsstring) (breaks : list N) :
  12 <= Narrative.find_break searchSpace breaks 15
  /\ Narrative.find_break searchSpace breaks 15
     <= Nat.max 15 (List.length searchSpace).
Proof.
  induction breaks as [|b breaks IH]; [cbn [Narrative.find_break]; lia|].
  cbn [Narrative.find_break].
  pose proof (lastIndexOf_bounds searchSpace b) as Hb.
  destruct (10 <? lastIndexOf searchSpace b)%Z eqn:E; [|exact IH].
  apply Z.ltb_lt in E. lia.
Qed.

Lemma split_chunks_spec (iterations : nat) :
  forall remainingText : jsstring,
    List.length remainingText <= iterations ->
    List.concat (Narrative.split_chunks iterations remainingText)
    = remainingText
    /\ Forall (fun c => 1 <= List.length c <= 25)
              (Narrative.split_chunks iterations remainingText)
    /\ Forall (fun c => 12 <= List.length c)
              (removelast (Narrative.split_chunks iterations remainingText)).
Proof.
  induction iterations as [|iterations IH]; intros remainingText Hlen.
  - destruct remainingText; [|cbn in Hlen; lia].
    repeat split; constructor.
  - cbn [Narrative.split_chunks].
    destruct remainingText as [|x s] eqn:Es; [repeat split; constructor|].
    rewrite <- Es in *.
    assert (Hpos : 1 <= List.length remainingText)
      by (rewrite Es; cbn; lia).
    unfold Narrative.THINKING_CONTENT_CHUNK_SIZE.
    destruct (List.length remainingText <=? 15) eqn:E15.
    + apply Nat.leb_le in E15. cbn [List.concat removelast].
      rewrite app_nil_r.
      split; [reflexivity|]. split; [|constructor].
      constructor; [lia|constructor].
    + apply Nat.leb_gt in E15.
      cbn zeta.
      pose proof (find_break_bounds (firstn (15 + 10) remainingText)
                                    Narrative.goodBreaks) as [Hlo Hhi].
      rewrite length_firstn in Hhi.
      set (chunkEnd := Narrative.find_break (firstn (15 + 10) remainingText)
                                            Narrative.goodBreaks 15) in *.
      assert (Hend : chunkEnd <= List.length remainingText) by lia.
      assert (Hend' : chunkEnd <= 25) by lia.
      destruct (IH (skipn chunkEnd remainingText)) as (Hc & Hall & Hmin).
      { rewrite length_skipn. lia. }
      assert (Hfirst : List.length (firstn chunkEnd remainingText) = chunkEnd)
        by (rewrite length_firstn; lia).
      split; [|split].
      * cbn [List.concat]. rewrite Hc. apply firstn_skipn.
      * constructor; [lia|exact Hall].
      * destruct (Narrative.split_chunks iterations
                    (skipn chunkEnd remainingText)) as [|c cs] eqn:Ecs;
          [constructor|].
        rewrite removelast_cons_ne by discriminate.
        constructor; [lia|exact Hmin].
Qed.

(** X19. Cutting the narrative into chunks loses nothing: joined in order,
    the chunks of a text are the text; in particular the loop ends for
    every text. *)
Theorem narrative_chunks_rebuild_the_text (fullReasoningText : jsstring) :
  List.concat (Narrative.chunks fullReasoningText) = fullReasoningText.
Proof. apply split_chunks_spec. apply Nat.le_refl. Qed.

Lemma lastIndexOf_found (s : jsstring) (c : N) :
  (0 <= lastIndexOf s c)%Z ->
  nth (Z.to_nat (lastIndexOf s c)) s 0%N = c.
Proof.
  induction s as [|x s IH]; [cbn; lia|].
  cbn [lastIndexOf].
  destruct (0 <=? lastIndexOf s c)%Z eqn:E.
  - apply Z.leb_le in E. intros _.
    replace (Z.to_nat (lastIndexOf s c + 1))
      with (S (Z.to_nat (lastIndexOf s c))) by lia.
    cbn [nth]. apply IH. exact E.
  - destruct (x =? c)%N eqn:Ex; [|lia].
    intros _. apply N.eqb_eq in Ex. exact Ex.
Qed.

Lemma last_is_nth (l : jsstring) :
  l <> [] -> last l 0%N = nth (List.length l - 1) l 0%N.
Proof.
  induction l as [|x l IH]; [congruence|]. intros _.
  destruct l as [|y l]; [reflexivity|].
  change (last (x :: y :: l) 0%N) with (last (y :: l) 0%N).
  rewrite IH by discriminate. cbn [List.length Nat.sub nth].
  rewrite Nat.sub_0_r. reflexivity.
Qed.

Lemma find_break_ends (searchSpace : jsstring) (breaks : list N) :
  Narrative.find_break searchSpace breaks 15 = 15
  \/ In (nth (Narrative.find_break searchSpace breaks 15 - 1) searchSpace
             0%N)
        breaks.
Proof.
  induction breaks as [|b breaks IH]; [left; reflexivity|].
  cbn [Narrative.find_break].
  destruct (10 <? lastIndexOf searchSpace b)%Z eqn:E.
  - apply Z.ltb_lt in E. right. left.
    replace (Z.to_nat (lastIndexOf searchSpace b + 1) - 1)
      with (Z.to_nat (lastIndexOf searchSpace b)) by lia.
    symmetry. apply lastIndexOf_found. lia.
  - destruct IH as [IH|IH]; [left; exact IH|right; right; exact IH].
Qed.

Lemma split_chunks_ends (iterations : nat) :
  forall remainingText : jsstring,
    Forall (fun c => List.length c = 15
                     \/ In (last c 0%N) Narrative.goodBreaks)
           (removelast (Narrative.split_chunks iterations remainingText)).
Proof.
  induction iterations as [|iterations IH]; intros remainingText;
    [constructor|].
  cbn [Narrative.split_chunks].
  destruct remainingText as [|x s] eqn:Es; [constructor|].
  rewrite <- Es.
  unfold Narrative.THINKING_CONTENT_CHUNK_SIZE.
  destruct (List.length remainingText <=? 15) eqn:E15; [constructor|].
  apply Nat.leb_gt in E15. cbn zeta.
  pose proof (find_break_bounds (firstn (15 + 10) remainingText)
                                Narrative.goodBreaks) as [Hlo Hhi].
  pose proof (find_break_ends (firstn (15 + 10) remainingText)
                              Narrative.goodBreaks) as Hends.
  rewrite length_firstn in Hhi.
  set (chunkEnd := Narrative.find_break (firstn (15 + 10) remainingText)
                                        Narrative.goodBreaks 15) in *.
  destruct (Narrative.split_chunks iterations
              (skipn chunkEnd remainingText)) as [|c cs] eqn:Ecs;
    [constructor|].
  rewrite removelast_cons_ne by discriminate.
  constructor.
  - assert (Hfirst : List.length (firstn chunkEnd remainingText) = chunkEnd)
      by (rewrite length_firstn; lia).
    destruct Hends as [H15|Hbreak]; [left; lia|right].
    rewrite last_is_nth.
    + rewrite Hfirst, nth_firstn.
      replace (chunkEnd - 1 <? chunkEnd) with true
        by (symmetry; apply Nat.ltb_lt; lia).
      rewrite nth_firstn in Hbreak.
      replace (chunkEnd - 1 <? 15 + 10) with true in Hbreak
        by (symmetry; apply Nat.ltb_lt; lia).
      exact Hbreak.
    + intros Hnil. rewrite Hnil in Hfirst.
      cbn [List.length] in Hfirst. lia.
  - rewrite <- Ecs. apply IH.
Qed.

(** X20. Every chunk of the narrative holds between 1 and 25 code units;
    every chunk but the last holds at least 12, and it holds exactly 15 or
    ends with one of the break characters (space, line feed, full stop,
    comma, exclamation mark, question mark, semicolon, colon). *)
Theorem narrative_chunks_are_bounded (fullReasoningText : jsstring) :
  Forall (fun c => 1 <= List.length c <= 25)
         (Narrative.chunks fullReasoningText)
  /\ Forall (fun c => 12 <= List.length c)
            (removelast (Narrative.chunks fullReasoningText))
  /\ Forall (fun c => List.length c = 15
                      \/ In (last c 0%N) Narrative.goodBreaks)
            (removelast (Narrative.chunks fullReasoningText)).
Proof.
  destruct (split_chunks_spec (List.length fullReasoningText)
              fullReasoningText (Nat.le_refl _)) as (_ & Hall & Hmin).
  split; [exact Hall|]. split; [exact Hmin|].
  apply split_chunks_ends.
Qed.

Lemma GetSubstitution_plain (matched before after replacement : jsstring) :
  ~ In 36%N replacement ->
  GetSubstitution matched before after replacement = replacement.
Proof.
  induction replacement as [|c r IH]; intros Hno; [reflexivity|].
  cbn [GetSubstitution].
  destruct (c =? 36)%N eqn:E.
  - apply N.eqb_eq in E. exfalso. apply Hno. left. exact E.
  - rewrite IH; [reflexivity|]. intros Hin. apply Hno. right. exact Hin.
Qed.

Lemma reasoningTexts_plain (requestPreview : jsstring) :
  ~ In 36%N requestPreview ->
  Narrative.reasoningTexts requestPreview
  = ([55357; 56589]%N ++ lit " **Analyzing the request: "
       ++ [Narrative.QUOTE] ++ requestPreview ++ [Narrative.QUOTE]
       ++ lit "**" ++ [LF; LF])
    :: tl Narrative.REASONING_MESSAGES.
Proof.
  intros Hno. unfold Narrative.reasoningTexts, Narrative.REASONING_MESSAGES.
  cbn [map tl]. f_equal.
  unfold String_replace.
  match goal with
  | |- match ?l with _ => _ end = _ =>
      let v := eval vm_compute in l in change l with v
  end.
  cbv iota beta. rewrite GetSubstitution_plain by exact Hno.
  reflexivity.
Qed.

(** X21. A request preview without a dollar sign is quoted as it is: the
    reasoning chunks of the narrative are five sentences, the first holds
    the preview of the last user message between the quotes, and the other
    four do not depend on the request. *)
Theorem preview_is_quoted_verbatim (messages : list Chat.ChatMessage) :
  ~ In 36%N (Narrative.requestPreview (Narrative.userContent messages)) ->
  Narrative.generateReasoningOutput messages false
  = map (fun t => Reasoning (mkReasoning t))
        (([55357; 56589]%N ++ lit " **Analyzing the request: "
            ++ [Narrative.QUOTE]
            ++ Narrative.requestPreview (Narrative.userContent messages)
            ++ [Narrative.QUOTE] ++ lit "**" ++ [LF; LF])
         :: tl Narrative.REASONING_MESSAGES).
Proof.
  intros Hno. unfold Narrative.generateReasoningOutput.
  rewrite (reasoningTexts_plain _ Hno). reflexivity.
Qed.

Lemma preview_is_quoted_verbatim_witness :
  hd OpenThinking
     (Narrative.generateReasoningOutput
        [Chat.mkChatMessage (lit "user") (Chat.Str (lit "first"));
         Chat.mkChatMessage (lit "assistant") (Chat.Str (lit "$&"));
         Chat.mkChatMessage
           (lit "user")
           (Chat.Items
              [Chat.mkMessageContent (lit "text") (Some (lit "2+2")) None;
               Chat.mkMessageContent (lit "image_url") None None;
               Chat.mkMessageContent (lit "text") (Some (lit "is?")) None])]
        false)
  = Reasoning
      (mkReasoning
         ([55357; 56589]%N ++ lit " **Analyzing the request: "
            ++ [Narrative.QUOTE] ++ lit "2+2 is?" ++ [Narrative.QUOTE]
            ++ lit "**" ++ [LF; LF])).
Proof.
  rewrite (preview_is_quoted_verbatim
             [Chat.mkChatMessage (lit "user") (Chat.Str (lit "first"));
              Chat.mkChatMessage (lit "assistant") (Chat.Str (lit "$&"));
              Chat.mkChatMessage
                (lit "user")
                (Chat.Items
                   [Chat.mkMessageContent (lit "text") (Some (lit "2+2"))
                                          None;
                    Chat.mkMessageContent (lit "image_url") None None;
                    Chat.mkMessageContent (lit "text") (Some (lit "is?"))
                                          None])]).
  - reflexivity.
  - intros H. vm_compute in H.
    repeat (destruct H as [H|H]; [discriminate H|]). exact H.
Defined.

(** ** The generation configuration *)

Lemma eqb_refl (s : jsstring) : JS.eqb s s = true.
Proof.
  induction s as [|x s IH]; [reflexivity|].
  cbn [JS.eqb]. rewrite N.eqb_refl. exact IH.
Qed.

Lemma eqb_eq (a b : jsstring) : JS.eqb a b = true -> a = b.
Proof.
  revert b. induction a as [|x a IH]; intros [|y b] H;
    try discriminate H; [reflexivity|].
  cbn [JS.eqb] in H. apply andb_prop in H. destruct H as [Hx Hab].
  apply N.eqb_eq in Hx. rewrite Hx, (IH b Hab). reflexivity.
Qed.

Lemma eqb_neq (a b : jsstring) : a <> b -> JS.eqb a b = false.
Proof.
  intros Hne. destruct (JS.eqb a b) eqn:E; [|reflexivity].
  exfalso. apply Hne, eqb_eq, E.
Qed.

Section Config_properties.

Import GenerationConfigValidator.

Variable Value : Type.

Lemma lookup_set_property (key k : jsstring) (v : ConfigValue Value)
      (obj : Obj Value) :
  lookup k (set_property key v obj)
  = if JS.eqb k key then Some v else lookup k obj.
Proof.
  induction obj as [|[k' w] obj IH].
  - cbn [set_property lookup]. reflexivity.
  - cbn [set_property]. destruct (JS.eqb key k') eqn:E.
    + apply eqb_eq in E. subst k'. cbn [lookup].
      destruct (JS.eqb k key); reflexivity.
    + cbn [lookup]. rewrite IH.
      destruct (JS.eqb k k') eqn:E'; [|reflexivity].
      apply eqb_eq in E'. subst k'.
      destruct (JS.eqb k key) eqn:E''; [|reflexivity].
      apply eqb_eq in E''. subst key. rewrite eqb_refl in E. discriminate.
Qed.

Lemma lookup_app (A : Type) (k : jsstring) (a b : list (jsstring * A)) :
  lookup k (a ++ b)
  = match lookup k a with
    | Some x => Some x
    | None => lookup k b
    end.
Proof.
  induction a as [|[ka va] a IHa]; [reflexivity|].
  cbn [app lookup]. destruct (JS.eqb k ka); [reflexivity|exact IHa].
Qed.

(** After [Object.assign], a property other than [__proto__] is the last
    one the source gives for its key, or that of the target. *)
Lemma lookup_Object_assign (k : jsstring)
      (source : list (jsstring * Value)) :
  k <> lit "__proto__" ->
  forall target : Obj Value,
    lookup k (Object_assign target source)
    = match lookup k (rev source) with
      | Some v => Some (Given v)
      | None => lookup k target
      end.
Proof.
  intros Hk. unfold Object_assign.
  induction source as [|[k' v] source IH]; intros target; [reflexivity|].
  cbn [fold_left fst snd rev]. rewrite IH, lookup_app. cbn [lookup].
  destruct (lookup k (rev source)); [reflexivity|].
  destruct (JS.eqb k' (lit "__proto__")) eqn:E.
  - apply eqb_eq in E. subst k'. rewrite (eqb_neq _ _ Hk). reflexivity.
  - rewrite lookup_set_property. destruct (JS.eqb k k'); reflexivity.
Qed.

(** [Object.assign] gives the target no property [__proto__]. *)
Lemma lookup_proto_Object_assign (source : list (jsstring * Value)) :
  forall target : Obj Value,
    lookup (lit "__proto__") (Object_assign target source)
    = lookup (lit "__proto__") target.
Proof.
  unfold Object_assign.
  induction source as [|[k' v] source IH]; intros target; [reflexivity|].
  cbn [fold_left fst snd]. rewrite IH.
  destruct (JS.eqb k' (lit "__proto__")) eqn:E; [reflexivity|].
  rewrite lookup_set_property.
  destruct (JS.eqb (lit "__proto__") k') eqn:E'; [|reflexivity].
  apply eqb_eq in E'. subst k'. rewrite eqb_refl in E. discriminate E.
Qed.

Lemma lookup_rev_unique (k : jsstring) (source : list (jsstring * Value)) :
  NoDup (map fst source) -> lookup k (rev source) = lookup k source.
Proof.
  assert (Hnone : forall l : list (jsstring * Value),
             ~ In k (map fst l) -> lookup k l = None).
  { induction l as [|[ka va] l IHl]; intros Hin; [reflexivity|].
    cbn [lookup]. rewrite eqb_neq.
    - apply IHl. intros H. apply Hin. right. exact H.
    - intros ->. apply Hin. left. reflexivity. }
  induction source as [|[k' v] source IH]; intros Hnd; [reflexivity|].
  inversion Hnd as [|? ? Hnotin Hnd']; subst.
  cbn [rev lookup]. rewrite lookup_app, IH by exact Hnd'. cbn [lookup].
  destruct (JS.eqb k k') eqn:E.
  - apply eqb_eq in E. subst k'. rewrite Hnone by exact Hnotin. reflexivity.
  - destruct (lookup k source); reflexivity.
Qed.

End Config_properties.

Lemma strict_equals_zero (budget : JSNumber) :
  strict_equals budget (Number_of_Z 0) = true
  <-> budget = NegZero
      \/ exists q, budget = Finite q
                   /\ QArith_base.Qeq q (QArith_base.inject_Z 0).
Proof.
  destruct budget as [| | | |q]; cbn.
  - split; [discriminate|]. intros [H|(q & H & _)]; discriminate H.
  - split; [discriminate|]. intros [H|(q & H & _)]; discriminate H.
  - split; [discriminate|]. intros [H|(q & H & _)]; discriminate H.
  - split; [left; reflexivity|reflexivity].
  - rewrite QArith_base.Qeq_bool_iff. split.
    + intros H. right. exists q. split; [reflexivity|exact H].
    + intros [H|(q' & H & Hq)]; [discriminate H|].
      injection H as <-. exact Hq.
Qed.

Lemma less_than_minus_one (budget : JSNumber) :
  less_than budget (Number_of_Z (-1)) = true
  <-> budget = NegInfinity
      \/ exists q, budget = Finite q
                   /\ QArith_base.Qlt q (QArith_base.inject_Z (-1)).
Proof.
  destruct budget as [| | | |q]; cbn.
  - split; [discriminate|]. intros [H|(q & H & _)]; discriminate H.
  - split; [discriminate|]. intros [H|(q & H & _)]; discriminate H.
  - split; [left; reflexivity|reflexivity].
  - split; [discriminate|]. intros [H|(q & H & _)]; discriminate H.
  - rewrite negb_true_iff. split.
    + intros H. right. exists q. split; [reflexivity|].
      apply QArith_base.Qnot_le_lt. intros Hle.
      apply QArith_base.Qle_bool_iff in Hle. congruence.
    + intros [H|(q' & H & Hq)]; [discriminate H|].
      injection H as <-.
      destruct (QArith_base.Qle_bool (QArith_base.inject_Z (-1)) q) eqn:E;
        [|reflexivity].
      apply QArith_base.Qle_bool_iff in E.
      exfalso. exact (QArith_base.Qlt_not_le _ _ Hq E).
Qed.

(** The two tests of [validateThinkingBudget] fail exactly on the numbers
    that are neither zero nor below -1. *)
Lemma tests_of_validateThinkingBudget (budget : JSNumber) :
  neither_zero_nor_below_minus_one budget
  <-> strict_equals budget (Number_of_Z 0) = false
      /\ less_than budget (Number_of_Z (-1)) = false.
Proof.
  split.
  - intros H. split.
    + destruct (strict_equals budget (Number_of_Z 0)) eqn:E; [|reflexivity].
      apply strict_equals_zero in E.
      destruct E as [->|(q & -> & Hq)]; [destruct H|].
      destruct H as [H _]. exfalso. exact (H Hq).
    + destruct (less_than budget (Number_of_Z (-1))) eqn:E; [|reflexivity].
      apply less_than_minus_one in E.
      destruct E as [->|(q & -> & Hq)]; [destruct H|].
      destruct H as [_ H]. exfalso. exact (QArith_base.Qlt_not_le _ _ Hq H).
  - intros [H0 H1].
    destruct budget as [| | | |q]; try exact I; try discriminate.
    split.
    + intros Hq.
      assert (E : strict_equals (Finite q) (Number_of_Z 0) = true).
      { apply strict_equals_zero. right. exists q.
        split; [reflexivity|exact Hq]. }
      congruence.
    + apply QArith_base.Qnot_lt_le. intros Hq.
      assert (E : less_than (Finite q) (Number_of_Z (-1)) = true).
      { apply less_than_minus_one. right. exists q.
        split; [reflexivity|exact Hq]. }
      congruence.
Qed.

Lemma default_budget_passes :
  neither_zero_nor_below_minus_one
    GenerationConfigValidator.DEFAULT_THINKING_BUDGET.
Proof.
  apply tests_of_validateThinkingBudget. split; reflexivity.
Qed.

Lemma validated_budget_range (modelId : jsstring) (budget : JSNumber) :
  isThinkingModel modelId = true ->
  neither_zero_nor_below_minus_one
    (GenerationConfigValidator.validateThinkingBudget modelId budget).
Proof.
  intros Hm. unfold GenerationConfigValidator.validateThinkingBudget.
  rewrite Hm.
  destruct (strict_equals budget (Number_of_Z 0)) eqn:E0;
    [exact default_budget_passes|].
  destruct (less_than budget (Number_of_Z (-1))) eqn:E1;
    [exact default_budget_passes|].
  apply tests_of_validateThinkingBudget. split; assumption.
Qed.

Lemma validated_budget_kept (modelId : jsstring) (budget : JSNumber) :
  neither_zero_nor_below_minus_one budget ->
  GenerationConfigValidator.validateThinkingBudget modelId budget = budget.
Proof.
  intros H. apply tests_of_validateThinkingBudget in H.
  destruct H as [H0 H1].
  unfold GenerationConfigValidator.validateThinkingBudget.
  rewrite H0, H1. destruct (isThinkingModel modelId); reflexivity.
Qed.

(** X22. For a thinking model the validated thinking budget is never zero
    and never below -1.  A budget that is neither is returned as it is,
    whether an integer or not: -1, a positive number, a fraction between -1
    and 0, [Infinity], [NaN]; every other budget, zero of either sign and
    what is below -1, becomes -1.  Validating twice changes nothing.  An
    integer budget is kept when it is -1 or positive and becomes -1 when
    not. *)
Theorem thinking_budget_is_never_zero
        (modelId : jsstring) (budget : JSNumber) :
  isThinkingModel modelId = true ->
  let validated :=
    GenerationConfigValidator.validateThinkingBudget modelId budget in
  neither_zero_nor_below_minus_one validated
  /\ (neither_zero_nor_below_minus_one budget -> validated = budget)
  /\ (~ neither_zero_nor_below_minus_one budget ->
      validated = Number_of_Z (-1))
  /\ GenerationConfigValidator.validateThinkingBudget modelId validated
     = validated
  /\ forall z : Z,
      GenerationConfigValidator.validateThinkingBudget modelId
        (Number_of_Z z)
      = Number_of_Z (if (z =? 0)%Z || (z <? -1)%Z then -1 else z).
Proof.
  intros Hm validated.
  split; [exact (validated_budget_range modelId budget Hm)|].
  split; [exact (validated_budget_kept modelId budget)|].
  split.
  { intros Hnot. unfold validated,
      GenerationConfigValidator.validateThinkingBudget.
    rewrite Hm.
    destruct (strict_equals budget (Number_of_Z 0)) eqn:E0; [reflexivity|].
    destruct (less_than budget (Number_of_Z (-1))) eqn:E1; [reflexivity|].
    exfalso. apply Hnot, tests_of_validateThinkingBudget.
    split; assumption. }
  split.
  { apply validated_budget_kept.
    exact (validated_budget_range modelId budget Hm). }
  intros z. unfold GenerationConfigValidator.validateThinkingBudget.
  rewrite Hm.
  assert (H0 : strict_equals (Number_of_Z z) (Number_of_Z 0) = (z =? 0)%Z).
  { cbn. unfold QArith_base.Qeq_bool. cbn.
    rewrite Z.mul_1_r. reflexivity. }
  assert (H1 : less_than (Number_of_Z z) (Number_of_Z (-1)) = (z <? -1)%Z).
  { cbn. unfold QArith_base.Qle_bool. cbn.
    rewrite Z.mul_1_r, Z.ltb_antisym. reflexivity. }
  rewrite H0, H1.
  destruct (z =? 0)%Z; [reflexivity|].
  destruct (z <? -1)%Z; reflexivity.
Qed.

Lemma thinking_budget_is_never_zero_witness :
  let half_below_zero := Finite (QArith_base.Qmake (-1) 2) in
  GenerationConfigValidator.validateThinkingBudget
    (lit "gemini-2.5-flash") (Number_of_Z 0) = Number_of_Z (-1)
  /\ GenerationConfigValidator.validateThinkingBudget
       (lit "gemini-2.5-flash") (Number_of_Z (-2)) = Number_of_Z (-1)
  /\ GenerationConfigValidator.validateThinkingBudget
       (lit "gemini-2.5-flash") (Number_of_Z 1024) = Number_of_Z 1024
  /\ GenerationConfigValidator.validateThinkingBudget
       (lit "gemini-2.5-flash") half_below_zero = half_below_zero
  /\ GenerationConfigValidator.validateThinkingBudget
       (lit "gemini-2.5-flash") NaN = NaN.
Proof.
  intros half_below_zero.
  pose proof (fun budget =>
                thinking_budget_is_never_zero (lit "gemini-2.5-flash") budget
                  eq_refl) as H.
  split; [exact (proj2 (proj2 (proj2 (proj2 (H NaN)))) 0%Z)|].
  split; [exact (proj2 (proj2 (proj2 (proj2 (H NaN)))) (-2)%Z)|].
  split; [exact (proj2 (proj2 (proj2 (proj2 (H NaN)))) 1024%Z)|].
  split.
  - apply (proj1 (proj2 (H half_below_zero))). split.
    + intros Hq. vm_compute in Hq. discriminate Hq.
    + intros Hq. vm_compute in Hq. discriminate Hq.
  - exact (proj1 (proj2 (H NaN)) I).
Defined.

(** X23. A caller cannot switch the thinking configuration of a thinking
    model: whatever the generation parameters of the request hold, also
    under the key [thinkingConfig], the validated configuration has a
    [thinkingConfig] whose [includeThoughts] is set exactly when real
    thinking is enabled and reasoning is requested, and whose budget is
    neither zero nor below -1: it is the validated budget of the request, -1
    when the request gives none, when the thoughts are included, and -1 when
    they are not. *)
Theorem thinking_config_is_enforced
        (Value : Type) (modelId : jsstring)
        (options : GenerationConfigValidator.ConfigOptions Value)
        (isRealThinkingEnabled includeReasoning : bool) :
  isThinkingModel modelId = true ->
  exists budget : JSNumber,
    lookup (lit "thinkingConfig")
           (GenerationConfigValidator.createValidatedConfig
              modelId options isRealThinkingEnabled includeReasoning)
    = Some (GenerationConfigValidator.ThinkingConfig
              budget (isRealThinkingEnabled && includeReasoning))
    /\ neither_zero_nor_below_minus_one budget
    /\ (isRealThinkingEnabled && includeReasoning = true ->
        budget
        = GenerationConfigValidator.validateThinkingBudget modelId
            match GenerationConfigValidator.thinkingBudget options with
            | Some requested => requested
            | None => Number_of_Z (-1)
            end)
    /\ (isRealThinkingEnabled && includeReasoning = false ->
        budget = Number_of_Z (-1)).
Proof.
  intros Hm. unfold GenerationConfigValidator.createValidatedConfig.
  rewrite Hm.
  destruct (isRealThinkingEnabled && includeReasoning);
    rewrite lookup_set_property, eqb_refl; eexists;
    (split; [reflexivity|]).
  - split; [apply (validated_budget_range modelId _ Hm)|].
    split; [reflexivity|discriminate].
  - split; [apply (validated_budget_range modelId _ Hm)|].
    split; [discriminate|]. intros _.
    apply validated_budget_kept. exact default_budget_passes.
Qed.

Lemma thinking_config_is_enforced_witness :
  lookup (lit "thinkingConfig")
         (GenerationConfigValidator.createValidatedConfig
            (lit "gemini-2.5-pro")
            (GenerationConfigValidator.mkConfigOptions
               (Some (Number_of_Z 0))
               (Some [(lit "thinkingConfig", 7); (lit "topK", 40)]))
            true false)
  = Some (GenerationConfigValidator.ThinkingConfig (Number_of_Z (-1)) false).
Proof.
  destruct (thinking_config_is_enforced
              nat (lit "gemini-2.5-pro")
              (GenerationConfigValidator.mkConfigOptions
                 (Some (Number_of_Z 0))
                 (Some [(lit "thinkingConfig", 7); (lit "topK", 40)]))
              true false eq_refl) as (budget & Hl & _ & _ & Hb).
  rewrite Hl, (Hb eq_refl). reflexivity.
Defined.

(** X24. Every other generation parameter of the request reaches the
    upstream as it was given, and the temperature is 0.7 unless the request
    gives one: apart from [thinkingConfig] for a thinking model, a key of the
    validated configuration has the value the request gives for it, the
    default temperature under [temperature] when the request gives none, and
    no value otherwise.  The key [__proto__] is the exception: what the
    request gives for it is assigned to the accessor every object inherits
    and is no property of the configuration. *)
Theorem generation_parameters_pass_through
        (Value : Type) (modelId : jsstring)
        (options : GenerationConfigValidator.ConfigOptions Value)
        (isRealThinkingEnabled includeReasoning : bool) (key : jsstring) :
  key <> lit "thinkingConfig" \/ isThinkingModel modelId = false ->
  match GenerationConfigValidator.generationConfig options with
  | Some given => NoDup (map fst given)
  | None => True
  end ->
  lookup key
         (GenerationConfigValidator.createValidatedConfig
            modelId options isRealThinkingEnabled includeReasoning)
  = if JS.eqb key (lit "__proto__") then None
    else
      match
        match GenerationConfigValidator.generationConfig options with
        | Some given => lookup key given
        | None => None
        end
      with
      | Some v => Some (GenerationConfigValidator.Given v)
      | None =>
          if JS.eqb key (lit "temperature")
          then Some GenerationConfigValidator.DEFAULT_TEMPERATURE
          else None
      end.
Proof.
  intros Hkey Hunique.
  unfold GenerationConfigValidator.createValidatedConfig.
  set (generationConfig1 :=
         match GenerationConfigValidator.generationConfig options with
         | Some given =>
             GenerationConfigValidator.Object_assign
               [(lit "temperature",
                 GenerationConfigValidator.DEFAULT_TEMPERATURE)]
               given
         | None =>
             [(lit "temperature",
               GenerationConfigValidator.DEFAULT_TEMPERATURE)]
         end).
  assert (Hbase :
            lookup key generationConfig1
            = if JS.eqb key (lit "__proto__") then None
              else
                match
                  match GenerationConfigValidator.generationConfig options
                  with
                  | Some given => lookup key given
                  | None => None
                  end
                with
                | Some v => Some (GenerationConfigValidator.Given v)
                | None =>
                    if JS.eqb key (lit "temperature")
                    then Some GenerationConfigValidator.DEFAULT_TEMPERATURE
                    else None
                end).
  { unfold generationConfig1.
    destruct (JS.eqb key (lit "__proto__")) eqn:Eproto.
    - apply eqb_eq in Eproto. subst key.
      destruct (GenerationConfigValidator.generationConfig options)
        as [given|]; [|reflexivity].
      rewrite lookup_proto_Object_assign. reflexivity.
    - destruct (GenerationConfigValidator.generationConfig options)
        as [given|]; [|reflexivity].
      rewrite lookup_Object_assign, lookup_rev_unique by
        (try exact Hunique; intros ->; rewrite eqb_refl in Eproto;
         discriminate Eproto).
      destruct (lookup key given); reflexivity. }
  destruct (isThinkingModel modelId) eqn:Hm; [|exact Hbase].
  destruct Hkey as [Hkey|Hkey]; [|discriminate].
  destruct (isRealThinkingEnabled && includeReasoning);
    rewrite lookup_set_property, (eqb_neq _ _ Hkey); exact Hbase.
Qed.

Lemma generation_parameters_pass_through_witness :
  let config :=
    GenerationConfigValidator.createValidatedConfig
      (lit "gemini-2.5-pro")
      (GenerationConfigValidator.mkConfigOptions
         None (Some [(lit "__proto__", 5); (lit "topK", 40)]))
      true true in
  lookup (lit "topK") config = Some (GenerationConfigValidator.Given 40)
  /\ lookup (lit "temperature") config
     = Some GenerationConfigValidator.DEFAULT_TEMPERATURE
  /\ lookup (lit "__proto__") config = None.
Proof.
  assert (Hunique : NoDup (map fst [(lit "__proto__", 5); (lit "topK", 40)])).
  { simpl. constructor.
    - intros [H|[]]. discriminate H.
    - constructor; [intros []|constructor]. }
  pose proof (fun key Hkey =>
                generation_parameters_pass_through
                  nat (lit "gemini-2.5-pro")
                  (GenerationConfigValidator.mkConfigOptions
                     None (Some [(lit "__proto__", 5); (lit "topK", 40)]))
                  true true key (or_introl Hkey) Hunique) as H.
  intros config. split; [|split].
  - apply (H (lit "topK")). discriminate.
  - apply (H (lit "temperature")). discriminate.
  - apply (H (lit "__proto__")). discriminate.
Defined.

(** ** The API key *)
Section ApiKey.

Import ApiKeyAuth.

Lemma startsWith_split (p s : jsstring) :
  startsWith s p = true -> s = p ++ skipn (List.length p) s.
Proof.
  revert s. induction p as [|c p IH]; intros s H; [reflexivity|].
  destruct s as [|d s]; [discriminate H|].
  cbn [startsWith] in H. apply andb_prop in H. destruct H as [Hd Hs].
  apply N.eqb_eq in Hd. subst d.
  cbn [List.length skipn app]. f_equal. apply IH, Hs.
Qed.

Lemma rest_of_line_some (s k : jsstring) :
  rest_of_line s = Some k -> k = s.
Proof.
  unfold rest_of_line.
  destruct (truthy s && forallb (fun c => negb (isLineTerminator c)) s);
    [|discriminate].
  intros H. injection H as <-. reflexivity.
Qed.

(** The capture is what follows a run of white space. *)
Lemma spaces_then_key_shape (s k : jsstring) :
  spaces_then_key s = Some k ->
  exists spaces,
    s = spaces ++ k /\ forallb isWhiteSpace spaces = true.
Proof.
  revert k. induction s as [|c s IH]; intros k H; [discriminate H|].
  cbn [spaces_then_key] in H.
  destruct (isWhiteSpace c) eqn:Hc.
  - destruct (spaces_then_key s) as [key|] eqn:Hs.
    + injection H as <-. destruct (IH key eq_refl) as (spaces & -> & Hw).
      exists (c :: spaces). split; [reflexivity|].
      cbn [forallb]. rewrite Hc. exact Hw.
    + apply rest_of_line_some in H. subst k. exists []. split; reflexivity.
  - apply rest_of_line_some in H. subst k. exists []. split; reflexivity.
Qed.

Lemma match_bearer_shape (authHeader k : jsstring) :
  match_bearer authHeader = Some k ->
  exists spaces,
    authHeader = lit "Bearer" ++ spaces ++ k
    /\ spaces <> []
    /\ forallb isWhiteSpace spaces = true.
Proof.
  unfold match_bearer.
  destruct (startsWith authHeader (lit "Bearer")) eqn:Hs; [|discriminate].
  apply startsWith_split in Hs.
  change (List.length (lit "Bearer")) with 6 in Hs.
  destruct (skipn 6 authHeader) as [|c s]; [discriminate|].
  destruct (isWhiteSpace c) eqn:Hc; [|discriminate].
  intros H. destruct (spaces_then_key_shape s k H) as (spaces & -> & Hw).
  exists (c :: spaces). split; [exact Hs|]. split; [discriminate|].
  cbn [forallb]. rewrite Hc. exact Hw.
Qed.

Lemma spaces_then_key_found (spaces key : jsstring) :
  match key with c :: _ => isWhiteSpace c = false | [] => False end ->
  forallb (fun c => negb (isLineTerminator c)) key = true ->
  forallb isWhiteSpace spaces = true ->
  spaces_then_key (spaces ++ key) = Some key.
Proof.
  intros Hkey Hline. induction spaces as [|w spaces IH]; intros Hw.
  - destruct key as [|c key']; [contradiction|].
    cbn [app spaces_then_key]. rewrite Hkey.
    unfold rest_of_line. rewrite Hline. reflexivity.
  - cbn [forallb] in Hw. apply andb_prop in Hw. destruct Hw as [Hw Hws].
    cbn [app spaces_then_key]. rewrite Hw, (IH Hws). reflexivity.
Qed.

Lemma match_bearer_found (spaces key : jsstring) :
  match key with c :: _ => isWhiteSpace c = false | [] => False end ->
  forallb (fun c => negb (isLineTerminator c)) key = true ->
  spaces <> [] ->
  forallb isWhiteSpace spaces = true ->
  match_bearer (lit "Bearer" ++ spaces ++ key) = Some key.
Proof.
  intros Hkey Hline Hne Hw. unfold match_bearer.
  rewrite startsWith_app.
  change 6 with (List.length (lit "Bearer")). rewrite skipn_length_app.
  destruct spaces as [|w spaces]; [contradiction|].
  cbn [forallb] in Hw. apply andb_prop in Hw. destruct Hw as [Hw Hws].
  cbn [app]. rewrite Hw. apply spaces_then_key_found; assumption.
Qed.

End ApiKey.

(** X25. The configured key passes as a bearer token: with a key that holds
    no line terminator and does not start with white space, a request whose
    [Authorization] header is [Bearer], white space and the key is let
    through by both middlewares, whatever its other headers are. *)
Theorem bearer_key_is_accepted
        (key spaces : jsstring) (c : ApiKeyAuth.Request) :
  match key with c :: _ => isWhiteSpace c = false | [] => False end ->
  forallb (fun c => negb (ApiKeyAuth.isLineTerminator c)) key = true ->
  spaces <> [] ->
  forallb isWhiteSpace spaces = true ->
  ApiKeyAuth.Authorization c = Some (lit "Bearer" ++ spaces ++ key) ->
  ApiKeyAuth.openAIApiKeyAuth (Some key) c = ApiKeyAuth.Next
  /\ ApiKeyAuth.geminiApiKeyAuth (Some key) c = ApiKeyAuth.Next.
Proof.
  intros Hkey Hline Hne Hw Hauth.
  pose proof (match_bearer_found spaces key Hkey Hline Hne Hw) as Hm.
  unfold ApiKeyAuth.openAIApiKeyAuth, ApiKeyAuth.geminiApiKeyAuth.
  destruct (ApiKeyAuth.isPublicEndpoint c); [split; reflexivity|].
  destruct (truthy key); [|split; reflexivity].
  rewrite Hauth. unfold ApiKeyAuth.bearer_is_key. rewrite Hm, eqb_refl.
  change (truthy_opt (Some (lit "Bearer" ++ spaces ++ key))) with true.
  change (truthy (lit "Bearer" ++ spaces ++ key)) with true.
  cbn [negb andb]. split; reflexivity.
Qed.

Lemma bearer_key_is_accepted_witness :
  ApiKeyAuth.openAIApiKeyAuth
    (Some (lit "sk-secret"))
    (ApiKeyAuth.mkRequest (lit "/v1/chat/completions")
                          (Some (lit "Bearer   sk-secret")) None None)
  = ApiKeyAuth.Next.
Proof.
  apply (bearer_key_is_accepted
           (lit "sk-secret") (lit "   ")
           (ApiKeyAuth.mkRequest (lit "/v1/chat/completions")
                                 (Some (lit "Bearer   sk-secret")) None
                                 None)).
  - reflexivity.
  - reflexivity.
  - discriminate.
  - reflexivity.
  - reflexivity.
Defined.

(** X26. Nothing but the configured key opens a protected route: when a key
    is configured and the path is not a public endpoint, a request is let
    through only if its [Authorization] header is [Bearer], white space and
    the key, or its [x-goog-api-key] header is the key. *)
Theorem only_the_key_is_accepted (key : jsstring) (c : ApiKeyAuth.Request) :
  ApiKeyAuth.isPublicEndpoint c = false ->
  key <> [] ->
  ApiKeyAuth.openAIApiKeyAuth (Some key) c = ApiKeyAuth.Next ->
  (exists spaces,
      ApiKeyAuth.Authorization c = Some (lit "Bearer" ++ spaces ++ key)
      /\ spaces <> []
      /\ forallb isWhiteSpace spaces = true)
  \/ ApiKeyAuth.x_goog_api_key c = Some key.
Proof.
  intros Hpublic Hkey. unfold ApiKeyAuth.openAIApiKeyAuth.
  rewrite Hpublic.
  destruct key as [|k0 key']; [contradiction|]. cbn [truthy].
  set (key := k0 :: key') in *.
  destruct (negb (truthy_opt (ApiKeyAuth.Authorization c))
            && negb (truthy_opt (ApiKeyAuth.x_goog_api_key c)));
    [discriminate|].
  cbv zeta.
  destruct (ApiKeyAuth.bearer_is_key key (ApiKeyAuth.Authorization c))
    eqn:Hbearer.
  - intros _. left. unfold ApiKeyAuth.bearer_is_key in Hbearer.
    destruct (ApiKeyAuth.Authorization c) as [h|]; [|discriminate].
    apply andb_prop in Hbearer. destruct Hbearer as [_ Hbearer].
    destruct (ApiKeyAuth.match_bearer h) as [provided|] eqn:Hm;
      [|discriminate].
    apply eqb_eq in Hbearer. subst provided.
    destruct (match_bearer_shape h key Hm) as (spaces & -> & Hne & Hw).
    exists spaces. repeat split; assumption.
  - cbn [negb andb].
    destruct (truthy_opt (ApiKeyAuth.x_goog_api_key c)); [|discriminate].
    unfold ApiKeyAuth.is_key.
    destruct (ApiKeyAuth.x_goog_api_key c) as [g|]; [|discriminate].
    destruct (JS.eqb g key) eqn:Hg; [|discriminate].
    intros _. right. apply eqb_eq in Hg. rewrite Hg. reflexivity.
Qed.

Lemma only_the_key_is_accepted_witness :
  (exists spaces,
      Some (lit "Bearer sk-secret") = Some (lit "Bearer" ++ spaces
                                              ++ lit "sk-secret")
      /\ spaces <> []
      /\ forallb isWhiteSpace spaces = true)
  \/ @None jsstring = Some (lit "sk-secret").
Proof.
  apply (only_the_key_is_accepted
           (lit "sk-secret")
           (ApiKeyAuth.mkRequest (lit "/v1/models")
                                 (Some (lit "Bearer sk-secret")) None None)).
  - reflexivity.
  - discriminate.
  - reflexivity.
Defined.

(** X27. The middleware of the native routes accepts what the OpenAI one
    accepts and, besides, the key given as the [key] parameter of the URL:
    it lets a request through exactly when the OpenAI middleware does or
    the [key] parameter is the configured key. *)
Theorem gemini_auth_extends_openai_auth
        (OPENAI_API_KEY : option jsstring) (c : ApiKeyAuth.Request) :
  ApiKeyAuth.geminiApiKeyAuth OPENAI_API_KEY c = ApiKeyAuth.Next
  <-> (ApiKeyAuth.openAIApiKeyAuth OPENAI_API_KEY c = ApiKeyAuth.Next
       \/ exists key,
            OPENAI_API_KEY = Some key /\ key <> []
            /\ ApiKeyAuth.query_key c = Some key).
Proof.
  unfold ApiKeyAuth.geminiApiKeyAuth, ApiKeyAuth.openAIApiKeyAuth.
  destruct (ApiKeyAuth.isPublicEndpoint c); [tauto|].
  destruct OPENAI_API_KEY as [key|]; [|tauto].
  destruct key as [|k0 key']; [cbn [truthy]; tauto|]. cbn [truthy].
  set (key := k0 :: key') in *.
  cbv zeta.
  assert (Hq : ApiKeyAuth.is_key key (ApiKeyAuth.query_key c) = true
               <-> ApiKeyAuth.query_key c = Some key).
  { unfold ApiKeyAuth.is_key.
    destruct (ApiKeyAuth.query_key c) as [q|]; [|split; discriminate].
    split; intros H.
    - apply eqb_eq in H. rewrite H. reflexivity.
    - injection H as ->. apply eqb_refl. }
  assert (Hqt : ApiKeyAuth.query_key c = Some key ->
                truthy_opt (ApiKeyAuth.query_key c) = true).
  { intros ->. reflexivity. }
  assert (Hb : ApiKeyAuth.bearer_is_key key (ApiKeyAuth.Authorization c)
               = true ->
               truthy_opt (ApiKeyAuth.Authorization c) = true).
  { unfold ApiKeyAuth.bearer_is_key.
    destruct (ApiKeyAuth.Authorization c) as [h|]; [|discriminate].
    intros H. apply andb_prop in H. apply H. }
  destruct (ApiKeyAuth.bearer_is_key key (ApiKeyAuth.Authorization c));
    [rewrite (Hb eq_refl); cbn [negb andb]; tauto|].
  clear Hb. cbn [negb andb].
  destruct (truthy_opt (ApiKeyAuth.Authorization c)),
    (truthy_opt (ApiKeyAuth.x_goog_api_key c)),
    (ApiKeyAuth.is_key key (ApiKeyAuth.x_goog_api_key c)),
    (truthy_opt (ApiKeyAuth.query_key c)),
    (ApiKeyAuth.is_key key (ApiKeyAuth.query_key c));
    cbn [negb andb];
    split;
    try (intros _; left; reflexivity);
    try (intros H; discriminate H);
    try (intros _; right; exists key;
         split; [reflexivity|]; split; [discriminate|];
         apply Hq; reflexivity);
    try (intros [H|(k & Hk & _ & Hkq)]; [discriminate H|];
         injection Hk as <-;
         first [ apply Hq in Hkq; discriminate Hkq
               | apply Hqt in Hkq; discriminate Hkq ]);
    try (intros _; reflexivity).
Qed.

(** ** Legacy tags the classifier does not see *)

Lemma match_here_not_at (d : N) (s : jsstring) :
  d <> 60%N -> match_here THINK_OPEN THINK_CLOSE (d :: s) = None.
Proof.
  intros Hd. unfold match_here.
  change THINK_OPEN with (60%N :: lit "think>").
  cbn [startsWith]. apply N.eqb_neq in Hd. rewrite Hd. reflexivity.
Qed.

(** A text without [<] is kept by the replacement. *)
Lemma strip_think_plain_prefix (x s : jsstring) :
  ~ In 60%N x -> strip_think (x ++ s) = x ++ strip_think s.
Proof.
  unfold strip_think. induction x as [|d x IH]; intros Hx; [reflexivity|].
  cbn [app replace_scan].
  rewrite match_here_not_at by (intros ->; apply Hx; left; reflexivity).
  f_equal. apply IH. intros Hin. apply Hx. right. exact Hin.
Qed.

Lemma includes_nonempty (t p : jsstring) :
  p <> [] -> includes t p = true -> truthy t = true.
Proof.
  intros Hp H. destruct t as [|c t]; [|reflexivity].
  destruct p as [|d p]; [contradiction|]. discriminate H.
Qed.

Lemma includes_In (c : N) (p t : jsstring) :
  includes t (c :: p) = true -> In c t.
Proof.
  induction t as [|x t IH]; intros H; [discriminate H|].
  cbn [includes] in H. apply orb_prop in H. destruct H as [H|H].
  - cbn [startsWith] in H. apply andb_prop in H. destruct H as [Hx _].
    apply N.eqb_eq in Hx. left. exact Hx.
  - right. apply IH, H.
Qed.

Lemma trimStart_keeps (c : N) (s : jsstring) :
  isWhiteSpace c = false -> In c s -> In c (trimStart s).
Proof.
  intros Hc. induction s as [|x s IH]; intros Hin; [exact Hin|].
  cbn [trimStart]. destruct (isWhiteSpace x) eqn:Hx; [|exact Hin].
  destruct Hin as [->|Hin]; [congruence|]. apply IH, Hin.
Qed.

Lemma trim_keeps (c : N) (s : jsstring) :
  isWhiteSpace c = false -> In c s -> In c (trim s).
Proof.
  intros Hc Hin. unfold trim, trimEnd.
  rewrite <- in_rev. apply (trimStart_keeps c _ Hc).
  rewrite <- in_rev. apply (trimStart_keeps c _ Hc), Hin.
Qed.

Lemma trim_tagged_truthy (t : jsstring) :
  includes t THINK_OPEN = true -> truthy (trim t) = true.
Proof.
  intros H.
  assert (Hin : In 60%N (trim t)).
  { apply trim_keeps; [reflexivity|].
    apply (includes_In 60 (lit "think>")). exact H. }
  destruct (trim t); [destruct Hin|reflexivity].
Qed.

Lemma strip_think_no_match (t : jsstring) :
  match_think t = None -> strip_think t = t.
Proof.
  intros H. unfold strip_think.
  apply replace_scan_no_match, match_think_none, H.
Qed.

(** X28. Only the first legacy tag pair of a part is read: for a text
    [<think>A</think>X<think>B</think>C] of a part that is not marked as a
    thought, the thought fragment holds [A], the text fragment holds [X] and
    [C] joined and trimmed, and the content [B] of the second pair is
    neither thought nor text: it is dropped. *)
Theorem later_tag_pairs_are_dropped
        (needsThinkingClose realThinkingAsContent : bool)
        (st : ThinkingFlags) (A X B C : jsstring) (thought : option bool) :
  thought <> Some true ->
  includes A THINK_CLOSE = false ->
  includes B THINK_CLOSE = false ->
  ~ In 60%N X ->
  match_think C = None ->
  trim (X ++ C) <> [] ->
  without_delimiters
    (snd (handle_part needsThinkingClose realThinkingAsContent st
            (mkPart (Some (THINK_OPEN ++ A ++ THINK_CLOSE
                           ++ X ++ THINK_OPEN ++ B ++ THINK_CLOSE ++ C))
                    thought)))
  = [thought_fragment realThinkingAsContent A; Text (trim (X ++ C))].
Proof.
  intros Hthought HA HB HX HC Hne.
  unfold handle_part. cbn [part_text part_thought].
  assert (Hth : match thought with Some true => true | _ => false end
                = false).
  { destruct thought as [[|]|]; [contradiction|reflexivity|reflexivity]. }
  set (rest := X ++ THINK_OPEN ++ B ++ THINK_CLOSE ++ C).
  rewrite Hth, (includes_tag_pair A rest).
  change (truthy (THINK_OPEN ++ A ++ THINK_CLOSE ++ rest)) with true.
  cbn [andb]. unfold tagged_part.
  rewrite (match_think_tag_pair A rest HA), (strip_think_tag_pair A rest HA).
  unfold rest.
  rewrite (strip_think_plain_prefix X _ HX), (strip_think_tag_pair B C HB).
  rewrite !(strip_think_no_match C HC).
  unfold thought_fragment, open_if_needed, close_if, without_delimiters.
  destruct st as [closed started].
  cbn [hasStartedThinking hasClosedThinking].
  destruct (trim (X ++ C)) as [|y s]; [contradiction|]. cbn [truthy].
  destruct realThinkingAsContent, started, closed; reflexivity.
Qed.

Lemma later_tag_pairs_are_dropped_witness :
  without_delimiters
    (snd (handle_part false true flags0
            (mkPart (Some (lit "<think>A</think> and <think>B</think>C"))
                    None)))
  = [ThinkingText (lit "A"); Text (lit "and C")].
Proof.
  apply (later_tag_pairs_are_dropped
           false true flags0 (lit "A") (lit " and ") (lit "B") (lit "C")
           None).
  - discriminate.
  - reflexivity.
  - reflexivity.
  - intros H. vm_compute in H.
    repeat (destruct H as [H|H]; [discriminate H|]). exact H.
  - reflexivity.
  - discriminate.
Defined.

(** X29. A legacy tag pair is read inside one part only: when the opening
    tag comes in one part and the closing tag in the next, no thought
    fragment is yielded; the first text is forwarded trimmed, with its tag,
    and the second text as it is, both as answer text. *)
Theorem tag_pair_across_parts_is_not_read
        (needsThinkingClose realThinkingAsContent : bool)
        (st : ThinkingFlags) (t1 t2 : jsstring) (thought : option bool) :
  thought <> Some true ->
  includes t1 THINK_OPEN = true ->
  match_think t1 = None ->
  t2 <> [] ->
  includes t2 THINK_OPEN = false ->
  without_delimiters
    (snd (handle_parts needsThinkingClose realThinkingAsContent st
            [mkPart (Some t1) thought; mkPart (Some t2) None]))
  = [Text (trim t1); Text t2].
Proof.
  intros Hthought Hopen Hnone Hne Hplain.
  assert (Hth : match thought with Some true => true | _ => false end
                = false).
  { destruct thought as [[|]|]; [contradiction|reflexivity|reflexivity]. }
  cbn [handle_parts]. unfold handle_part. cbn [part_text part_thought].
  rewrite Hth, Hopen, Hplain.
  rewrite (includes_nonempty t1 THINK_OPEN) by (discriminate || exact Hopen).
  destruct t2 as [|y t2']; [contradiction|]. cbn [truthy andb negb].
  unfold tagged_part, plain_part. rewrite Hnone.
  rewrite !(strip_think_no_match t1 Hnone).
  rewrite (trim_tagged_truthy t1 Hopen).
  unfold open_if_needed, close_if, without_delimiters.
  destruct st as [closed started].
  cbn [hasStartedThinking hasClosedThinking].
  destruct needsThinkingClose, realThinkingAsContent, started, closed;
    reflexivity.
Qed.

Lemma tag_pair_across_parts_is_not_read_witness :
  without_delimiters
    (snd (handle_parts false true flags0
            [mkPart (Some (lit "<think>I am thinking ")) None;
             mkPart (Some (lit "still</think>Answer")) None]))
  = [Text (lit "<think>I am thinking"); Text (lit "still</think>Answer")].
Proof.
  apply (tag_pair_across_parts_is_not_read
           false true flags0 (lit "<think>I am thinking ")
           (lit "still</think>Answer") None).
  - discriminate.
  - reflexivity.
  - reflexivity.
  - discriminate.
  - reflexivity.
Defined.

(** ** Images *)

Lemma split_at_separator (sep : N) (p s : jsstring) :
  ~ In sep p -> split sep (p ++ sep :: s) = p :: split sep s.
Proof.
  induction p as [|x p IH]; intros Hp.
  - cbn [app split]. rewrite N.eqb_refl. reflexivity.
  - assert (Hx : (x =? sep)%N = false).
    { apply N.eqb_neq. intros ->. apply Hp. left. reflexivity. }
    change ((x :: p) ++ sep :: s) with (x :: (p ++ sep :: s)).
    rewrite split_cons_other by exact Hx.
    rewrite IH; [reflexivity|].
    intros Hin. apply Hp. right. exact Hin.
Qed.

Lemma hd_split_app (sep : N) (p s : jsstring) :
  ~ In sep p -> hd [] (split sep (p ++ s)) = p ++ hd [] (split sep s).
Proof.
  induction p as [|x p IH]; intros Hp; [reflexivity|].
  assert (Hx : (x =? sep)%N = false).
  { apply N.eqb_neq. intros ->. apply Hp. left. reflexivity. }
  change ((x :: p) ++ s) with (x :: (p ++ s)).
  rewrite split_cons_other by exact Hx. cbn [hd app]. f_equal.
  apply IH. intros Hin. apply Hp. right. exact Hin.
Qed.

Lemma second_of_split (sep : N) (p s : jsstring) :
  ~ In sep p ->
  nth_error (split sep (p ++ sep :: s)) 1 = Some (hd [] (split sep s)).
Proof.
  intros Hp. rewrite split_at_separator by exact Hp.
  pose proof (split_not_nil sep s) as Hne.
  destruct (split sep s); [contradiction|reflexivity].
Qed.

Ltac not_in_literal :=
  let H := fresh in
  intros H; vm_compute in H;
  repeat (destruct H as [H|H]; [discriminate H|]); exact H.

(** The media type of a data URL that starts with [data:image/] is read
    without a [TypeError], and starts with [image/]; so does its format. *)
Lemma media_type_of_image (rest : jsstring) :
  exists r,
    ImageUtils.media_type (hd [] (split 44 (lit "data:image/" ++ rest)))
    = Some (lit "image/" ++ r)
    /\ ImageUtils.at_index (split 47 (lit "image/" ++ r)) 1
       = Some (hd [] (split 47 r)).
Proof.
  rewrite (hd_split_app 44 (lit "data:image/") rest) by not_in_literal.
  set (r0 := hd [] (split 44 rest)).
  unfold ImageUtils.media_type, ImageUtils.at_index.
  change (lit "data:image/" ++ r0)
    with (lit "data" ++ 58%N :: (lit "image/" ++ r0)).
  rewrite (second_of_split 58 (lit "data") _) by not_in_literal.
  rewrite (hd_split_app 58 (lit "image/") r0) by not_in_literal.
  set (r1 := hd [] (split 58 r0)).
  rewrite (hd_split_app 59 (lit "image/") r1) by not_in_literal.
  set (r2 := hd [] (split 59 r1)).
  exists r2. split; [reflexivity|].
  change (lit "image/" ++ r2) with (lit "image" ++ 47%N :: r2).
  apply (second_of_split 47 (lit "image")). not_in_literal.
Qed.

Lemma startsWith_prefix (s p q : jsstring) :
  startsWith s (p ++ q) = true -> startsWith s p = true.
Proof.
  revert s. induction p as [|c p IH]; intros s H; [reflexivity|].
  destruct s as [|d s]; [discriminate H|].
  cbn [app startsWith] in *. apply andb_prop in H. destruct H as [Hd Hs].
  rewrite Hd. apply IH, Hs.
Qed.

Section Images.

Import Chat ImageUtils.

Context {platform : Platform}.

(** [validateImageUrl] returns, and what it accepts is a data URL of an image
    with a payload, or an HTTP or HTTPS address. *)
Lemma validateImageUrl_accepts (imageUrl : jsstring) :
  exists validation,
    validateImageUrl imageUrl = Some validation
    /\ (isValid validation = true ->
        (startsWith imageUrl (lit "data:image/") = true
         /\ truthy_opt (at_index (split 44 imageUrl) 1) = true
         /\ exists r,
              media_type (hd [] (split 44 imageUrl))
              = Some (lit "image/" ++ r))
        \/ (startsWith imageUrl (lit "data:image/") = false
            /\ startsWith imageUrl (lit "http://")
               || startsWith imageUrl (lit "https://") = true
            /\ mimeType validation = Some (lit "image/jpeg"))).
Proof.
  unfold validateImageUrl.
  destruct (truthy imageUrl); cbn [negb];
    [|eexists; split; [reflexivity|discriminate]].
  destruct (startsWith imageUrl (lit "data:image/")) eqn:Hdata.
  - pose proof (startsWith_split _ _ Hdata) as Hurl.
    set (rest := skipn (List.length (lit "data:image/")) imageUrl) in Hurl.
    destruct (media_type_of_image rest) as (r & Hmedia & Hformat).
    rewrite <- Hurl in Hmedia.
    destruct (truthy_opt (at_index (split 44 imageUrl) 1)) eqn:Hpayload;
      cbn [negb]; [|eexists; split; [reflexivity|discriminate]].
    rewrite Hmedia, Hformat.
    destruct (existsb _ supportedFormats); cbn [negb];
      [|eexists; split; [reflexivity|discriminate]].
    destruct (atob_accepts _);
      [|eexists; split; [reflexivity|discriminate]].
    eexists. split; [reflexivity|]. intros _. left.
    split; [reflexivity|]. split; [reflexivity|].
    exists r. reflexivity.
  - destruct (startsWith imageUrl (lit "http://")
              || startsWith imageUrl (lit "https://")) eqn:Hhttp;
      [|eexists; split; [reflexivity|discriminate]].
    destruct (URL_accepts imageUrl);
      [|eexists; split; [reflexivity|discriminate]].
    eexists. split; [reflexivity|]. intros _. right.
    split; [reflexivity|]. split; reflexivity.
Qed.

Lemma http_is_not_data (imageUrl : jsstring) :
  startsWith imageUrl (lit "http://") || startsWith imageUrl (lit "https://")
  = true ->
  startsWith imageUrl (lit "data:") = false.
Proof.
  destruct imageUrl as [|c s]; [discriminate|].
  change (lit "http://") with (104%N :: lit "ttp://").
  change (lit "https://") with (104%N :: lit "ttps://").
  change (lit "data:") with (100%N :: lit "ata:").
  cbn [startsWith]. destruct (c =? 104)%N eqn:Hc; [|discriminate].
  apply N.eqb_eq in Hc. subst c. reflexivity.
Qed.

Lemma format_item_ok (item : MessageContent) :
  match format_item item with
  | inl e => e <> TypeError
  | inr parts => Forall image_part_ok parts
  end.
Proof.
  unfold format_item.
  destruct (JS.eqb (item_type item) (lit "text"));
    [repeat constructor|].
  destruct (JS.eqb (item_type item) (lit "image_url")); [|constructor].
  destruct (image_url item) as [image|]; [|constructor].
  destruct (validateImageUrl_accepts (url image))
    as (validation & Hv & Hvalid).
  rewrite Hv.
  destruct (isValid validation); cbn [negb]; [|discriminate].
  destruct (Hvalid eq_refl)
    as [(Hdata & Hpayload & r & Hmedia)|(Hdata & Hhttp & Hmime)].
  - rewrite (startsWith_prefix _ (lit "data:") (lit "image/") Hdata), Hmedia.
    constructor; [|constructor]. cbn [image_part_ok]. split.
    + apply startsWith_app.
    + destruct (at_index (split 44 (url image)) 1) as [d|];
        [|discriminate Hpayload].
      exists d. split; [reflexivity|].
      intros ->. discriminate Hpayload.
  - rewrite (http_is_not_data _ Hhttp), Hmime.
    constructor; [|constructor]. cbn [image_part_ok truthy]. split.
    + reflexivity.
    + exact Hhttp.
Qed.

Lemma format_items_ok (items : list MessageContent) :
  match format_items items with
  | inl e => e <> TypeError
  | inr parts => Forall image_part_ok parts
  end.
Proof.
  induction items as [|item items IH]; [constructor|].
  cbn [format_items].
  pose proof (format_item_ok item) as H1.
  destruct (format_item item) as [e|parts]; [exact H1|].
  destruct (format_items items) as [e|parts']; [exact IH|].
  apply Forall_app. split; assumption.
Qed.

End Images.

(** X30. Converting a message to the format of the upstream never fails
    with a [TypeError]: it throws for an invalid image only.  When it
    returns, every image part is inline data with a media type that starts
    with [image/] and a payload that is not empty, or a file of an HTTP or
    HTTPS address with the media type [image/jpeg]. *)
Theorem image_parts_are_validated
        {platform : ImageUtils.Platform} (msg : Chat.ChatMessage) :
  match ImageUtils.messageToGeminiFormat msg with
  | inl e => e <> ImageUtils.TypeError
  | inr formatted =>
      Forall image_part_ok (ImageUtils.formatted_parts formatted)
  end.
Proof.
  unfold ImageUtils.messageToGeminiFormat.
  destruct (Chat.content msg) as [s|items].
  - cbn [ImageUtils.formatted_parts]. repeat constructor.
  - pose proof (format_items_ok items) as H.
    destruct (ImageUtils.format_items items) as [e|parts]; exact H.
Qed.
